(** * gtklock-playerctl-module: the event and widget-state core of source.c

    A shallow embedding of [src/source.c].  The module is single threaded:
    every handler runs to completion on the GTK main loop, so a handler is a
    function from the module's state to a result.  The state holds the static
    variable [current_player], the heap of [struct playerctl] objects
    (addressed, because asynchronous callbacks and timeout sources keep the
    pointer they were given as [user_data]), the per-window module-data slot,
    the main loop's pending sources and a trace of the library calls whose
    order or number matters. *)

From Stdlib Require Import ZArith Ascii String.
From stdpp Require Import base option list gmap strings.

Open Scope string_scope.
Open Scope nat_scope.
Open Scope list_scope.

(** ** Toolkit objects, as far as the module sets or reads them *)

Inductive GtkAlign := GTK_ALIGN_FILL | GTK_ALIGN_START | GTK_ALIGN_END | GTK_ALIGN_CENTER.

(** Where [setup_playerctl] attaches the revealer. *)
Inductive Parent := info_box_last | info_box_first | overlay.

Record GtkRevealer := mkRevealer {
  reveal_child : bool;
  halign : GtkAlign;
  valign : GtkAlign;
  parent : Parent;
  shown : bool;            (* gtk_widget_show_all reached it *)
  in_destruction : bool    (* gtk_widget_destroy reached it and its subtree *)
}.

(** The pixbuf [gdk_pixbuf_new_from_stream_at_scale] yields is kept symbolic:
    which stream it was decoded from and the size that was requested. *)
Record GdkPixbuf := mkPixbuf { decoded_from : nat; req_width : Z; req_height : Z }.

Inductive GtkImage :=
| image_icon_name (icon : string)
| image_pixbuf (p : GdkPixbuf).

Inductive LabelContent :=
| label_str (s : string)                (* gtk_label_new(s) *)
| label_markup_bold (s : string).       (* markup "<b>%s</b>" with s escaped *)

(** Every label the module makes has xalign 0, ellipsize END and
    max-width-chars 1; only the widget name and the content differ. *)
Record GtkLabel := mkLabel { label_name : string; label_content : LabelContent }.

Record GtkButton := mkButton { button_image : option string; sensitive : bool }.

Definition addr := nat.

(** [struct playerctl].  Each pointer field is owned by the struct, so the
    object it points to is kept in place.  [album_art = None] is the field as
    [g_malloc] left it: never assigned. *)
Record playerctl := mkPlayerctl {
  revealer : GtkRevealer;
  album_art : option GtkImage;
  label_box : list GtkLabel;
  previous_button : GtkButton;
  play_pause_button : GtkButton;
  next_button : GtkButton;
  destroyed : bool
}.

Definition set_revealer (r : GtkRevealer) (w : playerctl) : playerctl :=
  mkPlayerctl r (album_art w) (label_box w) (previous_button w) (play_pause_button w)
    (next_button w) (destroyed w).
Definition set_album_art (i : option GtkImage) (w : playerctl) : playerctl :=
  mkPlayerctl (revealer w) i (label_box w) (previous_button w) (play_pause_button w)
    (next_button w) (destroyed w).
Definition set_label_box (l : list GtkLabel) (w : playerctl) : playerctl :=
  mkPlayerctl (revealer w) (album_art w) l (previous_button w) (play_pause_button w)
    (next_button w) (destroyed w).
Definition set_previous_button (b : GtkButton) (w : playerctl) : playerctl :=
  mkPlayerctl (revealer w) (album_art w) (label_box w) b (play_pause_button w)
    (next_button w) (destroyed w).
Definition set_play_pause_button (b : GtkButton) (w : playerctl) : playerctl :=
  mkPlayerctl (revealer w) (album_art w) (label_box w) (previous_button w) b
    (next_button w) (destroyed w).
Definition set_next_button (b : GtkButton) (w : playerctl) : playerctl :=
  mkPlayerctl (revealer w) (album_art w) (label_box w) (previous_button w)
    (play_pause_button w) b (destroyed w).
Definition set_destroyed (d : bool) (w : playerctl) : playerctl :=
  mkPlayerctl (revealer w) (album_art w) (label_box w) (previous_button w)
    (play_pause_button w) (next_button w) d.

Definition with_reveal_child (b : bool) (r : GtkRevealer) : GtkRevealer :=
  mkRevealer b (halign r) (valign r) (parent r) (shown r) (in_destruction r).
Definition with_shown (b : bool) (r : GtkRevealer) : GtkRevealer :=
  mkRevealer (reveal_child r) (halign r) (valign r) (parent r) b (in_destruction r).
Definition with_in_destruction (b : bool) (r : GtkRevealer) : GtkRevealer :=
  mkRevealer (reveal_child r) (halign r) (valign r) (parent r) (shown r) b.
Definition with_sensitive (b : bool) (x : GtkButton) : GtkButton :=
  mkButton (button_image x) b.
Definition with_button_image (i : string) (x : GtkButton) : GtkButton :=
  mkButton (Some i) (sensitive x).

(** ** The player, the host and the main loop *)

Inductive PlayerctlPlaybackStatus :=
| PLAYERCTL_PLAYBACK_STATUS_PLAYING
| PLAYERCTL_PLAYBACK_STATUS_PAUSED
| PLAYERCTL_PLAYBACK_STATUS_STOPPED.

(** What the module reads from a [PlayerctlPlayer]. A [gchar *] that may be
    NULL is an [option string]. *)
Record PlayerctlPlayer := mkPlayer {
  playback_status_prop : PlayerctlPlaybackStatus;
  title : option string;
  album : option string;
  artist : option string;
  art_url : option string;      (* metadata property mpris:artUrl *)
  can_go_next : bool;
  can_go_previous : bool;
  can_pause : bool
}.

Definition PlayerctlPlayerName := string.

(** [struct Window *] is an identity; its module-data slot is kept in the
    state. [struct GtkLock] as far as the module reads it. *)
Definition Window := nat.
Record GtkLock := mkGtkLock { focused_window : option Window; hidden : bool }.

(** A stream handed to a completion callback: decoding it either fails with a
    message or succeeds (the number identifies the image). *)
Inductive GInputStream :=
| stream_image (id : nat)
| stream_corrupt (msg : string).

Definition gdk_pixbuf_new_from_stream_at_scale
    (stream : GInputStream) (width height : Z) : string + GdkPixbuf :=
  match stream with
  | stream_image id => inr (mkPixbuf id width height)
  | stream_corrupt msg => inl msg
  end.

Inductive Command := cmd_play_pause | cmd_next | cmd_previous.

Inductive Signal :=
| sig_player_appeared | sig_player_vanished | sig_name_appeared
| sig_metadata | sig_playback_status.

(** Library calls recorded in program order. *)
Inductive Call :=
| g_warning (msg : string)
| g_malloc (a : addr)
| g_free (a : addr)
| gtk_widget_destroy (a : addr)            (* on the revealer of the struct at a *)
| store_destroyed (a : addr)               (* widget->destroyed = TRUE *)
| gtk_image_set_from_icon_name (a : addr)
| gtk_image_set_from_pixbuf (a : addr)
| g_file_read_async (uri : string) (user_data : addr)
| soup_session_send_async (uri : string) (user_data : addr)
| g_timeout_add_seconds (interval : nat) (user_data : addr)
| playerctl_player_command (c : Command)
| playerctl_player_manager_manage_player
| g_signal_connect (s : Signal)
| soup_session_new.

Inductive Cell :=
| Allocated (w : playerctl)
| Freed.

(** A started asynchronous read whose callback has not run yet. *)
Inductive Fetch :=
| file_read (uri : string) (user_data : addr)
| soup_send (uri : string) (user_data : addr).

Record State := mkState {
  current_player : option PlayerctlPlayer;
  heap : list Cell;                    (* g_malloc appends; no address is reused *)
  module_data : gmap Window addr;      (* ctx->module_data[self_id], absent = NULL *)
  in_flight : list Fetch;
  sources : list (nat * addr);         (* timeout sources: interval, user_data *)
  log : list Call
}.

Definition set_current_player (p : option PlayerctlPlayer) (s : State) : State :=
  mkState p (heap s) (module_data s) (in_flight s) (sources s) (log s).
Definition set_heap (h : list Cell) (s : State) : State :=
  mkState (current_player s) h (module_data s) (in_flight s) (sources s) (log s).
Definition set_module_data (m : gmap Window addr) (s : State) : State :=
  mkState (current_player s) (heap s) m (in_flight s) (sources s) (log s).
Definition set_in_flight (f : list Fetch) (s : State) : State :=
  mkState (current_player s) (heap s) (module_data s) f (sources s) (log s).
Definition set_sources (t : list (nat * addr)) (s : State) : State :=
  mkState (current_player s) (heap s) (module_data s) (in_flight s) t (log s).
Definition set_log (l : list Call) (s : State) : State :=
  mkState (current_player s) (heap s) (module_data s) (in_flight s) (sources s) l.

(** The state when the module is loaded: the statics are NULL. *)
Definition initial : State := mkState None [] ∅ [] [] [].

(** ** Handlers as state transformers that may abort *)

Inductive Abort :=
| assertion_failed (expr : string)
| undefined_behaviour (what : string).

Inductive Result (A : Type) :=
| Ok (a : A) (s : State)
| Aborted (e : Abort) (s : State).     (* the state reached when it aborted *)
Arguments Ok {A} a s.
Arguments Aborted {A} e s.

Definition M (A : Type) := State -> Result A.

Definition ret {A} (a : A) : M A := fun s => Ok a s.
Definition bind {A B} (m : M A) (k : A -> M B) : M B :=
  fun s => match m s with
           | Ok a s' => k a s'
           | Aborted e s' => Aborted e s'
           end.
Definition abort {A} (e : Abort) : M A := fun s => Aborted e s.
Definition gets {A} (f : State -> A) : M A := fun s => Ok (f s) s.
Definition modify (f : State -> State) : M unit := fun s => Ok tt (f s).

Notation "'let*' x ':=' m 'in' k" := (bind m (fun x => k))
  (at level 10, x name, m at level 100, k at level 200).
Notation "m ;;; k" := (bind m (fun _ => k))
  (at level 100, k at level 200, right associativity).

Definition tell (c : Call) : M unit := modify (fun s => set_log (log s ++ [c]) s).

Definition g_assert (b : bool) (expr : string) : M unit :=
  if b then ret tt else abort (assertion_failed expr).

(** Reading through a [struct playerctl *]. *)
Definition load (a : addr) : M playerctl :=
  fun s => match heap s !! a with
           | Some (Allocated w) => Ok w s
           | Some Freed => Aborted (undefined_behaviour "use after free") s
           | None => Aborted (undefined_behaviour "wild pointer") s
           end.

Definition store (a : addr) (w : playerctl) : M unit :=
  modify (fun s => set_heap (<[a := Allocated w]> (heap s)) s).

(** [f] applied to the struct behind the pointer. *)
Definition update (a : addr) (f : playerctl -> playerctl) : M unit :=
  let* w := load a in store a (f w).

(** [s && s[0] != '\0'] *)
Definition nonempty (s : option string) : bool :=
  match s with
  | Some (String _ _) => true
  | _ => false
  end.

(** [g_strcmp0(a, b) == 0] with [b] possibly NULL. *)
Definition g_strcmp0_eq (a : string) (b : option string) : bool :=
  match b with
  | Some b' => bool_decide (a = b')
  | None => false
  end.

Definition G_SOURCE_REMOVE : bool := false.
Definition G_SOURCE_CONTINUE : bool := true.

(** A library call that reports failure through a [GError **]: the caller sees
    the error only where it passed a location for it. *)
Definition reported (location_given : bool) (outcome : option string) : option string :=
  if location_given then outcome else None.

(** GLib's [g_uri_peek_scheme] as its documentation has it: the scheme is an
    ASCII letter followed by letters, digits, [+], [-] and [.], ended by a
    colon; it is returned in lower case, and NULL when the string has none.
    The handlers below take the function as a parameter; this one serves the
    concrete runs. *)
Definition is_alpha (c : ascii) : bool :=
  let n := nat_of_ascii c in
  ((65 <=? n) && (n <=? 90)) || ((97 <=? n) && (n <=? 122)).
Definition is_scheme_char (c : ascii) : bool :=
  let n := nat_of_ascii c in
  is_alpha c || ((48 <=? n) && (n <=? 57))
  || bool_decide (n = 43) || bool_decide (n = 45) || bool_decide (n = 46).
Definition to_lower (c : ascii) : ascii :=
  let n := nat_of_ascii c in
  if (65 <=? n) && (n <=? 90) then ascii_of_nat (n + 32) else c.

Fixpoint scheme_rest (u : string) : option string :=
  match u with
  | EmptyString => None
  | String c u' =>
      if bool_decide (nat_of_ascii c = 58) then Some EmptyString
      else if is_scheme_char c then String (to_lower c) <$> scheme_rest u'
      else None
  end.

Definition uri_scheme (u : string) : option string :=
  match u with
  | EmptyString => None
  | String c u' =>
      if is_alpha c then String (to_lower c) <$> scheme_rest u' else None
  end.

(** ** Sample data for the concrete runs *)

Definition player_full : PlayerctlPlayer :=
  mkPlayer PLAYERCTL_PLAYBACK_STATUS_PLAYING (Some "Song") (Some "Album") (Some "Artist")
    (Some "https://example.org/cover.png") true false true.

Definition player_empty_album : PlayerctlPlayer :=
  mkPlayer PLAYERCTL_PLAYBACK_STATUS_PLAYING (Some "Song") (Some "") (Some "Artist")
    (Some "https://example.org/cover.png") true false true.

Definition player_null_album : PlayerctlPlayer :=
  mkPlayer PLAYERCTL_PLAYBACK_STATUS_PAUSED (Some "Song") None (Some "Artist")
    (Some "https://example.org/cover.png") true true true.

Definition sample_new_from_name (name : PlayerctlPlayerName) : option PlayerctlPlayer :=
  Some player_full.

Definition focus_on (w : Window) : GtkLock := mkGtkLock (Some w) false.
Definition no_focus : GtkLock := mkGtkLock None false.

(** The state a handler leaves, whether it returned or aborted. *)
Definition after (m : M unit) (s : State) : State :=
  match m s with
  | Ok _ s' => s'
  | Aborted _ s' => s'
  end.

(** The widget of a window after a refresh with [player_full]. *)
Definition sample_widget (reveal : bool) : playerctl :=
  mkPlayerctl
    (mkRevealer reveal GTK_ALIGN_CENTER GTK_ALIGN_START overlay true false)
    (Some (image_icon_name "audio-x-generic-symbolic"))
    [mkLabel "title-label" (label_markup_bold "Song");
     mkLabel "album-label" (label_str "Album");
     mkLabel "artist-label" (label_str "Artist")]
    (mkButton (Some "media-skip-backward-symbolic") false)
    (mkButton (Some "media-playback-pause-symbolic") true)
    (mkButton (Some "media-skip-forward-symbolic") true)
    false.

Definition activation_log : list Call :=
  [g_signal_connect sig_player_appeared; g_signal_connect sig_player_vanished;
   playerctl_player_manager_manage_player; g_signal_connect sig_name_appeared;
   soup_session_new].

Definition window_log (a : addr) : list Call :=
  [g_malloc a; gtk_image_set_from_icon_name a;
   soup_session_send_async "https://example.org/cover.png" a;
   g_timeout_add_seconds 1 a].

(** After activation with one player on the bus. *)
Definition state_tracked : State :=
  mkState (Some player_full) [] ∅ [] [] activation_log.

(** Then window 0 got the focus. *)
Definition state_focused : State :=
  mkState (Some player_full) [Allocated (sample_widget true)] {[ 0 := 0 ]}
    [soup_send "https://example.org/cover.png" 0] [(1, 0)]
    (activation_log ++ window_log 0).

(** Then the focus went from window 0 to window 1. *)
Definition state_two_windows : State :=
  mkState (Some player_full)
    [Allocated (sample_widget false); Allocated (sample_widget true)]
    (<[ 1 := 1 ]> {[ 0 := 0 ]})
    [soup_send "https://example.org/cover.png" 0;
     soup_send "https://example.org/cover.png" 1]
    [(1, 0); (1, 1)]
    (activation_log ++ window_log 0 ++ window_log 1).

(** ** The first version of the module (src/unnamed/part_000)

    The same handlers as they were first written: the struct holds the
    revealer and the box only, a widget is torn down and built anew at every
    setup, and nothing is asynchronous. The model has its own state. *)

Module V1.

(** above-clock and under-clock put the revealer into the window box, at the
    clock label's position or right after it. *)
Inductive Placement := before_clock | after_clock | in_overlay.

Record Revealer := mkRevealer {
  reveal_child : bool;
  halign : GtkAlign;
  valign : GtkAlign;
  placement : Placement
}.

Record Label := mkLabel { label_name : string; label_text : string; is_markup : bool }.

(** The box: its labels and the image of its play/pause button. *)
Record Box := mkBox { labels : list Label; play_pause_image : string }.

(** [struct playerctl] *)
Record playerctl := mkPlayerctl { revealer : Revealer; box : Box }.

Inductive Cell :=
| Allocated (w : playerctl)
| Freed.

Inductive Call :=
| g_warning (msg : string)
| g_malloc (a : addr)
| g_free (a : addr)
| gtk_widget_destroy (a : addr)
| playerctl_player_play_pause
| playerctl_player_manager_manage_player
| g_signal_connect (s : Signal).

Record State := mkState {
  player : option PlayerctlPlayer;      (* the global [player] *)
  heap : list Cell;
  module_data : gmap Window addr;       (* MODULE_DATA(x), absent = NULL *)
  log : list Call
}.

Definition initial : State := mkState None [] ∅ [].

Inductive Result (A : Type) :=
| Ok (a : A) (s : State)
| Aborted (what : string) (s : State).
Arguments Ok {A} a s.
Arguments Aborted {A} what s.

Definition M (A : Type) := State -> Result A.

Definition ret {A} (a : A) : M A := fun s => Ok a s.
Definition bind {A B} (m : M A) (k : A -> M B) : M B :=
  fun s => match m s with
           | Ok a s' => k a s'
           | Aborted e s' => Aborted e s'
           end.
Definition seq {A B} (m : M A) (k : M B) : M B := bind m (fun _ => k).
Definition abort {A} (what : string) : M A := fun s => Aborted what s.
Definition gets {A} (f : State -> A) : M A := fun s => Ok (f s) s.
Definition modify (f : State -> State) : M unit := fun s => Ok tt (f s).

Definition tell (c : Call) : M unit :=
  modify (fun s => mkState (player s) (heap s) (module_data s) (log s ++ [c])).

(** [g_warning_once]: only the first execution logs. *)
Definition logged (msg : string) (l : list Call) : bool :=
  existsb (fun c => match c with
                    | g_warning m => String.eqb m msg
                    | _ => false
                    end) l.

Definition g_warning_once (msg : string) : M unit :=
  bind (gets log) (fun l => if logged msg l then ret tt else tell (g_warning msg)).

Definition set_player (p : option PlayerctlPlayer) : M unit :=
  modify (fun s => mkState p (heap s) (module_data s) (log s)).

Definition set_slot (ctx : Window) (v : option addr) : M unit :=
  modify (fun s => mkState (player s) (heap s)
                     match v with
                     | Some a => <[ctx := a]> (module_data s)
                     | None => delete ctx (module_data s)
                     end (log s)).

Definition set_cell (a : addr) (c : Cell) : M unit :=
  modify (fun s => mkState (player s) (<[a := c]> (heap s)) (module_data s) (log s)).

(** [PLAYERCTL(x)->revealer] read: the slot is not tested. *)
Definition PLAYERCTL (x : Window) : M (addr * playerctl) :=
  bind (gets (fun s => module_data s !! x)) (fun slot =>
    match slot with
    | None => abort "NULL dereference"
    | Some a =>
        bind (gets (fun s => heap s !! a)) (fun cell =>
          match cell with
          | Some (Allocated w) => ret (a, w)
          | _ => abort "use after free"
          end)
    end).

Definition gtk_revealer_set_reveal_child (x : Window) (b : bool) : M unit :=
  bind (PLAYERCTL x) (fun '(a, w) =>
    set_cell a (Allocated
      (mkPlayerctl (mkRevealer b (halign (revealer w)) (valign (revealer w))
                      (placement (revealer w))) (box w)))).

(** Both paths return before anything is done. *)
Definition setup_album_art (art_size : Z) (ctx : Window) : M unit :=
  if bool_decide (art_size = 0%Z) then ret tt else ret tt.

Section Build.

Variable position : string.

Definition position_is (name : string) : bool := String.eqb position name.

Definition unknown_position : bool :=
  negb (position_is "top-left" || position_is "top-right" || position_is "top-center")
  && negb (position_is "bottom-left" || position_is "bottom-right"
           || position_is "bottom-center")
  && (negb (position_is "above-clock") && negb (position_is "under-clock")).

Definition revealer_halign : GtkAlign :=
  if unknown_position then GTK_ALIGN_CENTER
  else if position_is "top-left" || position_is "bottom-left" then GTK_ALIGN_START
  else if position_is "top-right" || position_is "bottom-right" then GTK_ALIGN_END
  else GTK_ALIGN_CENTER.

Definition revealer_valign : GtkAlign :=
  if position_is "top-left" || position_is "top-right" || position_is "top-center"
  then GTK_ALIGN_START
  else if position_is "bottom-left" || position_is "bottom-right"
          || position_is "bottom-center"
  then GTK_ALIGN_END
  else if unknown_position then GTK_ALIGN_START
  else GTK_ALIGN_FILL.

Definition revealer_placement : Placement :=
  let under := position_is "under-clock" in
  if under || position_is "above-clock" then
    if under then after_clock else before_clock
  else in_overlay.

Definition label_if_nonempty (value : option string) (name : string) (markup : bool) :
    list Label :=
  match value with
  | Some (String _ _ as v) => [mkLabel name v markup]
  | _ => []
  end.

(** The struct [setup_playerctl] builds for a player whose status is not
    Stopped. *)
Definition new_playerctl (p : PlayerctlPlayer) : playerctl :=
  mkPlayerctl
    (mkRevealer true revealer_halign revealer_valign revealer_placement)
    (mkBox
       (label_if_nonempty (title p) "title-label" true
        ++ label_if_nonempty (album p) "album-label" false
        ++ label_if_nonempty (artist p) "artist-label" false)
       match playback_status_prop p with
       | PLAYERCTL_PLAYBACK_STATUS_PLAYING => "media-playback-pause"
       | _ => "media-playback-start"
       end).

Definition setup_playerctl (art_size : Z) (ctx : Window) : M unit :=
  seq
    (bind (gets (fun s => module_data s !! ctx)) (fun slot =>
       match slot with
       | Some a =>
           seq (PLAYERCTL ctx)
          (seq (tell (gtk_widget_destroy a))
          (seq (tell (g_free a))
          (seq (set_cell a Freed)
               (set_slot ctx None))))
       | None => ret tt
       end))
    (bind (gets player) (fun pl =>
       match pl with
       | None => ret tt
       | Some p =>
           match playback_status_prop p with
           | PLAYERCTL_PLAYBACK_STATUS_STOPPED => ret tt
           | _ =>
               bind (gets (fun s => length (heap s))) (fun a =>
                 seq (tell (g_malloc a))
                (seq (modify (fun s => mkState (player s) (heap s ++ [Allocated (new_playerctl p)])
                                         (module_data s) (log s)))
                (seq (set_slot ctx (Some a))
                (seq (if unknown_position
                      then g_warning_once "playerctl-module: Unknown position"
                      else ret tt)
                     (setup_album_art art_size ctx)))))
           end
       end)).

(** The button's handler: the command's error is not asked for. *)
Definition play_pause (art_size : Z) (user_data : Window) : M unit :=
  seq (tell playerctl_player_play_pause) (setup_playerctl art_size user_data).

Variable playerctl_player_new_from_name : PlayerctlPlayerName -> option PlayerctlPlayer.

Definition name_appeared (art_size : Z) (gtklock : GtkLock) (name : PlayerctlPlayerName) :
    M unit :=
  bind (gets player) (fun pl =>
    match pl with
    | Some _ => ret tt
    | None =>
        seq (set_player (playerctl_player_new_from_name name))
       (seq (tell playerctl_player_manager_manage_player)
            match focused_window gtklock with
            | Some window => setup_playerctl art_size window
            | None => ret tt
            end)
    end).

(** The handler's parameter is named [player] too; the assignment
    [player = NULL] is to the parameter and the global keeps its value. *)
Definition player_vanished : M unit := ret tt.

Definition on_activation (manager : string + list PlayerctlPlayerName) : M unit :=
  match manager with
  | inl message => tell (g_warning ("Playerctl failed: " +:+ message))
  | inr available_players =>
      seq (tell (g_signal_connect sig_name_appeared))
     (seq (tell (g_signal_connect sig_player_vanished))
          match available_players with
          | name :: _ =>
              seq (set_player (playerctl_player_new_from_name name))
                  (tell playerctl_player_manager_manage_player)
          | [] => ret tt
          end)
  end.

Definition on_focus_change (art_size : Z) (gtklock : GtkLock) (win : Window)
    (old : option Window) : M unit :=
  seq (setup_playerctl art_size win)
 (seq (if hidden gtklock then gtk_revealer_set_reveal_child win false else ret tt)
      match old with
      | Some old =>
          if bool_decide (win ≠ old) then gtk_revealer_set_reveal_child old false
          else ret tt
      | None => ret tt
      end).

(** The struct is freed; its revealer is not destroyed. *)
Definition on_window_empty (ctx : Window) : M unit :=
  bind (gets (fun s => module_data s !! ctx)) (fun slot =>
    match slot with
    | Some a => seq (tell (g_free a)) (seq (set_cell a Freed) (set_slot ctx None))
    | None => ret tt
    end).

Definition on_idle_hide (gtklock : GtkLock) : M unit :=
  match focused_window gtklock with
  | Some window => gtk_revealer_set_reveal_child window false
  | None => ret tt
  end.

Definition on_idle_show (gtklock : GtkLock) : M unit :=
  match focused_window gtklock with
  | Some window => gtk_revealer_set_reveal_child window true
  | None => ret tt
  end.

(** What the bus delivers. *)
Inductive BusEvent :=
| bus_name_appeared (gtklock : GtkLock) (name : PlayerctlPlayerName)
| bus_player_vanished.

Definition deliver (art_size : Z) (e : BusEvent) : M unit :=
  match e with
  | bus_name_appeared gtklock name => name_appeared art_size gtklock name
  | bus_player_vanished => player_vanished
  end.

Fixpoint deliver_all (art_size : Z) (events : list BusEvent) : M unit :=
  match events with
  | [] => ret tt
  | e :: events' => seq (deliver art_size e) (deliver_all art_size events')
  end.

(** What the host, the bus and the user do to the module while the tracked
    player stays on the bus. The module gives up its reference to the player
    right after [playerctl_player_manager_manage_player] and never clears
    the global, so what a handler reads through it once the player has
    vanished is the library's matter: player-vanished is not among these
    events. *)
Inductive Event :=
| ev_name_appeared (gtklock : GtkLock) (name : PlayerctlPlayerName)
| ev_focus_change (gtklock : GtkLock) (win : Window) (old : option Window)
| ev_window_empty (ctx : Window)
| ev_idle_hide (gtklock : GtkLock)
| ev_idle_show (gtklock : GtkLock)
| ev_clicked (user_data : Window).

Definition handle (art_size : Z) (e : Event) : M unit :=
  match e with
  | ev_name_appeared gtklock name => name_appeared art_size gtklock name
  | ev_focus_change gtklock win old => on_focus_change art_size gtklock win old
  | ev_window_empty ctx => on_window_empty ctx
  | ev_idle_hide gtklock => on_idle_hide gtklock
  | ev_idle_show gtklock => on_idle_show gtklock
  | ev_clicked user_data => play_pause art_size user_data
  end.

Fixpoint run (art_size : Z) (events : list Event) : M unit :=
  match events with
  | [] => ret tt
  | e :: events' => seq (handle art_size e) (run art_size events')
  end.

End Build.

(** A widget is shown for the player: one is tracked and it is not
    stopped. *)
Definition shows (s : State) : bool :=
  match player s with
  | Some p =>
      match playback_status_prop p with
      | PLAYERCTL_PLAYBACK_STATUS_STOPPED => false
      | _ => true
      end
  | None => false
  end.

(** The calls [setup_playerctl] makes for [ctx], in their order: the
    teardown of the widget the window has, then the allocation of the new
    one and the warning for an unknown position, which is given once. *)
Definition setup_calls (position : string) (ctx : Window) (s : State) : list Call :=
  match module_data s !! ctx with
  | Some a => [gtk_widget_destroy a; g_free a]
  | None => []
  end
  ++ (if shows s
      then g_malloc (length (heap s))
           :: (if unknown_position position
                  && negb (logged "playerctl-module: Unknown position" (log s))
               then [g_warning "playerctl-module: Unknown position"]
               else [])
      else []).

(** Every slot points to an allocated struct and no struct is in two
    slots. *)
Definition live_slots (s : State) : Prop :=
  (forall win a, module_data s !! win = Some a ->
     exists w, heap s !! a = Some (Allocated w))
  /\ (forall win1 win2 a, module_data s !! win1 = Some a ->
       module_data s !! win2 = Some a -> win1 = win2).

(** From a state with live slots, [m] returns in one, or stops at a NULL
    dereference. *)
Definition safe (m : M unit) : Prop :=
  forall s, live_slots s ->
    (exists s', m s = Ok tt s' /\ live_slots s')
    \/ (exists s', m s = Aborted "NULL dereference" s').

End V1.

(** Sample data for the first version: a stopped player, the state after
    activation with one player on the bus, and the state after window 0 got
    the focus. *)
Definition player_stopped : PlayerctlPlayer :=
  mkPlayer PLAYERCTL_PLAYBACK_STATUS_STOPPED (Some "Song") (Some "Album") (Some "Artist")
    None false false false.

Definition first_state_tracked : V1.State :=
  V1.mkState (Some player_full) [] ∅ [].

Definition first_state_focused : V1.State :=
  V1.mkState (Some player_full)
    [V1.Allocated (V1.new_playerctl "top-center" player_full)] {[ 0 := 0 ]}
    [V1.g_malloc 0].

(** The player of window 0's widget has stopped since. *)
Definition first_state_stopped : V1.State :=
  V1.mkState (Some player_stopped) (V1.heap first_state_focused)
    (V1.module_data first_state_focused) (V1.log first_state_focused).

Definition hidden_focus_on (w : Window) : GtkLock := mkGtkLock (Some w) true.

(** Window 0's widget with two reads in flight and no player tracked. *)
Definition state_two_reads : State :=
  set_in_flight [soup_send "https://example.org/cover.png" 0;
                 file_read "file:///tmp/cover.png" 0] state_focused.

Definition state_player_gone : State := set_current_player None state_focused.

(** ** The module *)

Section Handlers.

(** The options ([module_entries]) and the two library functions whose
    results the handlers branch on. *)
Variable art_size : Z.
Variable position : string.
Variable show_hidden : bool.
Variable g_uri_peek_scheme : string -> option string.
Variable playerctl_player_new_from_name : PlayerctlPlayerName -> option PlayerctlPlayer.

(** [*module_data_from_window(ctx)] read and written. *)
Definition module_data_from_window (ctx : Window) : M (option addr) :=
  gets (fun s => module_data s !! ctx).

Definition module_data_store (ctx : Window) (widget : option addr) : M unit :=
  modify (fun s =>
    set_module_data (match widget with
                     | Some a => <[ctx := a]> (module_data s)
                     | None => delete ctx (module_data s)
                     end) s).

(** Toolkit calls on the objects of a struct. *)
Definition gtk_revealer_set_reveal_child (widget : addr) (b : bool) : M unit :=
  update widget (fun w => set_revealer (with_reveal_child b (revealer w)) w).

Definition gtk_widget_show_all (widget : addr) : M unit :=
  update widget (fun w => set_revealer (with_shown true (revealer w)) w).

Definition gtk_widget_destroy_revealer (widget : addr) : M unit :=
  let* w := load widget in
  tell (gtk_widget_destroy widget) ;;;
  store widget (set_revealer (with_in_destruction true (revealer w)) w).

(** [gtk_image_set_from_...(GTK_IMAGE(widget->album_art), ...)]: a field that
    was never assigned holds an indeterminate pointer. *)
Definition gtk_image_set (widget : addr) (i : GtkImage) : M unit :=
  let* w := load widget in
  match album_art w with
  | None => abort (undefined_behaviour "widget->album_art is indeterminate")
  | Some _ => store widget (set_album_art (Some i) w)
  end.

Definition gtk_container_add_label (widget : addr) (l : GtkLabel) : M unit :=
  update widget (fun w => set_label_box (label_box w ++ [l]) w).

(** [gtk_container_foreach(label_box, widget_destroy, NULL)] *)
Definition widget_destroy_each_label (widget : addr) : M unit :=
  update widget (set_label_box []).

Definition set_art_from_stream (stream : GInputStream) (widget : addr) : M unit :=
  let* w := load widget in
  if destroyed w then ret tt
  else
    match gdk_pixbuf_new_from_stream_at_scale stream (-1) art_size with
    | inl message =>
        tell (g_warning
          ("Failed loading album art (gdk_pixbuf_new_from_stream_at_scale): " +:+ message))
    | inr pixbuf =>
        tell (gtk_image_set_from_pixbuf widget) ;;;
        gtk_image_set widget (image_pixbuf pixbuf)
    end.

(** [res] is what [g_file_read_finish] gives: the error or the stream. *)
Definition file_callback (res : string + GInputStream) (user_data : addr) : M unit :=
  match res with
  | inl message =>
      tell (g_warning ("Failed loading album art (g_file_read_finish): " +:+ message))
  | inr stream => set_art_from_stream stream user_data
  end.

Definition request_callback (res : string + GInputStream) (user_data : addr) : M unit :=
  match res with
  | inl message =>
      tell (g_warning ("Failed loading album art (soup_request_send_finish): " +:+ message))
  | inr stream => set_art_from_stream stream user_data
  end.

Definition start (f : Fetch) : M unit :=
  modify (fun s => set_in_flight (in_flight s ++ [f]) s).

Definition setup_album_art (widget : addr) : M unit :=
  let* w := load widget in
  g_assert (negb (destroyed w)) "!widget->destroyed" ;;;
  tell (gtk_image_set_from_icon_name widget) ;;;
  gtk_image_set widget (image_icon_name "audio-x-generic-symbolic") ;;;
  let* player := gets current_player in
  (* error stays NULL: the metadata call is given no location for it *)
  match player ≫= art_url with
  | Some (String _ _ as uri) =>
      let scheme := g_uri_peek_scheme uri in
      if g_strcmp0_eq "file" scheme then
        tell (g_file_read_async uri widget) ;;;
        start (file_read uri widget)
      else if g_strcmp0_eq "http" scheme || g_strcmp0_eq "https" scheme then
        tell (soup_session_send_async uri widget) ;;;
        start (soup_send uri widget)
      else
        tell (g_warning "Failed loading album art (g_uri_peek_scheme): Unknown scheme")
  | _ => ret tt
  end.

(** The button handlers. [outcome] is the failure of the player's command, if
    it fails. *)
Definition play_pause (outcome : option string) : M unit :=
  tell (playerctl_player_command cmd_play_pause) ;;;
  match reported true outcome with
  | Some message => tell (g_warning ("Failed play_pause: " +:+ message))
  | None => ret tt
  end.

Definition next (outcome : option string) : M unit :=
  tell (playerctl_player_command cmd_next) ;;;
  match reported false outcome with
  | Some message => tell (g_warning ("Failed go_next: " +:+ message))
  | None => ret tt
  end.

Definition previous (outcome : option string) : M unit :=
  tell (playerctl_player_command cmd_previous) ;;;
  match reported false outcome with
  | Some message => tell (g_warning ("Failed go_previous: " +:+ message))
  | None => ret tt
  end.

Definition setup_playback (widget : addr) (status : PlayerctlPlaybackStatus) : M unit :=
  let* w := load widget in
  g_assert (negb (destroyed w)) "!widget->destroyed" ;;;
  let icon := match status with
              | PLAYERCTL_PLAYBACK_STATUS_PLAYING => "media-playback-pause-symbolic"
              | _ => "media-playback-start-symbolic"
              end in
  store widget (set_play_pause_button (with_button_image icon (play_pause_button w)) w).

Definition set_sensitivities (player : PlayerctlPlayer) (w : playerctl) : playerctl :=
  set_next_button (with_sensitive (can_go_next player) (next_button w))
    (set_play_pause_button (with_sensitive (can_pause player) (play_pause_button w))
       (set_previous_button (with_sensitive (can_go_previous player) (previous_button w)) w)).

Definition setup_button_sensitive_handler (user_data : addr) : M bool :=
  let* player := gets current_player in
  match player with
  | Some player =>
      let* w := load user_data in
      if destroyed w then ret G_SOURCE_REMOVE
      else
        store user_data (set_sensitivities player w) ;;;
        ret G_SOURCE_REMOVE
  | None => ret G_SOURCE_REMOVE
  end.

Definition setup_button_sensitive (widget : addr) : M unit :=
  tell (g_timeout_add_seconds 1 widget) ;;;
  modify (fun s => set_sources (sources s ++ [(1, widget)]) s) ;;;
  let* _ := setup_button_sensitive_handler widget in
  ret tt.

Definition add_if_nonempty (widget : addr) (value : option string)
    (make : string -> GtkLabel) : M unit :=
  match value with
  | Some (String _ _ as v) => gtk_container_add_label widget (make v)
  | _ => ret tt
  end.

Definition setup_metadata (widget : addr) : M unit :=
  let* w := load widget in
  g_assert (negb (destroyed w)) "!widget->destroyed" ;;;
  let* player := gets current_player in
  match player with
  | None => gtk_revealer_set_reveal_child widget false
  | Some player =>
      setup_playback widget (playback_status_prop player) ;;;
      setup_album_art widget ;;;
      widget_destroy_each_label widget ;;;
      add_if_nonempty widget (title player)
        (fun v => mkLabel "title-label" (label_markup_bold v)) ;;;
      add_if_nonempty widget (album player)
        (fun v => mkLabel "album-label" (label_str v)) ;;;
      add_if_nonempty widget (artist player)
        (fun v => mkLabel "artist-label" (label_str v)) ;;;
      setup_button_sensitive widget ;;;
      gtk_revealer_set_reveal_child widget true ;;;
      gtk_widget_show_all widget
  end.

(** The alignment and the parent [setup_playerctl] picks from [position]. *)
Definition position_is (name : string) : bool := String.eqb position name.

Definition first_halign : GtkAlign :=
  if position_is "top-left" || position_is "bottom-left" then GTK_ALIGN_START
  else if position_is "top-right" || position_is "bottom-right" then GTK_ALIGN_END
  else GTK_ALIGN_CENTER.

Definition unknown_position : bool :=
  negb (position_is "top-left" || position_is "top-right" || position_is "top-center")
  && negb (position_is "bottom-left" || position_is "bottom-right" || position_is "bottom-center")
  && (negb (position_is "above-clock") && negb (position_is "under-clock")).

Definition revealer_valign : GtkAlign :=
  if position_is "top-left" || position_is "top-right" || position_is "top-center"
  then GTK_ALIGN_START
  else if position_is "bottom-left" || position_is "bottom-right"
          || position_is "bottom-center"
  then GTK_ALIGN_END
  else if negb (position_is "above-clock") && negb (position_is "under-clock") then GTK_ALIGN_START
  else GTK_ALIGN_FILL.

Definition revealer_halign : GtkAlign :=
  if unknown_position then GTK_ALIGN_CENTER else first_halign.

Definition revealer_parent : Parent :=
  let above := position_is "above-clock" in
  if above || position_is "under-clock" then
    if above then info_box_first else info_box_last
  else overlay.

(** The struct as it stands when [setup_playerctl] reaches its call of
    [setup_metadata]. *)
Definition new_playerctl : playerctl :=
  mkPlayerctl
    (mkRevealer false revealer_halign revealer_valign revealer_parent false false)
    (if bool_decide (art_size = 0%Z) then None
     else Some (image_icon_name "audio-x-generic-symbolic"))
    []
    (mkButton (Some "media-skip-backward-symbolic") true)
    (mkButton None true)
    (mkButton (Some "media-skip-forward-symbolic") true)
    false.

Definition setup_playerctl (ctx : Window) : M addr :=
  let* slot := module_data_from_window ctx in
  match slot with
  | Some widget => ret widget
  | None =>
      let* widget := gets (fun s => length (heap s)) in
      tell (g_malloc widget) ;;;
      (if unknown_position then tell (g_warning "playerctl: Unknown position") else ret tt) ;;;
      modify (fun s => set_heap (heap s ++ [Allocated new_playerctl]) s) ;;;
      setup_metadata widget ;;;
      module_data_store ctx (Some widget) ;;;
      ret widget
  end.

Definition name_appeared (name : PlayerctlPlayerName) : M unit :=
  let* player := gets current_player in
  match player with
  | Some _ => ret tt
  | None =>
      modify (set_current_player (playerctl_player_new_from_name name)) ;;;
      tell playerctl_player_manager_manage_player
  end.

Definition metadata (gtklock : GtkLock) : M unit :=
  match focused_window gtklock with
  | None => ret tt
  | Some window =>
      let* slot := module_data_from_window window in
      match slot with
      | Some widget => setup_metadata widget
      | None => let* _ := setup_playerctl window in ret tt
      end
  end.

Definition playback_status (status : PlayerctlPlaybackStatus) (gtklock : GtkLock) : M unit :=
  match focused_window gtklock with
  | None => ret tt
  | Some window =>
      let* slot := module_data_from_window window in
      let* widget := match slot with
                     | Some widget => setup_metadata widget ;;; ret widget
                     | None => setup_playerctl window
                     end in
      setup_playback widget status
  end.

Definition player_appeared (gtklock : GtkLock) : M unit :=
  match focused_window gtklock with
  | Some window => let* _ := setup_playerctl window in ret tt
  | None => ret tt
  end ;;;
  tell (g_signal_connect sig_metadata) ;;;
  tell (g_signal_connect sig_playback_status).

Definition player_vanished (gtklock : GtkLock) : M unit :=
  modify (set_current_player None) ;;;
  match focused_window gtklock with
  | None => ret tt
  | Some window =>
      let* slot := module_data_from_window window in
      match slot with
      | Some widget =>
          gtk_widget_destroy_revealer widget ;;;
          tell (store_destroyed widget) ;;;
          update widget (set_destroyed true) ;;;
          module_data_store window None
      | None => ret tt
      end
  end.

(** [manager] is what [playerctl_player_manager_new] gives: the error, or the
    manager, of which the handler reads the player-names list. *)
Definition on_activation (manager : string + list PlayerctlPlayerName) : M unit :=
  match manager with
  | inl message => tell (g_warning ("Playerctl failed: " +:+ message))
  | inr available_players =>
      tell (g_signal_connect sig_player_appeared) ;;;
      tell (g_signal_connect sig_player_vanished) ;;;
      match available_players with
      | name :: _ =>
          modify (set_current_player (playerctl_player_new_from_name name)) ;;;
          tell playerctl_player_manager_manage_player
      | [] => ret tt
      end ;;;
      tell (g_signal_connect sig_name_appeared)
  end ;;;
  tell soup_session_new.

(** [win] is not NULL (the handler asserts it); [old] may be. *)
Definition on_focus_change (gtklock : GtkLock) (win : Window) (old : option Window) : M unit :=
  let* slot := module_data_from_window win in
  let* widget := match slot with
                 | Some widget => setup_metadata widget ;;; ret widget
                 | None => setup_playerctl win
                 end in
  gtk_revealer_set_reveal_child widget (negb (hidden gtklock) || show_hidden) ;;;
  match old with
  | Some old =>
      if bool_decide (win ≠ old) then
        let* old_widget := module_data_from_window old in
        match old_widget with
        | Some old_widget => gtk_revealer_set_reveal_child old_widget false
        | None => abort (assertion_failed "old_widget")
        end
      else ret tt
  | None => ret tt
  end.

Definition on_window_destroy (ctx : Window) : M unit :=
  let* slot := module_data_from_window ctx in
  match slot with
  | Some widget =>
      gtk_widget_destroy_revealer widget ;;;
      tell (g_free widget) ;;;
      modify (fun s => set_heap (<[widget := Freed]> (heap s)) s) ;;;
      module_data_store ctx None
  | None => ret tt
  end.

Definition on_idle_hide (gtklock : GtkLock) : M unit :=
  match focused_window gtklock with
  | Some window =>
      let* slot := module_data_from_window window in
      match slot with
      | Some widget => gtk_revealer_set_reveal_child widget show_hidden
      | None => ret tt
      end
  | None => ret tt
  end.

Definition on_idle_show (gtklock : GtkLock) : M unit :=
  match focused_window gtklock with
  | Some window =>
      let* slot := module_data_from_window window in
      match slot with
      | Some widget => gtk_revealer_set_reveal_child widget true
      | None => ret tt
      end
  | None => ret tt
  end.

(** ** The main loop's part *)

(** The completion of the [i]-th started read is delivered with [res]. *)
Definition complete (i : nat) (res : string + GInputStream) : M unit :=
  let* f := gets (fun s => in_flight s !! i) in
  match f with
  | Some f =>
      modify (fun s => set_in_flight (delete i (in_flight s)) s) ;;;
      match f with
      | file_read _ user_data => file_callback res user_data
      | soup_send _ user_data => request_callback res user_data
      end
  | None => ret tt
  end.

(** The [i]-th timeout source fires: GLib calls its function and destroys the
    source when the function returns [G_SOURCE_REMOVE], else keeps it for
    the next interval. *)
Definition dispatch_timeout (i : nat) : M unit :=
  let* src := gets (fun s => sources s !! i) in
  match src with
  | Some (_, user_data) =>
      let* again := setup_button_sensitive_handler user_data in
      if again then ret tt
      else modify (fun s => set_sources (delete i (sources s)) s)
  | None => ret tt
  end.


(** ** Notions the statements are written with *)

(** [s] with the struct at [a] replaced by [w]. *)
Definition at_widget (s : State) (a : addr) (w : playerctl) : State :=
  set_heap (<[a := Allocated w]> (heap s)) s.

(** A struct that is not marked destroyed and whose image was created. *)
Definition usable (w : playerctl) : Prop :=
  destroyed w = false /\ is_Some (album_art w).

Inductive Field := field_title | field_album | field_artist.

Definition field_value (f : Field) (p : PlayerctlPlayer) : option string :=
  match f with
  | field_title => title p
  | field_album => album p
  | field_artist => artist p
  end.

Definition field_label_name (f : Field) : string :=
  match f with
  | field_title => "title-label"
  | field_album => "album-label"
  | field_artist => "artist-label"
  end.

(** The labels of the label box that belong to a field. *)
Definition labels_of (f : Field) (w : playerctl) : list GtkLabel :=
  filter (fun l => label_name l = field_label_name f) (label_box w).

Definition labels_for (value : option string) (make : string -> GtkLabel) : list GtkLabel :=
  match value with
  | Some (String _ _ as v) => [make v]
  | _ => []
  end.

Definition placeholder : GtkImage := image_icon_name "audio-x-generic-symbolic".

(** What [setup_album_art] does about a URI, besides resetting the image. *)
Definition art_calls (a : addr) (uri : option string) : list Call :=
  match uri with
  | Some (String _ _ as u) =>
      if g_strcmp0_eq "file" (g_uri_peek_scheme u) then [g_file_read_async u a]
      else if g_strcmp0_eq "http" (g_uri_peek_scheme u)
              || g_strcmp0_eq "https" (g_uri_peek_scheme u)
           then [soup_session_send_async u a]
      else [g_warning "Failed loading album art (g_uri_peek_scheme): Unknown scheme"]
  | _ => []
  end.

Definition art_fetches (a : addr) (uri : option string) : list Fetch :=
  match uri with
  | Some (String _ _ as u) =>
      if g_strcmp0_eq "file" (g_uri_peek_scheme u) then [file_read u a]
      else if g_strcmp0_eq "http" (g_uri_peek_scheme u)
              || g_strcmp0_eq "https" (g_uri_peek_scheme u)
           then [soup_send u a]
      else []
  | _ => []
  end.

Definition play_pause_icon (status : PlayerctlPlaybackStatus) : string :=
  match status with
  | PLAYERCTL_PLAYBACK_STATUS_PLAYING => "media-playback-pause-symbolic"
  | _ => "media-playback-start-symbolic"
  end.

(** The struct a refresh with a tracked player leaves. *)
Definition refreshed (p : PlayerctlPlayer) (w : playerctl) : playerctl :=
  mkPlayerctl
    (with_shown true (with_reveal_child true (revealer w)))
    (Some placeholder)
    (labels_for (title p) (fun v => mkLabel "title-label" (label_markup_bold v))
     ++ labels_for (album p) (fun v => mkLabel "album-label" (label_str v))
     ++ labels_for (artist p) (fun v => mkLabel "artist-label" (label_str v)))
    (mkButton (button_image (previous_button w)) (can_go_previous p))
    (mkButton (Some (play_pause_icon (playback_status_prop p))) (can_pause p))
    (mkButton (button_image (next_button w)) (can_go_next p))
    false.

(** The rest of the state after that refresh. *)
Definition refreshed_rest (p : PlayerctlPlayer) (a : addr) (s : State) : State :=
  mkState (current_player s) (heap s) (module_data s)
    (in_flight s ++ art_fetches a (art_url p))
    (sources s ++ [(1, a)])
    (log s ++ gtk_image_set_from_icon_name a :: art_calls a (art_url p)
           ++ [g_timeout_add_seconds 1 a]).

(** In a trace: no handle of [a] is torn down unless [a]'s flag was stored
    earlier in the trace. *)
Fixpoint flag_before_teardown (a : addr) (l : list Call) : bool :=
  match l with
  | [] => true
  | store_destroyed b :: l' =>
      if bool_decide (a = b) then true else flag_before_teardown a l'
  | gtk_widget_destroy b :: l' =>
      if bool_decide (a = b) then false else flag_before_teardown a l'
  | _ :: l' => flag_before_teardown a l'
  end.

Definition warnings (l : list Call) : list string :=
  omap (fun c => match c with g_warning m => Some m | _ => None end) l.

(** The struct and the rest of the state a refresh leaves, with or without a
    tracked player. *)
Definition refresh_struct (player : option PlayerctlPlayer) (w : playerctl) : playerctl :=
  match player with
  | Some p => refreshed p w
  | None => set_revealer (with_reveal_child false (revealer w)) w
  end.

Definition refresh_rest (player : option PlayerctlPlayer) (a : addr) (s : State) : State :=
  match player with
  | Some p => refreshed_rest p a s
  | None => s
  end.

(** The tracked player's properties become [p] and the widget is refreshed,
    as when the player notifies a metadata change. *)
Definition refresh_with (p : PlayerctlPlayer) (widget : addr) : M unit :=
  modify (set_current_player (Some p)) ;;;
  setup_metadata widget.

Definition field_content (f : Field) (v : string) : LabelContent :=
  match f with
  | field_title => label_markup_bold v
  | _ => label_str v
  end.

(** The tracker's two states. *)
Inductive Session :=
| NoPlayer
| HasPlayer (p : PlayerctlPlayer).

Definition session (s : State) : Session :=
  match current_player s with
  | Some p => HasPlayer p
  | None => NoPlayer
  end.

(** Every slot holds a pointer to a struct that is still allocated. *)
Definition valid_slots (s : State) : Prop :=
  forall win a, module_data s !! win = Some a ->
    exists w, heap s !! a = Some (Allocated w).

Definition user_data_of (f : Fetch) : addr :=
  match f with
  | file_read _ a => a
  | soup_send _ a => a
  end.

(** The [i]-th timeout source is still installed after it has fired. *)
Definition recurring (s : State) (i : nat) : Prop :=
  exists src s', sources s !! i = Some src
    /\ dispatch_timeout i s = Ok tt s' /\ src ∈ sources s'.

Definition sensitivities_are (p : PlayerctlPlayer) (w : playerctl) : Prop :=
  sensitive (previous_button w) = can_go_previous p
  /\ sensitive (play_pause_button w) = can_pause p
  /\ sensitive (next_button w) = can_go_next p.

(** The state [setup_playerctl] has made when it calls [setup_metadata] for a
    window without a widget: the new struct is the last of the heap. *)
Definition built (s : State) : State :=
  set_heap (heap s ++ [Allocated new_playerctl])
    (set_log (log s ++ g_malloc (length (heap s))
                :: (if unknown_position then [g_warning "playerctl: Unknown position"] else []))
       s).

Definition revealed (b : bool) (w : playerctl) : playerctl :=
  set_revealer (with_reveal_child b (revealer w)) w.

(** [on_focus_change] from its call of gtk_revealer_set_reveal_child on. *)
Definition focus_rest (gtklock : GtkLock) (win : Window) (old : option Window)
    (widget : addr) : M unit :=
  gtk_revealer_set_reveal_child widget (negb (hidden gtklock) || show_hidden) ;;;
  match old with
  | Some old =>
      if bool_decide (win ≠ old) then
        let* old_widget := module_data_from_window old in
        match old_widget with
        | Some old_widget => gtk_revealer_set_reveal_child old_widget false
        | None => abort (assertion_failed "old_widget")
        end
      else ret tt
  | None => ret tt
  end.

(** The struct the refresh of a focus change starts from: the one the window
    has, or the one just built. *)
Definition focus_origin (s : State) (win : Window) (a : addr) (w0 : playerctl) : Prop :=
  (module_data s !! win = Some a /\ heap s !! a = Some (Allocated w0))
  \/ (module_data s !! win = None /\ a = length (heap s) /\ w0 = new_playerctl).

(** What the main loop delivers to the module, with what the host and the
    libraries supply at that moment. [ev_properties] is the tracked player
    changing its properties on the bus; it runs no handler. *)
Inductive Event :=
| ev_name_appeared (name : PlayerctlPlayerName)
| ev_player_appeared (gtklock : GtkLock)
| ev_player_vanished (gtklock : GtkLock)
| ev_properties (p : PlayerctlPlayer)
| ev_metadata (gtklock : GtkLock)
| ev_playback_status (status : PlayerctlPlaybackStatus) (gtklock : GtkLock)
| ev_focus_change (gtklock : GtkLock) (win : Window) (old : option Window)
| ev_window_destroy (ctx : Window)
| ev_idle_hide (gtklock : GtkLock)
| ev_idle_show (gtklock : GtkLock)
| ev_clicked (c : Command) (outcome : option string)
| ev_complete (i : nat) (res : string + GInputStream)
| ev_timeout (i : nat).

Definition handle (e : Event) : M unit :=
  match e with
  | ev_name_appeared name => name_appeared name
  | ev_player_appeared gtklock => player_appeared gtklock
  | ev_player_vanished gtklock => player_vanished gtklock
  | ev_properties p =>
      modify (fun s => match current_player s with
                       | Some _ => set_current_player (Some p) s
                       | None => s
                       end)
  | ev_metadata gtklock => metadata gtklock
  | ev_playback_status status gtklock => playback_status status gtklock
  | ev_focus_change gtklock win old => on_focus_change gtklock win old
  | ev_window_destroy ctx => on_window_destroy ctx
  | ev_idle_hide gtklock => on_idle_hide gtklock
  | ev_idle_show gtklock => on_idle_show gtklock
  | ev_clicked cmd_play_pause outcome => play_pause outcome
  | ev_clicked cmd_next outcome => next outcome
  | ev_clicked cmd_previous outcome => previous outcome
  | ev_complete i res => complete i res
  | ev_timeout i => dispatch_timeout i
  end.

Fixpoint run (events : list Event) : M unit :=
  match events with
  | [] => ret tt
  | e :: events' => handle e ;;; run events'
  end.

(** The struct at [a] is [w] and no window's slot points to it. *)
Definition kept (a : addr) (w : playerctl) (s : State) : Prop :=
  heap s !! a = Some (Allocated w)
  /\ forall win, module_data s !! win <> Some a.

(** From a state where that holds, [m] returns only in states where it still
    holds, with a result that satisfies [Q]. *)
Definition keeps (a : addr) (w : playerctl) {A} (Q : A -> Prop) (m : M A) : Prop :=
  forall s r s', kept a w s -> m s = Ok r s' -> kept a w s' /\ Q r.

Definition any {A} (x : A) : Prop := True.

(** A completion of an art read for the struct at [a], delivered in [s],
    changes no struct: a stream leaves the state as it is, an error is only
    logged. *)
Definition completion_does_nothing (a : addr) (s : State) : Prop :=
  (forall stream, set_art_from_stream stream a s = Ok tt s)
  /\ (forall res, exists s', file_callback res a s = Ok tt s' /\ heap s' = heap s)
  /\ (forall res, exists s', request_callback res a s = Ok tt s' /\ heap s' = heap s)
  /\ (forall i f res, in_flight s !! i = Some f -> user_data_of f = a ->
        exists s', complete i res s = Ok tt s' /\ heap s' = heap s).

(** Well-formed states: every slot points to an allocated, usable struct, and
    no struct is in the slots of two windows. *)
Definition wf (s : State) : Prop :=
  (forall win b, module_data s !! win = Some b ->
     exists w, heap s !! b = Some (Allocated w) /\ usable w)
  /\ (forall win1 win2 b, module_data s !! win1 = Some b ->
       module_data s !! win2 = Some b -> win1 = win2).

(** [m] changes nothing of the slots and of the heap but the struct at [b],
    which stays allocated and usable if it was. *)
Definition local (b : addr) {A} (m : M A) : Prop :=
  forall s r s', m s = Ok r s' ->
    module_data s' = module_data s
    /\ (forall c, c <> b -> heap s' !! c = heap s !! c)
    /\ (forall w, heap s !! b = Some (Allocated w) -> usable w ->
          exists w', heap s' !! b = Some (Allocated w') /\ usable w').

(** [m] returns only in well-formed states when it starts in one. *)
Definition keeps_wf {A} (m : M A) : Prop :=
  forall s r s', wf s -> m s = Ok r s' -> wf s'.

(** The position names [setup_playerctl] tests for. *)
Definition recognised : list string :=
  ["top-left"; "top-center"; "top-right";
   "bottom-left"; "bottom-center"; "bottom-right";
   "above-clock"; "under-clock"].

(** A refreshed struct with the play/pause image that [setup_playback] puts
    for [status]. *)
Definition with_status_icon (status : PlayerctlPlaybackStatus) (w : playerctl) : playerctl :=
  set_play_pause_button
    (with_button_image (play_pause_icon status) (play_pause_button w)) w.

(** ** Stepping through a handler *)

(** Setters and projections, and nothing else, reduced. *)
Ltac fields :=
  cbn [at_widget refreshed refreshed_rest refresh_struct refresh_rest revealed
       set_sensitivities
       set_current_player set_heap set_module_data set_in_flight set_sources set_log
       set_revealer set_album_art set_label_box set_previous_button
       set_play_pause_button set_next_button set_destroyed
       with_reveal_child with_shown with_in_destruction with_sensitive with_button_image
       current_player heap module_data in_flight sources log
       revealer album_art label_box previous_button play_pause_button next_button destroyed
       reveal_child halign valign parent shown in_destruction
       button_image sensitive mbind option_bind].
Tactic Notation "fields" "in" hyp(H) :=
  cbn [at_widget refreshed refreshed_rest refresh_struct refresh_rest revealed
       set_sensitivities
       set_current_player set_heap set_module_data set_in_flight set_sources set_log
       set_revealer set_album_art set_label_box set_previous_button
       set_play_pause_button set_next_button set_destroyed
       with_reveal_child with_shown with_in_destruction with_sensitive with_button_image
       current_player heap module_data in_flight sources log
       revealer album_art label_box previous_button play_pause_button next_button destroyed
       reveal_child halign valign parent shown in_destruction
       button_image sensitive mbind option_bind] in H.

Lemma at_widget_id s a w :
  heap s !! a = Some (Allocated w) -> at_widget s a w = s.
Proof.
  intros H. unfold at_widget. rewrite list_insert_id by exact H. by destruct s.
Qed.

Lemma lookup_at_widget s a w :
  a < length (heap s) -> heap (at_widget s a w) !! a = Some (Allocated w).
Proof. intros H. simpl. by apply list_lookup_insert_eq. Qed.

Lemma lookup_at_widget_ne s a b w :
  a <> b -> heap (at_widget s a w) !! b = heap s !! b.
Proof. intros H. simpl. by apply list_lookup_insert_ne. Qed.

Lemma bind_load_at {B} s a w (k : playerctl -> M B) :
  a < length (heap s) ->
  bind (load a) k (at_widget s a w) = k w (at_widget s a w).
Proof.
  intros H. unfold bind, load. by rewrite lookup_at_widget.
Qed.

Lemma store_at s a w w' :
  store a w' (at_widget s a w) = Ok tt (at_widget s a w').
Proof.
  unfold store, modify, at_widget. simpl. by rewrite list_insert_insert_eq.
Qed.

Lemma bind_store_at {B} s a w w' (k : unit -> M B) :
  bind (store a w') k (at_widget s a w) = k tt (at_widget s a w').
Proof. unfold bind. by rewrite store_at. Qed.

Lemma update_at s a w f :
  a < length (heap s) ->
  update a f (at_widget s a w) = Ok tt (at_widget s a (f w)).
Proof.
  intros H. unfold update. rewrite bind_load_at by exact H. apply store_at.
Qed.

Lemma bind_update_at {B} s a w f (k : unit -> M B) :
  a < length (heap s) ->
  bind (update a f) k (at_widget s a w) = k tt (at_widget s a (f w)).
Proof. intros H. unfold bind at 1. by rewrite update_at. Qed.


Lemma setup_playback_at s a w status :
  a < length (heap s) -> destroyed w = false ->
  setup_playback a status (at_widget s a w)
  = Ok tt (at_widget s a
      (set_play_pause_button
         (with_button_image (play_pause_icon status) (play_pause_button w)) w)).
Proof.
  intros Ha Hd. unfold setup_playback.
  rewrite bind_load_at by exact Ha. rewrite Hd. simpl.
  unfold bind at 1. simpl. apply store_at.
Qed.

Lemma gtk_image_set_at s a w i :
  a < length (heap s) -> is_Some (album_art w) ->
  gtk_image_set a i (at_widget s a w) = Ok tt (at_widget s a (set_album_art (Some i) w)).
Proof.
  intros Ha [i0 Hi]. unfold gtk_image_set.
  rewrite bind_load_at by exact Ha. rewrite Hi. apply store_at.
Qed.

Lemma setup_album_art_at s a w :
  a < length (heap s) -> destroyed w = false -> is_Some (album_art w) ->
  setup_album_art a (at_widget s a w)
  = Ok tt (at_widget
      (set_log (log s ++ gtk_image_set_from_icon_name a
                  :: art_calls a (current_player s ≫= art_url))
         (set_in_flight (in_flight s ++ art_fetches a (current_player s ≫= art_url)) s))
      a (set_album_art (Some placeholder) w)).
Proof.
  intros Ha Hd Hi. unfold setup_album_art.
  rewrite bind_load_at by exact Ha. rewrite Hd. simpl.
  unfold bind at 1. simpl. unfold bind at 1. simpl.
  unfold bind at 1.
  change (set_log (log s ++ [gtk_image_set_from_icon_name a]) (at_widget s a w))
    with (at_widget (set_log (log s ++ [gtk_image_set_from_icon_name a]) s) a w).
  rewrite gtk_image_set_at by (simpl; auto).
  unfold bind at 1. simpl.
  unfold art_calls, art_fetches.
  destruct (current_player s ≫= art_url) as [[|c u]|]; simpl.
  - unfold ret, at_widget. simpl. by rewrite app_nil_r.
  - destruct (g_strcmp0_eq "file" (g_uri_peek_scheme (String c u))).
    + unfold bind, tell, start, modify, at_widget. simpl.
      by rewrite <- app_assoc.
    + destruct (g_strcmp0_eq "http" (g_uri_peek_scheme (String c u))
                || g_strcmp0_eq "https" (g_uri_peek_scheme (String c u))).
      * unfold bind, tell, start, modify, at_widget. simpl.
        by rewrite <- app_assoc.
      * unfold tell, modify, at_widget. simpl.
        by rewrite <- app_assoc, app_nil_r.
  - unfold ret, at_widget. simpl. by rewrite app_nil_r.
Qed.


Lemma handler_at s a w p :
  a < length (heap s) -> destroyed w = false -> current_player s = Some p ->
  setup_button_sensitive_handler a (at_widget s a w)
  = Ok G_SOURCE_REMOVE (at_widget s a (set_sensitivities p w)).
Proof.
  intros Ha Hd Hp. unfold setup_button_sensitive_handler.
  unfold bind at 1. simpl. rewrite Hp.
  rewrite bind_load_at by exact Ha. rewrite Hd.
  by rewrite bind_store_at.
Qed.

Lemma setup_button_sensitive_at s a w p :
  a < length (heap s) -> destroyed w = false -> current_player s = Some p ->
  setup_button_sensitive a (at_widget s a w)
  = Ok tt (at_widget
      (set_log (log s ++ [g_timeout_add_seconds 1 a])
         (set_sources (sources s ++ [(1, a)]) s))
      a (set_sensitivities p w)).
Proof.
  intros Ha Hd Hp. unfold setup_button_sensitive.
  unfold bind at 1. simpl. unfold bind at 1. simpl.
  unfold bind at 1.
  change (set_sources _ (set_log _ (at_widget s a w)))
    with (at_widget (set_log (log s ++ [g_timeout_add_seconds 1 a])
                       (set_sources (sources s ++ [(1, a)]) s)) a w).
  by rewrite (handler_at _ a w p).
Qed.

Lemma add_if_nonempty_at s a w value make :
  a < length (heap s) ->
  add_if_nonempty a value make (at_widget s a w)
  = Ok tt (at_widget s a (set_label_box (label_box w ++ labels_for value make) w)).
Proof.
  intros Ha. unfold add_if_nonempty, labels_for.
  destruct value as [[|c v]|]; simpl.
  - rewrite app_nil_r. by destruct w.
  - unfold gtk_container_add_label.
    by rewrite (update_at s a w (fun w => set_label_box (label_box w ++ [make (String c v)]) w)).
  - rewrite app_nil_r. by destruct w.
Qed.

Lemma setup_metadata_at s a w p :
  a < length (heap s) -> usable w -> current_player s = Some p ->
  setup_metadata a (at_widget s a w)
  = Ok tt (at_widget (refreshed_rest p a s) a (refreshed p w)).
Proof.
  intros Ha [Hd Hi] Hp. unfold setup_metadata.
  rewrite bind_load_at by exact Ha. rewrite Hd. simpl.
  unfold bind at 1. simpl. unfold bind at 1. simpl. rewrite Hp.
  unfold bind at 1. rewrite setup_playback_at by auto.
  unfold bind at 1. rewrite setup_album_art_at by auto.
  unfold widget_destroy_each_label. rewrite bind_update_at by (simpl; auto).
  unfold bind at 1. rewrite add_if_nonempty_at by (simpl; auto).
  unfold bind at 1. rewrite add_if_nonempty_at by (simpl; auto).
  unfold bind at 1. rewrite add_if_nonempty_at by (simpl; auto).
  unfold bind at 1.
  rewrite (setup_button_sensitive_at _ a _ p) by (simpl; auto).
  unfold gtk_revealer_set_reveal_child. rewrite bind_update_at by (simpl; auto).
  unfold gtk_widget_show_all. rewrite update_at by (simpl; auto).
  f_equal. destruct s as [cp h md fl src lg]. destruct w as [r i lb b1 b2 b3 d].
  fields. fields in Hp. fields in Hd. subst cp d.
  rewrite <- !app_assoc. reflexivity.
Qed.


Lemma setup_metadata_no_player_at s a w :
  a < length (heap s) -> destroyed w = false -> current_player s = None ->
  setup_metadata a (at_widget s a w)
  = Ok tt (at_widget s a (set_revealer (with_reveal_child false (revealer w)) w)).
Proof.
  intros Ha Hd Hp. unfold setup_metadata.
  rewrite bind_load_at by exact Ha. rewrite Hd. simpl.
  unfold bind at 1. simpl. unfold bind at 1. simpl. rewrite Hp.
  unfold gtk_revealer_set_reveal_child. by rewrite update_at.
Qed.

Lemma lookup_lt_heap s a (c : Cell) : heap s !! a = Some c -> a < length (heap s).
Proof. intros H. by apply lookup_lt_Some in H. Qed.

Lemma setup_metadata_ok s a w :
  heap s !! a = Some (Allocated w) -> usable w ->
  setup_metadata a s
  = Ok tt (at_widget (refresh_rest (current_player s) a s) a
             (refresh_struct (current_player s) w)).
Proof.
  intros Hw Hu. pose proof (lookup_lt_heap _ _ _ Hw) as Ha.
  rewrite <- (at_widget_id s a w Hw) at 1.
  destruct (current_player s) as [p|] eqn:Hp; simpl.
  - by apply setup_metadata_at.
  - apply setup_metadata_no_player_at; auto. by destruct Hu.
Qed.

Lemma usable_refresh_struct player w : usable w -> usable (refresh_struct player w).
Proof.
  intros [Hd Hi]. destruct player; split; fields; eauto.
Qed.

Lemma labels_of_refreshed_value f p w :
  labels_of f (refreshed p w)
  = labels_for (field_value f p) (fun v => mkLabel (field_label_name f) (field_content f v)).
Proof.
  destruct f; unfold labels_of, refreshed, labels_for, field_value; cbn [label_box];
    destruct (title p) as [[|? ?]|], (album p) as [[|? ?]|], (artist p) as [[|? ?]|];
    reflexivity.
Qed.

Lemma refresh_with_at s a w p :
  a < length (heap s) -> usable w ->
  refresh_with p a (at_widget s a w)
  = Ok tt (at_widget (refreshed_rest p a (set_current_player (Some p) s)) a (refreshed p w)).
Proof.
  intros Ha Hu. unfold refresh_with. unfold bind at 1. simpl.
  change (set_current_player (Some p) (at_widget s a w))
    with (at_widget (set_current_player (Some p) s) a w).
  by apply setup_metadata_at.
Qed.

Lemma usable_refreshed p w : usable (refreshed p w).
Proof. split; simpl; eauto. Qed.

(** ** Labels, art, sensitivities and commands *)

(** C4. For a live widget and each of the fields title, album and artist: a
    refresh while the field is empty or absent leaves no label of that field,
    a refresh while it is non-empty leaves exactly one, carrying the value,
    and the refreshes empty, non-empty, empty in a row leave none. *)
Theorem refresh_labels_follow_metadata
    (s : State) (a : addr) (w : playerctl) (f : Field)
    (p_empty p_full p_empty' : PlayerctlPlayer)
    (Hw : heap s !! a = Some (Allocated w)) (Hu : usable w)
    (H1 : nonempty (field_value f p_empty) = false)
    (H2 : nonempty (field_value f p_full) = true)
    (H3 : nonempty (field_value f p_empty') = false) :
  (exists s1 w1, refresh_with p_empty a s = Ok tt s1
     /\ heap s1 !! a = Some (Allocated w1) /\ labels_of f w1 = [])
  /\ (exists s1 w1 v, refresh_with p_full a s = Ok tt s1
     /\ heap s1 !! a = Some (Allocated w1) /\ field_value f p_full = Some v
     /\ labels_of f w1 = [mkLabel (field_label_name f) (field_content f v)])
  /\ (exists s3 w3,
       (refresh_with p_empty a ;;; refresh_with p_full a ;;; refresh_with p_empty' a) s
       = Ok tt s3
     /\ heap s3 !! a = Some (Allocated w3) /\ labels_of f w3 = []).
Proof.
  pose proof (lookup_lt_heap _ _ _ Hw) as Ha.
  assert (Hnone : forall p w0, nonempty (field_value f p) = false ->
                               labels_of f (refreshed p w0) = []).
  { intros p w0 Hn. rewrite labels_of_refreshed_value.
    destruct (field_value f p) as [[|? ?]|]; simpl in *; congruence. }
  rewrite <- (at_widget_id s a w Hw).
  split; [|split].
  - eexists _, _. rewrite refresh_with_at by auto.
    split; [reflexivity|]. split; [by apply lookup_at_widget|]. by apply Hnone.
  - destruct (field_value f p_full) as [[|c v]|] eqn:Hv; simpl in H2; try congruence.
    eexists _, _, _. rewrite refresh_with_at by auto.
    split; [reflexivity|]. split; [by apply lookup_at_widget|].
    split; [reflexivity|]. rewrite labels_of_refreshed_value, Hv. reflexivity.
  - eexists _, _. unfold bind at 1. rewrite refresh_with_at by auto.
    unfold bind at 1. rewrite refresh_with_at by (simpl; auto using usable_refreshed).
    rewrite refresh_with_at by (simpl; auto using usable_refreshed).
    split; [reflexivity|]. split; [by apply lookup_at_widget|]. by apply Hnone.
Qed.


Lemma g_strcmp0_eq_true a b : g_strcmp0_eq a b = true <-> b = Some a.
Proof.
  destruct b as [b|]; simpl.
  - rewrite bool_decide_eq_true. split; congruence.
  - split; discriminate.
Qed.

Lemma g_strcmp0_eq_false a b : g_strcmp0_eq a b = false <-> b <> Some a.
Proof.
  rewrite <- g_strcmp0_eq_true. destruct (g_strcmp0_eq a b); split; congruence.
Qed.

Lemma warnings_app l l' : warnings (l ++ l') = (warnings l ++ warnings l')%list.
Proof. apply omap_app. Qed.

(** C5. The art URI of the tracked player decides what [setup_album_art] does
    on a live widget, after it has put the placeholder icon back: a NULL or
    empty URI starts nothing and warns of nothing; a scheme file, http or
    https starts one asynchronous read for the widget and warns of nothing;
    any other scheme, or none, starts no read and logs one warning. In each
    case the image holds the placeholder when the function returns. *)
Theorem album_art_by_uri
    (s : State) (a : addr) (w : playerctl)
    (Hw : heap s !! a = Some (Allocated w)) (Hu : usable w) :
  exists s', setup_album_art a s = Ok tt s'
    /\ heap s' !! a = Some (Allocated (set_album_art (Some placeholder) w))
    /\ (nonempty (current_player s ≫= art_url) = false ->
          in_flight s' = in_flight s
          /\ log s' = log s ++ [gtk_image_set_from_icon_name a])
    /\ (forall uri, current_player s ≫= art_url = Some uri -> uri <> "" ->
          (g_uri_peek_scheme uri = Some "file" ->
             in_flight s' = in_flight s ++ [file_read uri a]
             /\ warnings (log s') = warnings (log s))
          /\ (g_uri_peek_scheme uri = Some "http" \/ g_uri_peek_scheme uri = Some "https" ->
             in_flight s' = in_flight s ++ [soup_send uri a]
             /\ warnings (log s') = warnings (log s))
          /\ (g_uri_peek_scheme uri <> Some "file" ->
              g_uri_peek_scheme uri <> Some "http" ->
              g_uri_peek_scheme uri <> Some "https" ->
             in_flight s' = in_flight s
             /\ warnings (log s')
                = (warnings (log s)
                   ++ ["Failed loading album art (g_uri_peek_scheme): Unknown scheme"])%list)).
Proof.
  pose proof (lookup_lt_heap _ _ _ Hw) as Ha. destruct Hu as [Hd Hi].
  eexists. rewrite <- (at_widget_id s a w Hw) at 1.
  rewrite setup_album_art_at by auto.
  split; [reflexivity|]. split; [by apply lookup_at_widget|].
  fields. unfold art_fetches, art_calls.
  destruct (current_player s ≫= art_url) as [[|c u]|]; cbn [nonempty]; split.
  - intros _. by rewrite app_nil_r.
  - intros uri [= <-] Hne. congruence.
  - discriminate.
  - intros uri [= <-] _.
    destruct (g_strcmp0_eq "file" (g_uri_peek_scheme (String c u))) eqn:Hf.
    { apply g_strcmp0_eq_true in Hf. rewrite Hf.
      split; [|split]; [intros _ | intros [?|?]; congruence | congruence].
      split; [reflexivity|]. rewrite warnings_app. apply app_nil_r. }
    apply g_strcmp0_eq_false in Hf.
    destruct (g_strcmp0_eq "http" (g_uri_peek_scheme (String c u))) eqn:Hh.
    { apply g_strcmp0_eq_true in Hh. rewrite Hh. cbn [orb].
      split; [|split]; [congruence | intros _ | congruence].
      split; [reflexivity|]. rewrite warnings_app. apply app_nil_r. }
    apply g_strcmp0_eq_false in Hh.
    destruct (g_strcmp0_eq "https" (g_uri_peek_scheme (String c u))) eqn:Hs.
    { apply g_strcmp0_eq_true in Hs. rewrite Hs. cbn [orb].
      split; [|split]; [congruence | intros _ | congruence].
      split; [reflexivity|]. rewrite warnings_app. apply app_nil_r. }
    apply g_strcmp0_eq_false in Hs. cbn [orb].
    split; [|split]; [congruence | intros [?|?]; congruence | intros _ _ _].
    split; [apply app_nil_r|]. rewrite warnings_app. reflexivity.
  - intros _. by rewrite app_nil_r.
  - discriminate.
Qed.


Lemma delete_last_source (l : list (nat * addr)) x : delete (length l) (l ++ [x]) = l.
Proof. induction l as [|y l IH]; simpl; [reflexivity|]. by rewrite IH. Qed.

(** C6. What holds of the button sensitivities: a refresh with a tracked
    player sets them from the player's flags at once and installs a
    one-second timeout for the widget; when that timeout fires the flags the
    player has by then are applied and the source is removed, the handler
    returning G_SOURCE_REMOVE whenever it returns: one later evaluation for
    each refresh, not a recurring one. *)
Theorem sensitivity_now_and_once_after_a_second
    (s : State) (a : addr) (w : playerctl) (p : PlayerctlPlayer)
    (Hw : heap s !! a = Some (Allocated w)) (Hu : usable w)
    (Hp : current_player s = Some p) :
  exists s' w', setup_metadata a s = Ok tt s'
    /\ heap s' !! a = Some (Allocated w') /\ sensitivities_are p w'
    /\ sources s' = sources s ++ [(1, a)]
    /\ (forall p', exists s'' w'',
          dispatch_timeout (length (sources s)) (set_current_player (Some p') s')
          = Ok tt s''
          /\ sources s'' = sources s
          /\ heap s'' !! a = Some (Allocated w'') /\ sensitivities_are p' w'')
    /\ (forall u s0 again s1,
          setup_button_sensitive_handler u s0 = Ok again s1 -> again = G_SOURCE_REMOVE).
Proof.
  pose proof (lookup_lt_heap _ _ _ Hw) as Ha.
  eexists _, _. rewrite (setup_metadata_ok s a w Hw Hu), Hp. fields.
  split; [reflexivity|]. split; [by apply list_lookup_insert_eq|].
  split; [by repeat split|]. split; [reflexivity|]. split.
  - intros p'. eexists _, _. unfold dispatch_timeout.
    unfold bind at 1. unfold gets. fields.
    rewrite lookup_app_r by lia. rewrite Nat.sub_diag. cbn [lookup list_lookup].
    unfold bind at 1.
    change (set_current_player (Some p') (at_widget (refreshed_rest p a s) a (refreshed p w)))
      with (at_widget (set_current_player (Some p') (refreshed_rest p a s)) a (refreshed p w)).
    rewrite (handler_at _ a _ p') by (fields; auto).
    unfold G_SOURCE_REMOVE, modify. fields. rewrite delete_last_source.
    split; [reflexivity|]. fields. split; [reflexivity|].
    split; [by apply list_lookup_insert_eq | by repeat split].
  - intros u s0 again s1. unfold setup_button_sensitive_handler, bind, gets, ret.
    destruct (current_player s0); [|congruence].
    destruct (load u s0) as [w0 s2|]; [|congruence].
    destruct (destroyed w0); [congruence|].
    unfold store, modify. congruence.
Qed.

(** C8 is a defect of the code. A failure of the next or of the
    previous command leaves nothing in the log: the handlers test an error
    variable that the call was never given. play_pause does log its
    failure. None of the three repeats its command. *)
Theorem failed_next_and_previous_are_silent (message : string) (s : State) :
  next (Some message) s
  = Ok tt (set_log (log s ++ [playerctl_player_command cmd_next]) s)
  /\ previous (Some message) s
    = Ok tt (set_log (log s ++ [playerctl_player_command cmd_previous]) s)
  /\ play_pause (Some message) s
    = Ok tt (set_log (log s ++ [playerctl_player_command cmd_play_pause;
                                g_warning ("Failed play_pause: " +:+ message)]) s).
Proof.
  repeat split. unfold play_pause, bind, tell, modify. simpl.
  unfold set_log. simpl. by rewrite <- app_assoc.
Qed.


(** ** What no handler touches *)

Section Frame.

Variables (a : addr) (w : playerctl).
Hypothesis Hd : destroyed w = true.

Lemma keeps_ret {A} (Q : A -> Prop) x : Q x -> keeps a w Q (ret x).
Proof. intros HQ s r s' Hs [= <- <-]. by split. Qed.

Lemma keeps_abort {A} (Q : A -> Prop) e : keeps a w Q (abort e).
Proof. intros s r s' _ H. discriminate. Qed.

Lemma keeps_bind {A B} (R : A -> Prop) (Q : B -> Prop) (m : M A) (k : A -> M B) :
  keeps a w R m -> (forall x, R x -> keeps a w Q (k x)) -> keeps a w Q (bind m k).
Proof.
  intros Hm Hk s r s' Hs. unfold bind.
  destruct (m s) as [x s1|] eqn:E; [|discriminate].
  destruct (Hm s x s1 Hs E) as [H1 HR]. by apply (Hk x HR s1).
Qed.

Lemma keeps_seq {A B} (R : A -> Prop) (Q : B -> Prop) (m : M A) (k : M B) :
  keeps a w R m -> keeps a w Q k -> keeps a w Q (bind m (fun _ => k)).
Proof. intros Hm Hk. apply keeps_bind with (R := R); auto. Qed.

Lemma keeps_any {A} (Q : A -> Prop) (m : M A) : keeps a w Q m -> keeps a w any m.
Proof. intros H s r s' Hs E. by destruct (H s r s' Hs E). Qed.

Lemma keeps_gets_bind {A B} (Q : B -> Prop) (f : State -> A) (k : A -> M B) :
  (forall s, kept a w s -> keeps a w Q (k (f s))) -> keeps a w Q (bind (gets f) k).
Proof. intros H s r s' Hs. unfold bind, gets. by apply H. Qed.

Lemma keeps_modify f :
  (forall s, kept a w s -> kept a w (f s)) -> keeps a w any (modify f).
Proof. intros H s r s' Hs [= _ <-]. split; [by apply H | done]. Qed.

Lemma keeps_tell c : keeps a w any (tell c).
Proof. apply keeps_modify. intros s Hs. exact Hs. Qed.

Lemma keeps_start f : keeps a w any (start f).
Proof. apply keeps_modify. intros s Hs. exact Hs. Qed.

Lemma keeps_g_assert b e : keeps a w any (g_assert b e).
Proof. destruct b; [by apply keeps_ret | apply keeps_abort]. Qed.

Lemma keeps_load_bind {B} (Q : B -> Prop) b (k : playerctl -> M B) :
  (forall w0, (b = a -> w0 = w) -> keeps a w Q (k w0)) ->
  keeps a w Q (bind (load b) k).
Proof.
  intros H s r s' Hs. unfold bind, load.
  destruct (heap s !! b) as [[w0|]|] eqn:E; try discriminate.
  apply H; auto. intros ->. destruct Hs as [Hs _]. congruence.
Qed.

Lemma keeps_store b w' : b <> a -> keeps a w any (store b w').
Proof.
  intros Hb. apply keeps_modify. intros s [H1 H2]. split; [|exact H2].
  cbn [set_heap heap]. by rewrite list_lookup_insert_ne.
Qed.

Lemma keeps_update b f : b <> a -> keeps a w any (update b f).
Proof.
  intros Hb. unfold update. apply keeps_load_bind. intros w0 _. by apply keeps_store.
Qed.

Lemma keeps_module_data_store ctx slot :
  slot <> Some a -> keeps a w any (module_data_store ctx slot).
Proof.
  intros Hslot. apply keeps_modify. intros s [H1 H2]. split; [exact H1|].
  intros win. cbn [set_module_data module_data]. destruct slot as [b|].
  - destruct (decide (ctx = win)) as [->|Hne].
    + by rewrite lookup_insert_eq.
    + by rewrite lookup_insert_ne.
  - destruct (decide (ctx = win)) as [->|Hne].
    + by rewrite lookup_delete_eq.
    + by rewrite lookup_delete_ne.
Qed.

Lemma keeps_reveal b x : b <> a -> keeps a w any (gtk_revealer_set_reveal_child b x).
Proof. intros Hb. by apply keeps_update. Qed.

Lemma keeps_show_all b : b <> a -> keeps a w any (gtk_widget_show_all b).
Proof. intros Hb. by apply keeps_update. Qed.

Lemma keeps_destroy_revealer b : b <> a -> keeps a w any (gtk_widget_destroy_revealer b).
Proof.
  intros Hb. unfold gtk_widget_destroy_revealer. apply keeps_load_bind. intros w0 _.
  eapply keeps_seq; [apply keeps_tell | by apply keeps_store].
Qed.

Lemma keeps_image_set b i : b <> a -> keeps a w any (gtk_image_set b i).
Proof.
  intros Hb. unfold gtk_image_set. apply keeps_load_bind. intros w0 _.
  destruct (album_art w0); [by apply keeps_store | apply keeps_abort].
Qed.

Lemma keeps_set_art_from_stream stream u : keeps a w any (set_art_from_stream stream u).
Proof.
  unfold set_art_from_stream. apply keeps_load_bind. intros w0 Hw0.
  destruct (decide (u = a)) as [Hu|Hu].
  - rewrite (Hw0 Hu), Hd. by apply keeps_ret.
  - destruct (destroyed w0); [by apply keeps_ret|].
    destruct (gdk_pixbuf_new_from_stream_at_scale stream (-1) art_size).
    + apply keeps_tell.
    + eapply keeps_seq; [apply keeps_tell | by apply keeps_image_set].
Qed.

Lemma keeps_file_callback res u : keeps a w any (file_callback res u).
Proof.
  unfold file_callback. destruct res; [apply keeps_tell | apply keeps_set_art_from_stream].
Qed.

Lemma keeps_request_callback res u : keeps a w any (request_callback res u).
Proof.
  unfold request_callback.
  destruct res; [apply keeps_tell | apply keeps_set_art_from_stream].
Qed.

Lemma keeps_setup_album_art b : b <> a -> keeps a w any (setup_album_art b).
Proof.
  intros Hb. unfold setup_album_art. apply keeps_load_bind. intros w0 _.
  eapply keeps_seq; [apply keeps_g_assert|].
  eapply keeps_seq; [apply keeps_tell|].
  eapply keeps_seq; [by apply keeps_image_set|].
  apply keeps_gets_bind. intros s _.
  destruct (current_player s ≫= art_url) as [[|c u]|]; try by apply keeps_ret.
  destruct (g_strcmp0_eq "file" _).
  { eapply keeps_seq; [apply keeps_tell | apply keeps_start]. }
  destruct (_ || _).
  { eapply keeps_seq; [apply keeps_tell | apply keeps_start]. }
  apply keeps_tell.
Qed.

Lemma keeps_setup_playback b status : b <> a -> keeps a w any (setup_playback b status).
Proof.
  intros Hb. unfold setup_playback. apply keeps_load_bind. intros w0 _.
  eapply keeps_seq; [apply keeps_g_assert | by apply keeps_store].
Qed.

Lemma keeps_handler u : keeps a w any (setup_button_sensitive_handler u).
Proof.
  unfold setup_button_sensitive_handler. apply keeps_gets_bind. intros s _.
  destruct (current_player s); [|by apply keeps_ret].
  apply keeps_load_bind. intros w0 Hw0.
  destruct (decide (u = a)) as [Hu|Hu].
  - rewrite (Hw0 Hu), Hd. by apply keeps_ret.
  - destruct (destroyed w0); [by apply keeps_ret|].
    eapply keeps_seq; [by apply keeps_store | by apply keeps_ret].
Qed.

Lemma keeps_setup_button_sensitive u : keeps a w any (setup_button_sensitive u).
Proof.
  unfold setup_button_sensitive.
  eapply keeps_seq; [apply keeps_tell|].
  eapply keeps_seq; [apply keeps_modify; intros s Hs; exact Hs|].
  eapply keeps_seq; [apply keeps_handler | by apply keeps_ret].
Qed.

Lemma keeps_add_if_nonempty b value make :
  b <> a -> keeps a w any (add_if_nonempty b value make).
Proof.
  intros Hb. unfold add_if_nonempty.
  destruct value as [[|c v]|]; try by apply keeps_ret.
  by apply keeps_update.
Qed.

Lemma keeps_setup_metadata b : b <> a -> keeps a w any (setup_metadata b).
Proof.
  intros Hb. unfold setup_metadata. apply keeps_load_bind. intros w0 _.
  eapply keeps_seq; [apply keeps_g_assert|].
  apply keeps_gets_bind. intros s _.
  destruct (current_player s) as [p|]; [|by apply keeps_reveal].
  eapply keeps_seq; [by apply keeps_setup_playback|].
  eapply keeps_seq; [by apply keeps_setup_album_art|].
  eapply keeps_seq; [by apply keeps_update|].
  eapply keeps_seq; [by apply keeps_add_if_nonempty|].
  eapply keeps_seq; [by apply keeps_add_if_nonempty|].
  eapply keeps_seq; [by apply keeps_add_if_nonempty|].
  eapply keeps_seq; [apply keeps_setup_button_sensitive|].
  eapply keeps_seq; [by apply keeps_reveal | by apply keeps_show_all].
Qed.

Lemma kept_slot s win b : kept a w s -> module_data s !! win = Some b -> b <> a.
Proof. intros [_ H] Hb ->. by apply (H win). Qed.

Lemma kept_fresh s : kept a w s -> length (heap s) <> a.
Proof. intros [H _] E. apply lookup_lt_Some in H. lia. Qed.

Lemma keeps_setup_playerctl ctx : keeps a w (fun r => r <> a) (setup_playerctl ctx).
Proof.
  unfold setup_playerctl, module_data_from_window.
  apply keeps_gets_bind. intros s Hs.
  destruct (module_data s !! ctx) as [b|] eqn:Hb.
  { apply keeps_ret. by eapply kept_slot. }
  apply keeps_gets_bind. intros s1 Hs1. pose proof (kept_fresh s1 Hs1) as Hn.
  eapply keeps_seq; [apply keeps_tell|].
  eapply keeps_seq.
  { destruct unknown_position; [apply keeps_tell | by apply (keeps_ret any)]. }
  eapply keeps_seq.
  { apply keeps_modify. intros s2 [H1 H2]. split; [|exact H2].
    cbn [set_heap heap]. rewrite lookup_app_l; [exact H1|]. by apply lookup_lt_Some in H1. }
  eapply keeps_seq; [by apply keeps_setup_metadata|].
  eapply keeps_seq; [apply keeps_module_data_store; congruence|].
  by apply keeps_ret.
Qed.

Lemma keeps_handle e : keeps a w any (handle e).
Proof.
  destruct e as [name|g|g|p|g|status g|g win old|ctx|g|g|c outcome|i res|i]; cbn [handle].
  - unfold name_appeared. apply keeps_gets_bind. intros s _.
    destruct (current_player s); [by apply keeps_ret|].
    eapply keeps_seq; [apply keeps_modify; intros s0 Hs0; exact Hs0 | apply keeps_tell].
  - unfold player_appeared. eapply keeps_seq with (R := any).
    + destruct (focused_window g); [|by apply keeps_ret].
      eapply keeps_seq; [apply keeps_setup_playerctl | by apply keeps_ret].
    + eapply keeps_seq; apply keeps_tell.
  - unfold player_vanished.
    eapply keeps_seq; [apply keeps_modify; intros s0 Hs0; exact Hs0|].
    destruct (focused_window g) as [win|]; [|by apply keeps_ret].
    unfold module_data_from_window. apply keeps_gets_bind. intros s Hs.
    destruct (module_data s !! win) as [b|] eqn:Hb; [|by apply keeps_ret].
    pose proof (kept_slot s win b Hs Hb) as Hne.
    eapply keeps_seq; [by apply keeps_destroy_revealer|].
    eapply keeps_seq; [apply keeps_tell|].
    eapply keeps_seq; [by apply keeps_update|].
    by apply keeps_module_data_store.
  - apply keeps_modify. intros s Hs. by destruct (current_player s).
  - unfold metadata. destruct (focused_window g) as [win|]; [|by apply keeps_ret].
    unfold module_data_from_window. apply keeps_gets_bind. intros s Hs.
    destruct (module_data s !! win) as [b|] eqn:Hb.
    + apply keeps_setup_metadata. by eapply kept_slot.
    + eapply keeps_seq; [apply keeps_setup_playerctl | by apply keeps_ret].
  - unfold playback_status. destruct (focused_window g) as [win|]; [|by apply keeps_ret].
    unfold module_data_from_window. apply keeps_gets_bind. intros s Hs.
    apply keeps_bind with (R := fun r => r <> a).
    + destruct (module_data s !! win) as [b|] eqn:Hb; [|apply keeps_setup_playerctl].
      pose proof (kept_slot s win b Hs Hb) as Hne.
      eapply keeps_seq; [by apply keeps_setup_metadata | by apply keeps_ret].
    + intros b Hne. by apply keeps_setup_playback.
  - unfold on_focus_change, module_data_from_window.
    apply keeps_gets_bind. intros s Hs.
    apply keeps_bind with (R := fun r => r <> a).
    + destruct (module_data s !! win) as [b|] eqn:Hb; [|apply keeps_setup_playerctl].
      pose proof (kept_slot s win b Hs Hb) as Hne.
      eapply keeps_seq; [by apply keeps_setup_metadata | by apply keeps_ret].
    + intros b Hne. eapply keeps_seq; [by apply keeps_reveal|].
      destruct old as [o|]; [|by apply keeps_ret].
      destruct (bool_decide (win ≠ o)); [|by apply keeps_ret].
      apply keeps_gets_bind. intros s1 Hs1.
      destruct (module_data s1 !! o) as [c|] eqn:Hc; [|apply keeps_abort].
      apply keeps_reveal. by eapply kept_slot.
  - unfold on_window_destroy, module_data_from_window.
    apply keeps_gets_bind. intros s Hs.
    destruct (module_data s !! ctx) as [b|] eqn:Hb; [|by apply keeps_ret].
    pose proof (kept_slot s ctx b Hs Hb) as Hne.
    eapply keeps_seq; [by apply keeps_destroy_revealer|].
    eapply keeps_seq; [apply keeps_tell|].
    eapply keeps_seq.
    { apply keeps_modify. intros s2 [H1 H2]. split; [|exact H2].
      cbn [set_heap heap]. by rewrite list_lookup_insert_ne. }
    by apply keeps_module_data_store.
  - unfold on_idle_hide. destruct (focused_window g) as [win|]; [|by apply keeps_ret].
    unfold module_data_from_window. apply keeps_gets_bind. intros s Hs.
    destruct (module_data s !! win) as [b|] eqn:Hb; [|by apply keeps_ret].
    apply keeps_reveal. by eapply kept_slot.
  - unfold on_idle_show. destruct (focused_window g) as [win|]; [|by apply keeps_ret].
    unfold module_data_from_window. apply keeps_gets_bind. intros s Hs.
    destruct (module_data s !! win) as [b|] eqn:Hb; [|by apply keeps_ret].
    apply keeps_reveal. by eapply kept_slot.
  - destruct c; unfold play_pause, next, previous;
      (eapply keeps_seq; [apply keeps_tell|]);
      destruct (reported _ outcome); (apply keeps_tell || by apply keeps_ret).
  - unfold complete. apply keeps_gets_bind. intros s Hs.
    destruct (in_flight s !! i) as [f|]; [|by apply keeps_ret].
    eapply keeps_seq; [apply keeps_modify; intros s0 Hs0; exact Hs0|].
    destruct f; [apply keeps_file_callback | apply keeps_request_callback].
  - unfold dispatch_timeout. apply keeps_gets_bind. intros s Hs.
    destruct (sources s !! i) as [[n u]|]; [|by apply keeps_ret].
    eapply keeps_bind; [apply keeps_handler|]. intros again _.
    destruct again; [by apply keeps_ret|].
    apply keeps_modify. intros s0 Hs0. exact Hs0.
Qed.

Lemma keeps_run events : keeps a w any (run events).
Proof.
  induction events as [|e events IH]; cbn [run].
  - by apply keeps_ret.
  - eapply keeps_seq; [apply keeps_handle | exact IH].
Qed.

End Frame.

(** ** What a handler changes of a struct *)

Lemma local_ret {A} b (x : A) : local b (ret x).
Proof. intros s r s' [= _ <-]. repeat split; eauto. Qed.

Lemma local_abort {A} b e : local b (@abort A e).
Proof. intros s r s' H. discriminate. Qed.

Lemma local_bind {A B} b (m : M A) (k : A -> M B) :
  local b m -> (forall x, local b (k x)) -> local b (bind m k).
Proof.
  intros Hm Hk s r s'. unfold bind.
  destruct (m s) as [x s1|] eqn:E; [|discriminate]. intros H.
  destruct (Hm s x s1 E) as (M1 & H1 & U1).
  destruct (Hk x s1 r s' H) as (M2 & H2 & U2).
  split; [congruence|]. split.
  - intros c Hc. rewrite H2 by exact Hc. by apply H1.
  - intros w Hw Hu. destruct (U1 w Hw Hu) as (w1 & Hw1 & Hu1). by apply (U2 w1).
Qed.

Lemma local_seq {A B} b (m : M A) (k : M B) :
  local b m -> local b k -> local b (bind m (fun _ => k)).
Proof. intros Hm Hk. apply local_bind; auto. Qed.

Lemma local_gets_bind {A B} b (f : State -> A) (k : A -> M B) :
  (forall x, local b (k x)) -> local b (bind (gets f) k).
Proof. intros H s r s'. unfold bind, gets. apply H. Qed.

Lemma local_load_bind {B} b c (k : playerctl -> M B) :
  (forall w0, local b (k w0)) -> local b (bind (load c) k).
Proof.
  intros H s r s' Hrun.
  assert (Hk : exists w0, k w0 s = Ok r s').
  { revert Hrun. unfold bind, load.
    destruct (heap s !! c) as [[w0|]|]; try discriminate. eauto. }
  destruct Hk as [w0 Hk]. exact (H w0 s r s' Hk).
Qed.

Lemma local_modify b f :
  (forall s, heap (f s) = heap s) -> (forall s, module_data (f s) = module_data s) ->
  local b (modify f).
Proof.
  intros Hh Hm s r s' [= _ <-]. rewrite Hh, Hm. repeat split; eauto.
Qed.

Lemma local_tell b c : local b (tell c).
Proof. by apply local_modify. Qed.

Lemma local_g_assert b x e : local b (g_assert x e).
Proof. destruct x; [apply local_ret | apply local_abort]. Qed.

(** The struct behind [b] is read, and what is stored back is usable if
    what was read is. *)
Lemma local_load_store {A} b (f : playerctl -> playerctl) (pre : playerctl -> M A) :
  (forall w, usable w -> usable (f w)) ->
  (forall w s r s', pre w s = Ok r s' -> heap s' = heap s /\ module_data s' = module_data s) ->
  local b (let* w := load b in pre w ;;; store b (f w)).
Proof.
  intros Hf Hpre s r s' Hrun.
  assert (Hcase : exists w0 x s1, heap s !! b = Some (Allocated w0)
            /\ pre w0 s = Ok x s1
            /\ s' = set_heap (<[b := Allocated (f w0)]> (heap s1)) s1).
  { revert Hrun. unfold bind at 1. unfold load.
    destruct (heap s !! b) as [[w0|]|]; try discriminate.
    unfold bind. destruct (pre w0 s) as [x s1|] eqn:Ep; [|discriminate].
    unfold store, modify. intros [= _ <-]. by exists w0, x, s1. }
  destruct Hcase as (w0 & x & s1 & E & Ep & ->).
  destruct (Hpre w0 s x s1 Ep) as [Hh Hm].
  cbn [set_heap heap module_data]. rewrite Hh, Hm. split; [reflexivity|]. split.
  - intros c Hc. by rewrite list_lookup_insert_ne.
  - intros w Hw Hu. rewrite E in Hw. injection Hw as <-.
    exists (f w0). split; [|by apply Hf].
    apply list_lookup_insert_eq. by apply lookup_lt_Some in E.
Qed.

Lemma local_update b f :
  (forall w, usable w -> usable (f w)) -> local b (update b f).
Proof.
  intros Hf s r s' H. apply (local_load_store b f (fun _ => ret tt) Hf) with (r := r).
  - intros w s0 r0 s0' [= _ <-]. by split.
  - exact H.
Qed.

Lemma usable_set_revealer r w : usable w -> usable (set_revealer r w).
Proof. intros [H1 H2]. by split. Qed.

Lemma usable_set_album_art i w : usable w -> usable (set_album_art (Some i) w).
Proof. intros [H1 H2]. split; [exact H1 | by eexists]. Qed.

Lemma usable_set_label_box l w : usable w -> usable (set_label_box l w).
Proof. intros [H1 H2]. by split. Qed.

Lemma usable_set_play_pause_button x w : usable w -> usable (set_play_pause_button x w).
Proof. intros [H1 H2]. by split. Qed.

Lemma usable_set_sensitivities p w : usable w -> usable (set_sensitivities p w).
Proof. intros [H1 H2]. by split. Qed.

Lemma local_reveal b x : local b (gtk_revealer_set_reveal_child b x).
Proof. apply local_update. intros w. apply usable_set_revealer. Qed.

Lemma local_show_all b : local b (gtk_widget_show_all b).
Proof. apply local_update. intros w. apply usable_set_revealer. Qed.

Lemma local_image_set b i : local b (gtk_image_set b i).
Proof.
  intros s r s' Hrun.
  assert (Hcase : exists w0, heap s !! b = Some (Allocated w0)
            /\ s' = set_heap (<[b := Allocated (set_album_art (Some i) w0)]> (heap s)) s).
  { revert Hrun. unfold gtk_image_set, bind, load.
    destruct (heap s !! b) as [[w0|]|]; try discriminate.
    destruct (album_art w0); [|discriminate].
    unfold store, modify. intros [= _ <-]. by eexists. }
  destruct Hcase as (w0 & E & ->).
  cbn [set_heap heap module_data]. split; [reflexivity|]. split.
  - intros c Hc. by rewrite list_lookup_insert_ne.
  - intros w Hw Hu. rewrite E in Hw. injection Hw as <-. eexists. split.
    + apply list_lookup_insert_eq. by apply lookup_lt_Some in E.
    + by apply usable_set_album_art.
Qed.

Lemma local_set_art_from_stream stream u : local u (set_art_from_stream stream u).
Proof.
  unfold set_art_from_stream. apply local_load_bind. intros w0.
  destruct (destroyed w0); [apply local_ret|].
  destruct (gdk_pixbuf_new_from_stream_at_scale stream (-1) art_size).
  - apply local_tell.
  - apply local_seq; [apply local_tell | apply local_image_set].
Qed.

Lemma local_file_callback res u : local u (file_callback res u).
Proof.
  unfold file_callback. destruct res; [apply local_tell | apply local_set_art_from_stream].
Qed.

Lemma local_request_callback res u : local u (request_callback res u).
Proof.
  unfold request_callback.
  destruct res; [apply local_tell | apply local_set_art_from_stream].
Qed.

Lemma local_setup_playback b status : local b (setup_playback b status).
Proof.
  unfold setup_playback.
  apply (local_load_store b
           (fun w => set_play_pause_button
                       (with_button_image
                          match status with
                          | PLAYERCTL_PLAYBACK_STATUS_PLAYING => "media-playback-pause-symbolic"
                          | _ => "media-playback-start-symbolic"
                          end (play_pause_button w)) w)
           (fun w => g_assert (negb (destroyed w)) "!widget->destroyed")).
  - intros w. apply usable_set_play_pause_button.
  - intros w s r s'. unfold g_assert. destruct (negb (destroyed w)); [|discriminate].
    intros [= _ <-]. by split.
Qed.

Lemma local_setup_album_art b : local b (setup_album_art b).
Proof.
  unfold setup_album_art. apply local_load_bind. intros w0.
  apply local_seq; [apply local_g_assert|].
  apply local_seq; [apply local_tell|].
  apply local_seq; [apply local_image_set|].
  apply local_gets_bind. intros player.
  destruct (player ≫= art_url) as [[|c u]|]; try apply local_ret.
  destruct (g_strcmp0_eq "file" _).
  { apply local_seq; [apply local_tell | by apply local_modify]. }
  destruct (_ || _).
  { apply local_seq; [apply local_tell | by apply local_modify]. }
  apply local_tell.
Qed.

Lemma local_handler u : local u (setup_button_sensitive_handler u).
Proof.
  unfold setup_button_sensitive_handler. apply local_gets_bind. intros player.
  destruct player as [p|]; [|apply local_ret].
  intros s r s' Hrun.
  assert (Hcases : s' = s
            \/ exists w0, heap s !! u = Some (Allocated w0)
                 /\ s' = set_heap (<[u := Allocated (set_sensitivities p w0)]> (heap s)) s).
  { revert Hrun. unfold bind, load.
    destruct (heap s !! u) as [[w0|]|]; try discriminate.
    destruct (destroyed w0).
    - intros [= _ <-]. by left.
    - unfold store, modify, ret. intros [= _ <-]. right. by eexists. }
  destruct Hcases as [->|(w0 & E & ->)].
  { repeat split; eauto. }
  cbn [set_heap heap module_data]. split; [reflexivity|]. split.
  - intros c Hc. by rewrite list_lookup_insert_ne.
  - intros w Hw Hu. rewrite E in Hw. injection Hw as <-. eexists. split.
    + apply list_lookup_insert_eq. by apply lookup_lt_Some in E.
    + by apply usable_set_sensitivities.
Qed.

Lemma local_setup_button_sensitive u : local u (setup_button_sensitive u).
Proof.
  unfold setup_button_sensitive.
  apply local_seq; [apply local_tell|].
  apply local_seq; [by apply local_modify|].
  apply local_seq; [apply local_handler | apply local_ret].
Qed.

Lemma local_add_if_nonempty b value make : local b (add_if_nonempty b value make).
Proof.
  unfold add_if_nonempty. destruct value as [[|c v]|]; try apply local_ret.
  apply local_update. intros w. apply usable_set_label_box.
Qed.

Lemma local_setup_metadata b : local b (setup_metadata b).
Proof.
  unfold setup_metadata. apply local_load_bind. intros w0.
  apply local_seq; [apply local_g_assert|].
  apply local_gets_bind. intros player.
  destruct player as [p|]; [|apply local_reveal].
  apply local_seq; [apply local_setup_playback|].
  apply local_seq; [apply local_setup_album_art|].
  apply local_seq; [apply local_update; intros w; apply usable_set_label_box|].
  apply local_seq; [apply local_add_if_nonempty|].
  apply local_seq; [apply local_add_if_nonempty|].
  apply local_seq; [apply local_add_if_nonempty|].
  apply local_seq; [apply local_setup_button_sensitive|].
  apply local_seq; [apply local_reveal | apply local_show_all].
Qed.

Lemma local_wf {A} b (m : M A) s r s' :
  local b m -> wf s -> m s = Ok r s' -> wf s'.
Proof.
  intros Hl [Hslots Hinj] Hrun. destruct (Hl s r s' Hrun) as (Hm & Hh & Hu).
  split.
  - intros win c Hc. rewrite Hm in Hc. destruct (Hslots win c Hc) as (w & Hw & Huw).
    destruct (decide (c = b)) as [->|Hne].
    + by apply (Hu w).
    + exists w. split; [|exact Huw]. by rewrite Hh.
  - intros win1 win2 c. rewrite Hm. apply Hinj.
Qed.

(** ** The player vanishes; the tracker *)

Lemma set_art_from_stream_destroyed s a w stream :
  heap s !! a = Some (Allocated w) -> destroyed w = true ->
  set_art_from_stream stream a s = Ok tt s.
Proof.
  intros Hw Hd. unfold set_art_from_stream, bind, load. by rewrite Hw, Hd.
Qed.

Lemma callbacks_destroyed s a w res :
  heap s !! a = Some (Allocated w) -> destroyed w = true ->
  (exists s', file_callback res a s = Ok tt s' /\ heap s' = heap s)
  /\ (exists s', request_callback res a s = Ok tt s' /\ heap s' = heap s).
Proof.
  intros Hw Hd. unfold file_callback, request_callback.
  destruct res as [message|stream].
  - split; eexists; split; reflexivity.
  - rewrite (set_art_from_stream_destroyed s a w stream Hw Hd). by split; eexists.
Qed.

Lemma player_vanished_focused s g win a w :
  focused_window g = Some win -> module_data s !! win = Some a ->
  heap s !! a = Some (Allocated w) ->
  player_vanished g s
  = Ok tt (set_module_data (delete win (module_data s))
             (at_widget
                (set_log (log s ++ [gtk_widget_destroy a; store_destroyed a])
                   (set_current_player None s))
                a (set_destroyed true
                     (set_revealer (with_in_destruction true (revealer w)) w)))).
Proof.
  intros Hf Hs Hw. pose proof (lookup_lt_heap _ _ _ Hw) as Ha.
  unfold player_vanished. unfold bind at 1. unfold modify at 1. rewrite Hf.
  unfold bind at 1. unfold module_data_from_window, gets. fields. rewrite Hs.
  unfold gtk_widget_destroy_revealer.
  rewrite <- (at_widget_id (set_current_player None s) a w Hw) at 1.
  unfold bind at 1. rewrite bind_load_at by (fields; auto).
  unfold bind at 1. unfold tell at 1, modify at 1.
  change (set_log ?l (at_widget ?s0 a w)) with (at_widget (set_log l s0) a w).
  rewrite store_at.
  unfold bind at 1. unfold tell at 1, modify at 1.
  change (set_log ?l (at_widget ?s0 a ?w0)) with (at_widget (set_log l s0) a w0).
  rewrite bind_update_at by (fields; auto).
  unfold module_data_store, modify. fields.
  rewrite <- app_assoc. reflexivity.
Qed.

Lemma completion_does_nothing_destroyed s a w :
  heap s !! a = Some (Allocated w) -> destroyed w = true ->
  completion_does_nothing a s.
Proof.
  intros Hw Hd. split; [|split; [|split]].
  - intros stream. by eapply set_art_from_stream_destroyed.
  - intros res. by eapply callbacks_destroyed.
  - intros res. by eapply callbacks_destroyed.
  - intros i f res Hi Hu. unfold complete. unfold bind at 1. unfold gets. rewrite Hi.
    unfold bind at 1. unfold modify.
    set (s1 := set_in_flight _ _).
    assert (Hw1 : heap s1 !! a = Some (Allocated w)) by exact Hw.
    destruct f as [uri b|uri b]; cbn [user_data_of] in Hu; subst b.
    + destruct (callbacks_destroyed s1 a w res Hw1 Hd) as [[s2 [-> H2]] _].
      by eexists.
    + destruct (callbacks_destroyed s1 a w res Hw1 Hd) as [_ [s2 [-> H2]]].
      by eexists.
Qed.

(** C1, as the code has it. When the player vanishes and the focused
    window has a widget (a struct of that window alone), the handler tears
    the revealer down and then stores destroyed = TRUE, in that order and
    before it returns. From then on, whatever events the module handles in
    between, the struct stays as the handler left it, and a completion of an
    art read for it changes no struct: with a stream it returns at the flag
    and leaves the state as it is, with an error it only logs. *)
Theorem vanish_marks_destroyed_and_completions_do_nothing
    (s : State) (g : GtkLock) (win : Window) (a : addr) (w : playerctl)
    (Hf : focused_window g = Some win)
    (Hs : module_data s !! win = Some a)
    (Hone : forall win', module_data s !! win' = Some a -> win' = win)
    (Hw : heap s !! a = Some (Allocated w)) :
  exists s' w', player_vanished g s = Ok tt s'
    /\ log s' = log s ++ [gtk_widget_destroy a; store_destroyed a]
    /\ heap s' !! a = Some (Allocated w')
    /\ destroyed w' = true /\ in_destruction (revealer w') = true
    /\ completion_does_nothing a s'
    /\ (forall events s'', run events s' = Ok tt s'' ->
          heap s'' !! a = Some (Allocated w') /\ completion_does_nothing a s'').
Proof.
  pose proof (lookup_lt_heap _ _ _ Hw) as Ha.
  eexists _, _. rewrite (player_vanished_focused s g win a w Hf Hs Hw).
  split; [reflexivity|]. split; [reflexivity|].
  split; [by apply list_lookup_insert_eq|].
  split; [reflexivity|]. split; [reflexivity|].
  set (w' := set_destroyed true _). set (s' := set_module_data _ _).
  assert (Hw' : heap s' !! a = Some (Allocated w')) by (by apply list_lookup_insert_eq).
  split; [by apply (completion_does_nothing_destroyed s' a w')|].
  intros events s'' Hrun.
  assert (Hkept : kept a w' s').
  { split; [exact Hw'|]. intros win'. subst s'. cbn [set_module_data module_data].
    destruct (decide (win = win')) as [<-|Hne].
    - by rewrite lookup_delete_eq.
    - rewrite lookup_delete_ne by exact Hne. intros Hwin'. apply Hone in Hwin'. congruence. }
  destruct (keeps_run a w' eq_refl events s' tt s'' Hkept Hrun) as [[Hw'' _] _].
  split; [exact Hw''|]. by apply (completion_does_nothing_destroyed s'' a w').
Qed.

(** C2. The tracker. From NoPlayer: activation with no enumerated name, or
    with a manager that could not be made, stays in NoPlayer; activation
    with an enumerated first name and a name-appeared event both track the
    player made from the name. From HasPlayer: a name-appeared event changes
    nothing at all, and the player-vanished event ends in NoPlayer. *)
Theorem tracker_state_machine
    (s0 s1 : State) (g : GtkLock) (name : PlayerctlPlayerName)
    (others : list PlayerctlPlayerName) (p q : PlayerctlPlayer) (message : string)
    (H0 : session s0 = NoPlayer) (H1 : session s1 = HasPlayer q)
    (Hnew : playerctl_player_new_from_name name = Some p)
    (Hslots : valid_slots s1) :
  (exists s', on_activation (inr []) s0 = Ok tt s' /\ session s' = NoPlayer)
  /\ (exists s', on_activation (inl message) s0 = Ok tt s' /\ session s' = NoPlayer)
  /\ (exists s', on_activation (inr (name :: others)) s0 = Ok tt s'
                 /\ session s' = HasPlayer p)
  /\ (exists s', name_appeared name s0 = Ok tt s' /\ session s' = HasPlayer p)
  /\ (forall name', name_appeared name' s1 = Ok tt s1)
  /\ (exists s', player_vanished g s1 = Ok tt s' /\ session s' = NoPlayer).
Proof.
  unfold session in *.
  destruct (current_player s0) eqn:E0; [discriminate|].
  destruct (current_player s1) eqn:E1; [|discriminate].
  repeat split.
  - eexists. split; [reflexivity|]. simpl. by rewrite E0.
  - eexists. split; [reflexivity|]. simpl. by rewrite E0.
  - eexists. split; [reflexivity|]. simpl. by rewrite Hnew.
  - eexists. unfold name_appeared, bind, gets. rewrite E0. simpl.
    split; [reflexivity|]. simpl. by rewrite Hnew.
  - intros name'. unfold name_appeared, bind, gets. by rewrite E1.
  - destruct (focused_window g) as [win|] eqn:Hf.
    + destruct (module_data s1 !! win) as [a|] eqn:Hs.
      * destruct (Hslots win a Hs) as [w Hw].
        eexists. rewrite (player_vanished_focused s1 g win a w Hf Hs Hw).
        split; reflexivity.
      * eexists. unfold player_vanished, bind, modify. simpl. rewrite Hf.
        unfold module_data_from_window, gets. simpl. rewrite Hs.
        split; reflexivity.
    + eexists. unfold player_vanished, bind, modify. simpl. rewrite Hf.
      split; reflexivity.
Qed.


(** ** Building a widget *)

Lemma heap_refresh_rest player a s : heap (refresh_rest player a s) = heap s.
Proof. by destruct player. Qed.

Lemma module_data_refresh_rest player a s :
  module_data (refresh_rest player a s) = module_data s.
Proof. by destruct player. Qed.

Lemma reveal_ok s a w b :
  heap s !! a = Some (Allocated w) ->
  gtk_revealer_set_reveal_child a b s = Ok tt (at_widget s a (revealed b w)).
Proof.
  intros Hw. pose proof (lookup_lt_heap _ _ _ Hw) as Ha.
  rewrite <- (at_widget_id s a w Hw) at 1.
  unfold gtk_revealer_set_reveal_child. by rewrite update_at.
Qed.

Lemma usable_new_playerctl : art_size <> 0%Z -> usable new_playerctl.
Proof.
  intros H. split; [reflexivity|]. unfold new_playerctl. simpl.
  rewrite bool_decide_eq_false_2 by exact H. by eexists.
Qed.

Lemma setup_playerctl_existing s ctx a :
  module_data s !! ctx = Some a -> setup_playerctl ctx s = Ok a s.
Proof. intros H. unfold setup_playerctl, bind, module_data_from_window, gets. by rewrite H. Qed.

Lemma setup_playerctl_fresh s ctx :
  module_data s !! ctx = None -> art_size <> 0%Z ->
  setup_playerctl ctx s
  = Ok (length (heap s))
      (set_module_data (<[ctx := length (heap s)]> (module_data s))
         (at_widget (refresh_rest (current_player s) (length (heap s)) (built s))
            (length (heap s)) (refresh_struct (current_player s) new_playerctl))).
Proof.
  intros Hs Hart. unfold setup_playerctl.
  unfold bind at 1. unfold module_data_from_window, gets at 1. rewrite Hs.
  unfold bind at 1. unfold gets at 1.
  unfold bind at 1. unfold tell at 1, modify at 1.
  unfold bind at 1.
  assert (Hpos :
    (if unknown_position then tell (g_warning "playerctl: Unknown position") else ret tt)
      (set_log (log s ++ [g_malloc (length (heap s))]) s)
    = Ok tt (set_log (log s ++ g_malloc (length (heap s))
                        :: (if unknown_position
                            then [g_warning "playerctl: Unknown position"] else []))
               s)).
  { destruct unknown_position; unfold tell, modify, ret; fields;
      [by rewrite <- app_assoc | reflexivity]. }
  rewrite Hpos. unfold bind at 1. unfold modify at 1.
  change (set_heap _ _) with (built s).
  assert (Hl : heap (built s) !! length (heap s) = Some (Allocated new_playerctl)).
  { unfold built. fields. rewrite lookup_app_r by lia. by rewrite Nat.sub_diag. }
  unfold bind at 1.
  rewrite (setup_metadata_ok (built s) _ _ Hl (usable_new_playerctl Hart)).
  unfold bind, module_data_store, modify, ret.
  change (current_player (built s)) with (current_player s).
  by destruct (current_player s).
Qed.

(** ** Every handler keeps the state well-formed *)

Lemma keeps_wf_local {A} b (m : M A) : local b m -> keeps_wf m.
Proof. intros Hl s r s' Hwf Hrun. by eapply local_wf. Qed.

Lemma keeps_wf_bind {A B} (m : M A) (k : A -> M B) :
  keeps_wf m -> (forall x, keeps_wf (k x)) -> keeps_wf (bind m k).
Proof.
  intros Hm Hk s r s' Hwf. unfold bind.
  destruct (m s) as [x s1|] eqn:E; [|discriminate].
  apply (Hk x). by apply (Hm s x s1).
Qed.

Lemma keeps_wf_seq {A B} (m : M A) (k : M B) :
  keeps_wf m -> keeps_wf k -> keeps_wf (bind m (fun _ => k)).
Proof. intros Hm Hk. apply keeps_wf_bind; auto. Qed.

Lemma keeps_wf_slot_bind {B} win (k : option addr -> M B) :
  (forall s, wf s -> keeps_wf (k (module_data s !! win))) ->
  keeps_wf (bind (module_data_from_window win) k).
Proof.
  intros H s r s' Hwf. unfold bind, module_data_from_window, gets. by apply H.
Qed.

Lemma keeps_wf_ret {A} (x : A) : keeps_wf (ret x).
Proof. apply (keeps_wf_local 0), local_ret. Qed.

Lemma keeps_wf_tell c : keeps_wf (tell c).
Proof. apply (keeps_wf_local 0), local_tell. Qed.

Lemma wf_slot_lt s win b : wf s -> module_data s !! win = Some b -> b < length (heap s).
Proof.
  intros [Hslots _] Hb. destruct (Hslots win b Hb) as (w & Hw & _).
  by apply lookup_lt_Some in Hw.
Qed.

Lemma keeps_wf_setup_playerctl ctx : art_size <> 0%Z -> keeps_wf (setup_playerctl ctx).
Proof.
  intros Hart s r s' Hwf.
  destruct (module_data s !! ctx) as [b|] eqn:Hb.
  { rewrite (setup_playerctl_existing s ctx b Hb). by intros [= _ <-]. }
  rewrite (setup_playerctl_fresh s ctx Hb Hart). intros [= _ <-].
  destruct Hwf as [Hslots Hinj]. split.
  - intros win b. cbn [set_module_data module_data at_widget set_heap heap].
    rewrite heap_refresh_rest. cbn [built set_heap heap].
    destruct (decide (ctx = win)) as [<-|Hne].
    + rewrite lookup_insert_eq. intros [= <-]. eexists. split.
      * apply list_lookup_insert_eq. rewrite length_app. cbn [length]. lia.
      * apply usable_refresh_struct. by apply usable_new_playerctl.
    + rewrite lookup_insert_ne by exact Hne. intros Hwin.
      destruct (Hslots win b Hwin) as (w & Hw & Hu). exists w. split; [|exact Hu].
      pose proof (lookup_lt_Some _ _ _ Hw) as Hlt.
      rewrite list_lookup_insert_ne by lia. by rewrite lookup_app_l.
  - intros win1 win2 b. cbn [set_module_data module_data at_widget].
    destruct (decide (ctx = win1)) as [<-|Hne1], (decide (ctx = win2)) as [<-|Hne2];
      try done.
    + rewrite lookup_insert_eq, lookup_insert_ne by exact Hne2. intros [= <-] H2.
      assert (Hlt : length (heap s) < length (heap s)); [|lia].
      destruct (Hslots win2 _ H2) as (w & Hw & _). by apply lookup_lt_Some in Hw.
    + rewrite lookup_insert_eq, lookup_insert_ne by exact Hne1. intros H1 [= <-].
      assert (Hlt : length (heap s) < length (heap s)); [|lia].
      destruct (Hslots win1 _ H1) as (w & Hw & _). by apply lookup_lt_Some in Hw.
    + rewrite !lookup_insert_ne by done. apply Hinj.
Qed.

Lemma keeps_wf_player_vanished g : keeps_wf (player_vanished g).
Proof.
  intros s r s' Hwf.
  destruct (focused_window g) as [win|] eqn:Hf.
  - destruct (module_data s !! win) as [b|] eqn:Hb.
    + destruct Hwf as [Hslots Hinj]. destruct (Hslots win b Hb) as (w & Hw & Hu).
      rewrite (player_vanished_focused s g win b w Hf Hb Hw). intros [= _ <-]. split.
      * intros win' c. cbn [set_module_data module_data at_widget set_heap heap
                            set_log set_current_player].
        destruct (decide (win = win')) as [<-|Hne].
        { by rewrite lookup_delete_eq. }
        rewrite lookup_delete_ne by exact Hne. intros Hc.
        destruct (Hslots win' c Hc) as (w' & Hw' & Hu'). exists w'. split; [|exact Hu'].
        rewrite list_lookup_insert_ne; [exact Hw'|].
        intros ->. apply Hne. by apply (Hinj win win' c).
      * intros win1 win2 c. cbn [set_module_data module_data at_widget].
        intros H1 H2. apply lookup_delete_Some in H1 as [_ H1].
        apply lookup_delete_Some in H2 as [_ H2]. by apply (Hinj win1 win2 c).
    + unfold player_vanished, bind, modify, module_data_from_window, gets.
      rewrite Hf. cbn [set_current_player module_data]. rewrite Hb.
      intros [= _ <-]. exact Hwf.
  - unfold player_vanished, bind, modify. rewrite Hf. intros [= _ <-]. exact Hwf.
Qed.

Lemma on_window_destroy_slot s ctx b w :
  module_data s !! ctx = Some b -> heap s !! b = Some (Allocated w) ->
  on_window_destroy ctx s
  = Ok tt (mkState (current_player s) (<[b := Freed]> (heap s))
             (delete ctx (module_data s)) (in_flight s) (sources s)
             (log s ++ [gtk_widget_destroy b; g_free b])).
Proof.
  intros Hb Hw. unfold on_window_destroy, bind, module_data_from_window, gets.
  rewrite Hb. unfold gtk_widget_destroy_revealer, bind, load. rewrite Hw.
  unfold tell, store, modify, module_data_store. fields.
  rewrite list_insert_insert_eq, <- app_assoc. reflexivity.
Qed.

Lemma keeps_wf_on_window_destroy ctx : keeps_wf (on_window_destroy ctx).
Proof.
  intros s r s' Hwf.
  destruct (module_data s !! ctx) as [b|] eqn:Hb.
  - destruct Hwf as [Hslots Hinj]. destruct (Hslots ctx b Hb) as (w & Hw & Hu).
    rewrite (on_window_destroy_slot s ctx b w Hb Hw). intros [= _ <-]. split.
    + intros win' c. cbn [module_data heap].
      destruct (decide (ctx = win')) as [<-|Hne].
      { by rewrite lookup_delete_eq. }
      rewrite lookup_delete_ne by exact Hne. intros Hc.
      destruct (Hslots win' c Hc) as (w' & Hw' & Hu'). exists w'. split; [|exact Hu'].
      rewrite list_lookup_insert_ne; [exact Hw'|].
      intros ->. apply Hne. by apply (Hinj ctx win' c).
    + intros win1 win2 c. cbn [module_data].
      intros H1 H2. apply lookup_delete_Some in H1 as [_ H1].
      apply lookup_delete_Some in H2 as [_ H2]. by apply (Hinj win1 win2 c).
  - unfold on_window_destroy, bind, module_data_from_window, gets. rewrite Hb.
    intros [= _ <-]. exact Hwf.
Qed.

(** Every event leaves a well-formed state well-formed, when art is enabled. *)
Lemma keeps_wf_handle e : art_size <> 0%Z -> keeps_wf (handle e).
Proof.
  intros Hart.
  destruct e as [name|g|g|p|g|status g|g win old|ctx|g|g|c outcome|i res|i]; cbn [handle].
  - apply (keeps_wf_local 0). unfold name_appeared. apply local_gets_bind. intros player.
    destruct player; [apply local_ret|].
    apply local_seq; [by apply local_modify | apply local_tell].
  - unfold player_appeared. apply keeps_wf_seq.
    + destruct (focused_window g); [|apply keeps_wf_ret].
      apply keeps_wf_seq; [by apply keeps_wf_setup_playerctl | apply keeps_wf_ret].
    + apply keeps_wf_seq; apply keeps_wf_tell.
  - apply keeps_wf_player_vanished.
  - apply (keeps_wf_local 0). intros s r s' [= _ <-]. destruct (current_player s);
      repeat split; eauto.
  - unfold metadata. destruct (focused_window g) as [win|]; [|apply keeps_wf_ret].
    apply keeps_wf_slot_bind. intros s _.
    destruct (module_data s !! win) as [b|].
    + apply (keeps_wf_local b), local_setup_metadata.
    + apply keeps_wf_seq; [by apply keeps_wf_setup_playerctl | apply keeps_wf_ret].
  - unfold playback_status. destruct (focused_window g) as [win|]; [|apply keeps_wf_ret].
    apply keeps_wf_slot_bind. intros s _. apply keeps_wf_bind.
    + destruct (module_data s !! win) as [b|]; [|by apply keeps_wf_setup_playerctl].
      apply keeps_wf_seq; [apply (keeps_wf_local b), local_setup_metadata | apply keeps_wf_ret].
    + intros b. apply (keeps_wf_local b), local_setup_playback.
  - unfold on_focus_change. apply keeps_wf_slot_bind. intros s _. apply keeps_wf_bind.
    + destruct (module_data s !! win) as [b|]; [|by apply keeps_wf_setup_playerctl].
      apply keeps_wf_seq; [apply (keeps_wf_local b), local_setup_metadata | apply keeps_wf_ret].
    + intros b. apply keeps_wf_seq; [apply (keeps_wf_local b), local_reveal|].
      destruct old as [o|]; [|apply keeps_wf_ret].
      destruct (bool_decide (win ≠ o)); [|apply keeps_wf_ret].
      apply keeps_wf_slot_bind. intros s1 _.
      destruct (module_data s1 !! o) as [c|].
      * apply (keeps_wf_local c), local_reveal.
      * apply (keeps_wf_local 0), local_abort.
  - apply keeps_wf_on_window_destroy.
  - unfold on_idle_hide. destruct (focused_window g) as [win|]; [|apply keeps_wf_ret].
    apply keeps_wf_slot_bind. intros s _.
    destruct (module_data s !! win) as [b|]; [|apply keeps_wf_ret].
    apply (keeps_wf_local b), local_reveal.
  - unfold on_idle_show. destruct (focused_window g) as [win|]; [|apply keeps_wf_ret].
    apply keeps_wf_slot_bind. intros s _.
    destruct (module_data s !! win) as [b|]; [|apply keeps_wf_ret].
    apply (keeps_wf_local b), local_reveal.
  - apply (keeps_wf_local 0).
    destruct c; unfold play_pause, next, previous;
      (apply local_seq; [apply local_tell|]);
      destruct (reported _ outcome); (apply local_tell || apply local_ret).
  - unfold complete. intros s r s' Hwf. unfold bind at 1. unfold gets.
    destruct (in_flight s !! i) as [f|]; [|by intros [= _ <-]].
    apply (keeps_wf_local (user_data_of f)); [|exact Hwf].
    apply local_seq; [by apply local_modify|].
    destruct f; [apply local_file_callback | apply local_request_callback].
  - unfold dispatch_timeout. intros s r s' Hwf. unfold bind at 1. unfold gets.
    destruct (sources s !! i) as [[n u]|]; [|by intros [= _ <-]].
    apply (keeps_wf_local u); [|exact Hwf].
    apply local_bind; [apply local_handler|]. intros again.
    destruct again; [apply local_ret | by apply local_modify].
Qed.

(** From the load-time state, through activation and any events, the state
    stays well-formed as long as the module returns. *)
Lemma wf_initial : wf initial.
Proof. split; intros *; cbn [initial module_data]; by rewrite lookup_empty. Qed.

Lemma keeps_wf_on_activation manager : keeps_wf (on_activation manager).
Proof.
  apply (keeps_wf_local 0). unfold on_activation.
  apply local_seq; [|apply local_tell].
  destruct manager as [message|names]; [apply local_tell|].
  apply local_seq; [apply local_tell|].
  apply local_seq; [apply local_tell|].
  apply local_seq; [|apply local_tell].
  destruct names; [apply local_ret|].
  apply local_seq; [by apply local_modify | apply local_tell].
Qed.

Lemma keeps_wf_run events : art_size <> 0%Z -> keeps_wf (run events).
Proof.
  intros Hart. induction events as [|e events IH]; cbn [run].
  - apply keeps_wf_ret.
  - apply keeps_wf_seq; [by apply keeps_wf_handle | exact IH].
Qed.

Lemma wf_reachable manager events s1 s2 :
  art_size <> 0%Z ->
  on_activation manager initial = Ok tt s1 -> run events s1 = Ok tt s2 -> wf s2.
Proof.
  intros Hart H1 H2. apply (keeps_wf_run events Hart s1 tt s2); [|exact H2].
  by apply (keeps_wf_on_activation manager initial tt s1 wf_initial).
Qed.

(** ** The focus changes *)

Lemma on_focus_change_split gtklock win old :
  on_focus_change gtklock win old
  = (let* slot := module_data_from_window win in
     let* widget := match slot with
                    | Some widget => setup_metadata widget ;;; ret widget
                    | None => setup_playerctl win
                    end in
     focus_rest gtklock win old widget).
Proof. reflexivity. Qed.

Lemma focus_first s win :
  art_size <> 0%Z ->
  (forall a, module_data s !! win = Some a ->
     exists w, heap s !! a = Some (Allocated w) /\ usable w) ->
  exists a w0 s1,
    (forall B (k : addr -> M B),
       (let* slot := module_data_from_window win in
        let* widget := match slot with
                       | Some widget => setup_metadata widget ;;; ret widget
                       | None => setup_playerctl win
                       end in
        k widget) s = k a s1)
    /\ focus_origin s win a w0
    /\ heap s1 !! a = Some (Allocated (refresh_struct (current_player s) w0))
    /\ module_data s1 !! win = Some a
    /\ (forall b, b <> a -> b < length (heap s) -> heap s1 !! b = heap s !! b)
    /\ (forall o, o <> win -> module_data s1 !! o = module_data s !! o).
Proof.
  intros Hart Hwin. destruct (module_data s !! win) as [a|] eqn:Hs.
  - destruct (Hwin a eq_refl) as [w [Hw Hu]].
    pose proof (lookup_lt_heap _ _ _ Hw) as Ha.
    exists a, w, (at_widget (refresh_rest (current_player s) a s) a
                    (refresh_struct (current_player s) w)).
    split; [|split; [|split; [|split; [|split]]]].
    + intros B k. unfold bind at 1. unfold module_data_from_window, gets. rewrite Hs.
      unfold bind. by rewrite (setup_metadata_ok s a w Hw Hu).
    + left. by split.
    + apply lookup_at_widget. by rewrite heap_refresh_rest.
    + simpl. by rewrite module_data_refresh_rest.
    + intros b Hb _. rewrite lookup_at_widget_ne by auto. by rewrite heap_refresh_rest.
    + intros o _. simpl. by rewrite module_data_refresh_rest.
  - exists (length (heap s)), new_playerctl.
    eexists. split; [|split; [|split; [|split; [|split]]]].
    + intros B k. unfold bind at 1. unfold module_data_from_window, gets. rewrite Hs.
      unfold bind. by rewrite (setup_playerctl_fresh s win Hs Hart).
    + right. by repeat split.
    + simpl. rewrite heap_refresh_rest. simpl.
      apply list_lookup_insert_eq. rewrite length_app. simpl. lia.
    + simpl. by rewrite lookup_insert_eq.
    + intros b Hb Hlt. simpl. rewrite heap_refresh_rest. simpl.
      rewrite list_lookup_insert_ne by auto. by rewrite lookup_app_l.
    + intros o Ho. simpl. by rewrite lookup_insert_ne.
Qed.

Lemma focus_rest_no_other s a w g win old :
  heap s !! a = Some (Allocated w) ->
  (forall o, old = Some o -> o = win) ->
  focus_rest g win old a s
  = Ok tt (at_widget s a (revealed (negb (hidden g) || show_hidden) w)).
Proof.
  intros Hw Ho. unfold focus_rest, bind. rewrite (reveal_ok s a w _ Hw).
  destruct old as [o|]; [|reflexivity].
  rewrite (Ho o eq_refl). rewrite bool_decide_eq_false_2; [reflexivity|]. auto.
Qed.

Lemma focus_rest_other s a w g win o b wb :
  heap s !! a = Some (Allocated w) -> o <> win ->
  module_data s !! o = Some b -> heap s !! b = Some (Allocated wb) -> b <> a ->
  focus_rest g win (Some o) a s
  = Ok tt (at_widget (at_widget s a (revealed (negb (hidden g) || show_hidden) w))
             b (revealed false wb)).
Proof.
  intros Hw Ho Hs Hb Hne. unfold focus_rest. unfold bind at 1.
  rewrite (reveal_ok s a w _ Hw).
  rewrite bool_decide_eq_true_2 by auto.
  unfold bind, module_data_from_window, gets. simpl. rewrite Hs.
  apply reveal_ok. by rewrite lookup_at_widget_ne.
Qed.


(** X23. With art enabled, a focus change to [win] whose slot, if set,
    holds a usable widget, away from an [old] that, if it is another window,
    has a widget of its own: [win] ends with a widget, the one it had or a
    new one; that widget is refreshed and its reveal is then set to
    !hidden || show_hidden; the other window's struct differs from what it
    was in nothing but reveal-child, which is FALSE, and stays in its
    slot. *)
Theorem focus_change_refreshes_new_and_hides_old
    (s : State) (g : GtkLock) (win : Window) (old : option Window)
    (Hart : art_size <> 0%Z)
    (Hwin : forall a, module_data s !! win = Some a ->
              exists w, heap s !! a = Some (Allocated w) /\ usable w)
    (Hold : forall o, old = Some o -> o <> win ->
              exists b wb, module_data s !! o = Some b
                /\ heap s !! b = Some (Allocated wb)
                /\ module_data s !! win <> Some b) :
  exists s' a w0, on_focus_change g win old s = Ok tt s'
    /\ focus_origin s win a w0
    /\ module_data s' !! win = Some a
    /\ heap s' !! a
       = Some (Allocated (revealed (negb (hidden g) || show_hidden)
                            (refresh_struct (current_player s) w0)))
    /\ (forall o b wb, old = Some o -> o <> win ->
          module_data s !! o = Some b -> heap s !! b = Some (Allocated wb) ->
          module_data s' !! o = Some b
          /\ heap s' !! b = Some (Allocated (revealed false wb))).
Proof.
  destruct (focus_first s win Hart Hwin) as (a & w0 & s1 & Hk & Horig & Ha & Hsl & Hheap & Hmd).
  rewrite on_focus_change_split, Hk.
  pose proof (lookup_lt_heap _ _ _ Ha) as Hlt.
  assert (Hcase : (exists o, old = Some o /\ o <> win)
                  \/ (forall o, old = Some o -> o = win)).
  { destruct old as [o|]; [|right; discriminate].
    destruct (decide (o = win)) as [->|Ho]; [right; congruence | left; eauto]. }
  destruct Hcase as [(o & -> & Ho)|Hno].
  - destruct (Hold o eq_refl Ho) as (b & wb & Hb & Hwb & Hnb).
    pose proof (lookup_lt_heap _ _ _ Hwb) as Hblt.
    assert (Hba : b <> a).
    { destruct Horig as [[H1 _]|(_ & -> & _)]; [congruence|lia]. }
    exists (at_widget (at_widget s1 a (revealed (negb (hidden g) || show_hidden)
                                        (refresh_struct (current_player s) w0)))
              b (revealed false wb)), a, w0.
    split.
    { apply focus_rest_other; auto.
      - by rewrite Hmd.
      - by rewrite Hheap. }
    split; [exact Horig|]. split; [exact Hsl|]. split.
    { rewrite lookup_at_widget_ne by auto. by apply lookup_at_widget. }
    intros o' b' wb' [= <-] _ Hb' Hwb'.
    rewrite Hb in Hb'. injection Hb' as <-.
    rewrite Hwb in Hwb'. injection Hwb' as <-.
    split; [simpl; by rewrite Hmd|].
    apply lookup_at_widget. simpl. rewrite length_insert.
    apply lookup_lt_heap with (c := Allocated wb). by rewrite Hheap.
  - exists (at_widget s1 a (revealed (negb (hidden g) || show_hidden)
                              (refresh_struct (current_player s) w0))), a, w0.
    split.
    { by apply focus_rest_no_other. }
    split; [exact Horig|]. split; [exact Hsl|]. split; [by apply lookup_at_widget|].
    intros o b wb Ho Hn. by apply Hno in Ho.
Qed.


(** ** Further properties of the handlers *)

(** X1. What setup_playerctl returns is what the window's slot holds from
    then on: a further call returns the same struct and changes nothing.
    The call touches no other window's slot and no struct other than the one
    it returns. *)
Theorem ensure_returns_the_stored_widget
    (s s' : State) (ctx : Window) (a : addr)
    (Hrun : setup_playerctl ctx s = Ok a s') :
  module_data s' !! ctx = Some a
  /\ setup_playerctl ctx s' = Ok a s'
  /\ (forall win, win <> ctx -> module_data s' !! win = module_data s !! win)
  /\ (forall b, b <> a -> heap s' !! b = heap s !! b).
Proof.
  destruct (module_data s !! ctx) as [b|] eqn:Hslot.
  { rewrite (setup_playerctl_existing s ctx b Hslot) in Hrun. injection Hrun as <- <-.
    split; [exact Hslot|]. split; [by apply setup_playerctl_existing|]. by split. }
  assert (Hmid : exists s2 s3,
            heap s2 = heap s ++ [Allocated new_playerctl]
            /\ module_data s2 = module_data s
            /\ setup_metadata (length (heap s)) s2 = Ok tt s3
            /\ a = length (heap s)
            /\ s' = set_module_data (<[ctx := length (heap s)]> (module_data s3)) s3).
  { revert Hrun. unfold setup_playerctl, module_data_from_window.
    unfold bind at 1. unfold gets at 1. rewrite Hslot.
    unfold bind at 1. unfold gets at 1.
    unfold bind at 1. unfold tell at 1, modify at 1.
    unfold bind at 1.
    destruct unknown_position.
    - unfold tell at 1, modify at 1. unfold bind at 1. unfold modify at 1.
      unfold bind at 1.
      destruct (setup_metadata (length (heap s)) _) as [[] s3|] eqn:E; [|discriminate].
      unfold bind, module_data_store, modify, ret. intros [= <- <-].
      eexists _, s3. split; [|split; [|split; [exact E|split; reflexivity]]]; reflexivity.
    - unfold ret at 1. unfold bind at 1. unfold modify at 1.
      unfold bind at 1.
      destruct (setup_metadata (length (heap s)) _) as [[] s3|] eqn:E; [|discriminate].
      unfold bind, module_data_store, modify, ret. intros [= <- <-].
      eexists _, s3. split; [|split; [|split; [exact E|split; reflexivity]]]; reflexivity. }
  destruct Hmid as (s2 & s3 & Hh2 & Hm2 & Hmeta & -> & ->).
  destruct (local_setup_metadata _ s2 tt s3 Hmeta) as (Hm3 & Hh3 & _).
  cbn [set_module_data module_data heap].
  split; [by rewrite lookup_insert_eq|]. split.
  { apply setup_playerctl_existing. cbn [set_module_data module_data].
    by rewrite lookup_insert_eq. }
  split.
  - intros win Hne. rewrite lookup_insert_ne by congruence. by rewrite Hm3, Hm2.
  - intros b Hne. rewrite Hh3 by exact Hne. rewrite Hh2.
    destruct (decide (b < length (heap s))) as [Hlt|Hge].
    + by rewrite lookup_app_l.
    + rewrite !lookup_ge_None_2; [reflexivity | lia | rewrite length_app; cbn [length]; lia].
Qed.

(** X2. A refresh while no player is tracked only hides the revealer: the
    labels, the image and the buttons stay as they were, no read and no
    timeout is started and nothing is logged. *)
Theorem refresh_without_player_only_hides
    (s : State) (a : addr) (w : playerctl)
    (Hw : heap s !! a = Some (Allocated w))
    (Hd : destroyed w = false)
    (Hp : current_player s = None) :
  setup_metadata a s = Ok tt (at_widget s a (revealed false w)).
Proof.
  pose proof (lookup_lt_heap _ _ _ Hw) as Ha.
  rewrite <- (at_widget_id s a w Hw) at 1.
  by apply setup_metadata_no_player_at.
Qed.

(** X3. Two refreshes in a row with the same tracked player leave the struct
    the first one left, but each starts its own read of the art and its own
    one-second timeout: nothing is cancelled and nothing is merged. *)
Theorem refresh_twice_repeats_the_pending_work
    (s : State) (a : addr) (w : playerctl) (p : PlayerctlPlayer)
    (Hw : heap s !! a = Some (Allocated w)) (Hu : usable w)
    (Hp : current_player s = Some p) :
  exists s1 s2, setup_metadata a s = Ok tt s1 /\ setup_metadata a s1 = Ok tt s2
    /\ heap s2 = heap s1
    /\ heap s2 !! a = Some (Allocated (refreshed p w))
    /\ in_flight s2
       = in_flight s ++ art_fetches a (art_url p) ++ art_fetches a (art_url p)
    /\ sources s2 = sources s ++ [(1, a); (1, a)].
Proof.
  pose proof (lookup_lt_heap _ _ _ Hw) as Ha.
  eexists _, _. rewrite <- (at_widget_id s a w Hw) at 1.
  rewrite (setup_metadata_at s a w p Ha Hu Hp).
  split; [reflexivity|].
  rewrite (setup_metadata_at (refreshed_rest p a s) a (refreshed p w) p)
    by (fields; auto using usable_refreshed).
  split; [reflexivity|]. fields.
  change (refreshed p (refreshed p w)) with (refreshed p w).
  split; [reflexivity|].
  split; [by apply list_lookup_insert_eq|].
  split; by rewrite <- app_assoc.
Qed.

Lemma set_art_image_at s a w id :
  a < length (heap s) -> usable w ->
  set_art_from_stream (stream_image id) a (at_widget s a w)
  = Ok tt (at_widget (set_log (log s ++ [gtk_image_set_from_pixbuf a]) s) a
             (set_album_art (Some (image_pixbuf (mkPixbuf id (-1) art_size))) w)).
Proof.
  intros Ha [Hd Hi]. unfold set_art_from_stream.
  rewrite bind_load_at by exact Ha. rewrite Hd.
  cbn [gdk_pixbuf_new_from_stream_at_scale]. unfold bind, tell, modify.
  change (set_log ?l (at_widget ?s0 a w)) with (at_widget (set_log l s0) a w).
  by apply gtk_image_set_at.
Qed.

(** X4. What a completion of an art read does to a live widget that has its
    image. A failed read and a stream that does not decode each log one
    warning and leave every struct as it is, so the image stays; a stream
    that decodes is scaled to the art size in height and becomes the image,
    with no warning. *)
Theorem art_completion_outcomes
    (s : State) (a : addr) (w : playerctl) (message : string) (id : nat)
    (Hw : heap s !! a = Some (Allocated w)) (Hu : usable w) :
  file_callback (inl message) a s
  = Ok tt (set_log (log s ++ [g_warning
             ("Failed loading album art (g_file_read_finish): " +:+ message)]) s)
  /\ request_callback (inl message) a s
    = Ok tt (set_log (log s ++ [g_warning
               ("Failed loading album art (soup_request_send_finish): " +:+ message)]) s)
  /\ set_art_from_stream (stream_corrupt message) a s
    = Ok tt (set_log (log s ++ [g_warning
               ("Failed loading album art (gdk_pixbuf_new_from_stream_at_scale): "
                +:+ message)]) s)
  /\ set_art_from_stream (stream_image id) a s
    = Ok tt (at_widget (set_log (log s ++ [gtk_image_set_from_pixbuf a]) s) a
               (set_album_art (Some (image_pixbuf (mkPixbuf id (-1) art_size))) w)).
Proof.
  pose proof (lookup_lt_heap _ _ _ Hw) as Ha. destruct Hu as [Hd Hi].
  split; [reflexivity|]. split; [reflexivity|].
  unfold set_art_from_stream, bind, load. rewrite Hw, Hd.
  split; [reflexivity|].
  cbn [gdk_pixbuf_new_from_stream_at_scale]. unfold tell, modify.
  set (s1 := set_log (log s ++ [gtk_image_set_from_pixbuf a]) s).
  rewrite <- (at_widget_id s1 a w Hw) at 1.
  by apply gtk_image_set_at.
Qed.

(** X5. A read that was started earlier and completes later replaces the
    image of a read that was started after it: of two reads in flight for
    one widget, the one delivered last gives the image, and both leave the
    list of reads in flight. *)
Theorem last_delivered_completion_gives_the_image
    (s : State) (a : addr) (w : playerctl) (f0 f1 : Fetch) (rest : list Fetch)
    (id0 id1 : nat)
    (Hw : heap s !! a = Some (Allocated w)) (Hu : usable w)
    (Hfl : in_flight s = f0 :: f1 :: rest)
    (H0 : user_data_of f0 = a) (H1 : user_data_of f1 = a) :
  exists s', (complete 1 (inr (stream_image id1)) ;;;
              complete 0 (inr (stream_image id0))) s = Ok tt s'
    /\ in_flight s' = rest
    /\ heap s' !! a
       = Some (Allocated
                 (set_album_art (Some (image_pixbuf (mkPixbuf id0 (-1) art_size))) w)).
Proof.
  pose proof (lookup_lt_heap _ _ _ Hw) as Ha.
  assert (Hcb : forall f id s0 w0, user_data_of f = a -> a < length (heap s0) -> usable w0 ->
            match f with
            | file_read _ u => file_callback (inr (stream_image id)) u
            | soup_send _ u => request_callback (inr (stream_image id)) u
            end (at_widget s0 a w0)
            = Ok tt (at_widget (set_log (log s0 ++ [gtk_image_set_from_pixbuf a]) s0) a
                       (set_album_art
                          (Some (image_pixbuf (mkPixbuf id (-1) art_size))) w0))).
  { intros f id s0 w0 Hf Hlt Hu0.
    destruct f as [uri u|uri u]; cbn [user_data_of] in Hf; subst u;
      by apply set_art_image_at. }
  eexists. rewrite <- (at_widget_id s a w Hw) at 1.
  unfold complete. unfold bind at 1. unfold bind at 1. unfold gets at 1.
  fields. rewrite Hfl. cbn [lookup list_lookup].
  unfold bind at 1. unfold modify at 1.
  change (set_in_flight ?l (at_widget ?s0 a w)) with (at_widget (set_in_flight l s0) a w).
  rewrite (Hcb f1 id1) by (fields; auto).
  unfold bind at 1. unfold gets at 1. fields. rewrite Hfl.
  cbn [delete list_delete lookup list_lookup].
  unfold bind at 1. unfold modify at 1.
  change (set_in_flight ?l (at_widget ?s0 a ?w0)) with (at_widget (set_in_flight l s0) a w0).
  rewrite (Hcb f0 id0) by (fields; auto using usable_set_album_art).
  split; [reflexivity|]. fields. split; [reflexivity|].
  by apply list_lookup_insert_eq.
Qed.

(** X6. Idle hide and idle show act on the reveal of the focused window's
    widget and on nothing else: hide sets it to show_hidden, show sets it to
    TRUE, whether or not a player is tracked; hide followed by show leaves
    the widget revealed. *)
Theorem idle_hide_and_show_set_the_reveal
    (s : State) (g : GtkLock) (win : Window) (a : addr) (w : playerctl)
    (Hf : focused_window g = Some win)
    (Hs : module_data s !! win = Some a)
    (Hw : heap s !! a = Some (Allocated w)) :
  on_idle_hide g s = Ok tt (at_widget s a (revealed show_hidden w))
  /\ on_idle_show g s = Ok tt (at_widget s a (revealed true w))
  /\ (on_idle_hide g ;;; on_idle_show g) s = Ok tt (at_widget s a (revealed true w)).
Proof.
  pose proof (lookup_lt_heap _ _ _ Hw) as Ha.
  assert (Hhide : on_idle_hide g s = Ok tt (at_widget s a (revealed show_hidden w))).
  { unfold on_idle_hide, bind, module_data_from_window, gets. rewrite Hf, Hs.
    by apply reveal_ok. }
  split; [exact Hhide|]. split.
  - unfold on_idle_show, bind, module_data_from_window, gets. rewrite Hf, Hs.
    by apply reveal_ok.
  - unfold bind at 1. rewrite Hhide.
    unfold on_idle_show, bind, module_data_from_window, gets. rewrite Hf.
    fields. rewrite Hs.
    rewrite (reveal_ok _ a (revealed show_hidden w) true) by (by apply lookup_at_widget).
    f_equal. unfold at_widget. fields. by rewrite list_insert_insert_eq.
Qed.

(** X7. Idle hide and idle show do nothing when there is no focused window
    or the focused window has no widget. *)
Theorem idle_without_widget_does_nothing
    (s : State) (g : GtkLock)
    (Hnone : forall win, focused_window g = Some win -> module_data s !! win = None) :
  on_idle_hide g s = Ok tt s /\ on_idle_show g s = Ok tt s.
Proof.
  unfold on_idle_hide, on_idle_show, bind, module_data_from_window, gets.
  destruct (focused_window g) as [win|]; [|by split].
  by rewrite (Hnone win eq_refl).
Qed.

(** X8. Without a focused window the player's notifications reach no
    widget: metadata and playback-status leave the state as it is, and
    player-appeared only connects the two signals of the player. *)
Theorem notifications_without_focused_window
    (s : State) (g : GtkLock) (status : PlayerctlPlaybackStatus)
    (Hf : focused_window g = None) :
  metadata g s = Ok tt s
  /\ playback_status status g s = Ok tt s
  /\ player_appeared g s
    = Ok tt (set_log (log s ++ [g_signal_connect sig_metadata;
                                g_signal_connect sig_playback_status]) s).
Proof.
  unfold metadata, playback_status, player_appeared. rewrite Hf.
  split; [reflexivity|]. split; [reflexivity|].
  unfold bind, ret, tell, modify. fields. by rewrite <- app_assoc.
Qed.

(** X9. The playback-status handler refreshes the focused window's widget
    and then sets the play/pause image from the status the signal carries,
    not from the player's property: the image is the pause icon exactly when
    the signalled status is Playing, and the rest of the struct is as the
    refresh left it. *)
Theorem playback_status_icon_follows_the_signal
    (s : State) (g : GtkLock) (status : PlayerctlPlaybackStatus)
    (win : Window) (a : addr) (w : playerctl)
    (Hf : focused_window g = Some win)
    (Hs : module_data s !! win = Some a)
    (Hw : heap s !! a = Some (Allocated w)) (Hu : usable w) :
  playback_status status g s
  = Ok tt (at_widget (refresh_rest (current_player s) a s) a
             (with_status_icon status (refresh_struct (current_player s) w))).
Proof.
  pose proof (lookup_lt_heap _ _ _ Hw) as Ha.
  unfold playback_status. rewrite Hf.
  unfold bind at 1. unfold module_data_from_window, gets. rewrite Hs.
  unfold bind at 1. unfold bind at 1.
  rewrite (setup_metadata_ok s a w Hw Hu). unfold ret.
  apply setup_playback_at.
  - by rewrite heap_refresh_rest.
  - by destruct (usable_refresh_struct (current_player s) w Hu).
Qed.

(** X10. Destroying a window that has a widget tears the revealer down,
    frees the struct and clears the slot, in that order, and leaves the
    player, the other slots and the other structs as they are; a second
    destroy of the window finds no widget and does nothing. *)
Theorem window_destroy_frees_once
    (s : State) (ctx : Window) (a : addr) (w : playerctl)
    (Hs : module_data s !! ctx = Some a)
    (Hw : heap s !! a = Some (Allocated w)) :
  exists s', on_window_destroy ctx s = Ok tt s'
    /\ module_data s' = delete ctx (module_data s)
    /\ heap s' = <[a := Freed]> (heap s)
    /\ log s' = log s ++ [gtk_widget_destroy a; g_free a]
    /\ current_player s' = current_player s
    /\ on_window_destroy ctx s' = Ok tt s'.
Proof.
  eexists. rewrite (on_window_destroy_slot s ctx a w Hs Hw).
  split; [reflexivity|]. split; [reflexivity|]. split; [reflexivity|].
  split; [reflexivity|]. split; [reflexivity|].
  unfold on_window_destroy, bind, module_data_from_window, gets. cbn [module_data].
  by rewrite lookup_delete_eq.
Qed.

(** X11. Destroying a window cancels nothing: the reads in flight and the
    timeouts of its widget stay, and when one of them is delivered
    afterwards its callback reads the freed struct. *)
Theorem window_destroy_leaves_dangling_callbacks
    (s : State) (ctx : Window) (a : addr) (w : playerctl)
    (Hs : module_data s !! ctx = Some a)
    (Hw : heap s !! a = Some (Allocated w)) :
  exists s', on_window_destroy ctx s = Ok tt s'
    /\ in_flight s' = in_flight s /\ sources s' = sources s
    /\ (forall stream,
          set_art_from_stream stream a s'
          = Aborted (undefined_behaviour "use after free") s')
    /\ (forall p, current_player s = Some p ->
          setup_button_sensitive_handler a s'
          = Aborted (undefined_behaviour "use after free") s').
Proof.
  pose proof (lookup_lt_heap _ _ _ Hw) as Ha.
  eexists. rewrite (on_window_destroy_slot s ctx a w Hs Hw).
  split; [reflexivity|]. split; [reflexivity|]. split; [reflexivity|].
  split.
  - intros stream. unfold set_art_from_stream, bind, load. cbn [heap].
    by rewrite list_lookup_insert_eq.
  - intros p Hp. unfold setup_button_sensitive_handler, bind, gets, load.
    cbn [heap current_player]. rewrite Hp. cbn [heap].
    by rewrite list_lookup_insert_eq.
Qed.

(** X12. A timeout that fires while no player is tracked does not read its
    widget: the source is removed and nothing else changes, whatever has
    become of the struct. *)
Theorem timeout_without_player_only_removes_the_source
    (s : State) (i : nat) (src : nat * addr)
    (Hp : current_player s = None)
    (Hi : sources s !! i = Some src) :
  dispatch_timeout i s = Ok tt (set_sources (delete i (sources s)) s).
Proof.
  unfold dispatch_timeout, bind, gets. rewrite Hi. destruct src as [n u].
  unfold setup_button_sensitive_handler, bind, gets. by rewrite Hp.
Qed.

(** X13. When a player appears and the focused window already has a
    widget, the widget is not refreshed: the handler connects the player's
    two signals and changes no struct. *)
Theorem player_appeared_does_not_refresh_a_widget
    (s : State) (g : GtkLock) (win : Window) (a : addr)
    (Hf : focused_window g = Some win)
    (Hs : module_data s !! win = Some a) :
  player_appeared g s
  = Ok tt (set_log (log s ++ [g_signal_connect sig_metadata;
                              g_signal_connect sig_playback_status]) s).
Proof.
  unfold player_appeared. rewrite Hf. unfold bind at 1. unfold bind at 1.
  rewrite (setup_playerctl_existing s win a Hs).
  unfold bind, ret, tell, modify. fields. by rewrite <- app_assoc.
Qed.

Lemma setup_playerctl_fresh_no_player s ctx :
  module_data s !! ctx = None -> current_player s = None ->
  setup_playerctl ctx s
  = Ok (length (heap s))
      (set_module_data (<[ctx := length (heap s)]> (module_data s))
         (at_widget (built s) (length (heap s)) (revealed false new_playerctl))).
Proof.
  intros Hs Hp. unfold setup_playerctl.
  unfold bind at 1. unfold module_data_from_window, gets at 1. rewrite Hs.
  unfold bind at 1. unfold gets at 1.
  unfold bind at 1. unfold tell at 1, modify at 1.
  unfold bind at 1.
  assert (Hpos :
    (if unknown_position then tell (g_warning "playerctl: Unknown position") else ret tt)
      (set_log (log s ++ [g_malloc (length (heap s))]) s)
    = Ok tt (set_log (log s ++ g_malloc (length (heap s))
                        :: (if unknown_position
                            then [g_warning "playerctl: Unknown position"] else []))
               s)).
  { destruct unknown_position; unfold tell, modify, ret; fields;
      [by rewrite <- app_assoc | reflexivity]. }
  rewrite Hpos. unfold bind at 1. unfold modify at 1.
  change (set_heap _ _) with (built s).
  assert (Hl : heap (built s) !! length (heap s) = Some (Allocated new_playerctl)).
  { unfold built. fields. rewrite lookup_app_r by lia. by rewrite Nat.sub_diag. }
  unfold bind at 1.
  rewrite <- (at_widget_id (built s) _ _ Hl) at 1.
  rewrite setup_metadata_no_player_at;
    [reflexivity | by apply lookup_lt_heap in Hl | reflexivity | exact Hp].
Qed.

(** X14. With no player tracked, a focus change to a window without widget
    still builds the widget, whatever the art size, and then sets its reveal
    to !hidden || show_hidden: the panel of an unhidden lock is revealed
    with no label, no read in flight and no timeout, although the refresh
    had hidden it. *)
Theorem focus_change_without_player_builds_and_reveals
    (s : State) (g : GtkLock) (win : Window) (old : option Window)
    (Hs : module_data s !! win = None)
    (Hp : current_player s = None)
    (Hold : forall o, old = Some o -> o = win) :
  exists s', on_focus_change g win old s = Ok tt s'
    /\ module_data s' = <[win := length (heap s)]> (module_data s)
    /\ heap s'
       = heap s ++ [Allocated (revealed (negb (hidden g) || show_hidden) new_playerctl)]
    /\ in_flight s' = in_flight s /\ sources s' = sources s
    /\ warnings (log s')
       = warnings (log s)
         ++ (if unknown_position then ["playerctl: Unknown position"] else []).
Proof.
  eexists. rewrite on_focus_change_split.
  unfold bind at 1. unfold module_data_from_window, gets at 1. rewrite Hs.
  unfold bind at 1. rewrite (setup_playerctl_fresh_no_player s win Hs Hp).
  rewrite (focus_rest_no_other _ (length (heap s)) (revealed false new_playerctl) g win old);
    [|by apply list_lookup_insert_eq; cbn [built set_heap heap]; rewrite length_app;
        cbn [length]; lia | exact Hold].
  split; [reflexivity|]. split; [reflexivity|]. split.
  { cbn [at_widget set_module_data set_heap heap built].
    rewrite list_insert_insert_eq.
    rewrite insert_app_r_alt by lia. by rewrite Nat.sub_diag. }
  split; [reflexivity|]. split; [reflexivity|].
  cbn [at_widget set_module_data set_heap set_log log built].
  rewrite warnings_app. cbn [warnings omap]. by destruct unknown_position.
Qed.

End Handlers.

(** ** Concrete runs *)

Lemma state_tracked_reached :
  on_activation sample_new_from_name (inr ["mpv"]) initial = Ok tt state_tracked.
Proof. reflexivity. Qed.

Lemma state_focused_reached :
  on_focus_change 64 "top-center" false uri_scheme (focus_on 0) 0 None state_tracked
  = Ok tt state_focused.
Proof. vm_compute. reflexivity. Qed.

Lemma state_two_windows_reached :
  on_focus_change 64 "top-center" false uri_scheme (focus_on 1) 1 (Some 0) state_focused
  = Ok tt state_two_windows.
Proof. vm_compute. reflexivity. Qed.

Lemma usable_sample_widget b : usable (sample_widget b).
Proof. split; [reflexivity | by eexists]. Qed.

Lemma valid_slots_state_focused : valid_slots state_focused.
Proof.
  intros win a H. cbn [state_focused module_data] in H.
  apply lookup_singleton_Some in H as [<- <-]. by eexists.
Qed.

(** The label theorem at window 0's widget and the album field: the album
    is the empty string, then "Album", then NULL. *)
Lemma refresh_labels_follow_metadata_witness :
  heap state_focused !! 0 = Some (Allocated (sample_widget true))
  /\ usable (sample_widget true)
  /\ nonempty (field_value field_album player_empty_album) = false
  /\ nonempty (field_value field_album player_full) = true
  /\ nonempty (field_value field_album player_null_album) = false
  /\ ((exists s1 w1, refresh_with uri_scheme player_empty_album 0 state_focused = Ok tt s1
         /\ heap s1 !! 0 = Some (Allocated w1) /\ labels_of field_album w1 = [])
      /\ (exists s1 w1 v, refresh_with uri_scheme player_full 0 state_focused = Ok tt s1
         /\ heap s1 !! 0 = Some (Allocated w1)
         /\ field_value field_album player_full = Some v
         /\ labels_of field_album w1
            = [mkLabel (field_label_name field_album) (field_content field_album v)])
      /\ (exists s3 w3,
           (refresh_with uri_scheme player_empty_album 0 ;;;
            refresh_with uri_scheme player_full 0 ;;;
            refresh_with uri_scheme player_null_album 0) state_focused = Ok tt s3
         /\ heap s3 !! 0 = Some (Allocated w3) /\ labels_of field_album w3 = [])).
Proof.
  split; [reflexivity|]. split; [exact (usable_sample_widget true)|].
  split; [reflexivity|]. split; [reflexivity|]. split; [reflexivity|].
  exact (refresh_labels_follow_metadata uri_scheme state_focused 0 (sample_widget true)
           field_album player_empty_album player_full player_null_album
           eq_refl (usable_sample_widget true) eq_refl eq_refl eq_refl).
Defined.

(** The URI theorem at window 0's widget, whose player has an https URI. *)
Lemma album_art_by_uri_witness :
  heap state_focused !! 0 = Some (Allocated (sample_widget true))
  /\ usable (sample_widget true)
  /\ exists s', setup_album_art uri_scheme 0 state_focused = Ok tt s'
       /\ in_flight s'
          = in_flight state_focused ++ [soup_send "https://example.org/cover.png" 0]
       /\ warnings (log s') = warnings (log state_focused).
Proof.
  split; [reflexivity|]. split; [exact (usable_sample_widget true)|].
  destruct (album_art_by_uri uri_scheme state_focused 0 (sample_widget true)
              eq_refl (usable_sample_widget true)) as (s' & Hrun & _ & _ & Huri).
  exists s'. split; [exact Hrun|].
  destruct (Huri "https://example.org/cover.png" eq_refl) as (_ & Hhttp & _);
    [discriminate|].
  apply Hhttp. right. reflexivity.
Defined.

(** The sensitivity theorem at window 0's widget. *)
Lemma sensitivity_now_and_once_after_a_second_witness :
  heap state_focused !! 0 = Some (Allocated (sample_widget true))
  /\ usable (sample_widget true)
  /\ current_player state_focused = Some player_full
  /\ exists s' w', setup_metadata uri_scheme 0 state_focused = Ok tt s'
       /\ heap s' !! 0 = Some (Allocated w') /\ sensitivities_are player_full w'
       /\ sources s' = sources state_focused ++ [(1, 0)]
       /\ (forall p', exists s'' w'',
             dispatch_timeout (length (sources state_focused))
               (set_current_player (Some p') s') = Ok tt s''
             /\ sources s'' = sources state_focused
             /\ heap s'' !! 0 = Some (Allocated w'') /\ sensitivities_are p' w'')
       /\ (forall u s0 again s1,
             setup_button_sensitive_handler u s0 = Ok again s1 ->
             again = G_SOURCE_REMOVE).
Proof.
  split; [reflexivity|]. split; [exact (usable_sample_widget true)|].
  split; [reflexivity|].
  exact (sensitivity_now_and_once_after_a_second uri_scheme state_focused 0
           (sample_widget true) player_full eq_refl (usable_sample_widget true) eq_refl).
Defined.

Lemma only_window_0_has_struct_0 win :
  module_data state_focused !! win = Some 0 -> win = 0.
Proof.
  intros H. cbn [state_focused module_data] in H.
  by apply lookup_singleton_Some in H as [<- _].
Qed.

(** The vanish theorem with window 0 focused. *)
Lemma vanish_marks_destroyed_and_completions_do_nothing_witness :
  focused_window (focus_on 0) = Some 0
  /\ module_data state_focused !! 0 = Some 0
  /\ (forall win', module_data state_focused !! win' = Some 0 -> win' = 0)
  /\ heap state_focused !! 0 = Some (Allocated (sample_widget true))
  /\ exists s' w', player_vanished (focus_on 0) state_focused = Ok tt s'
       /\ log s' = log state_focused ++ [gtk_widget_destroy 0; store_destroyed 0]
       /\ heap s' !! 0 = Some (Allocated w')
       /\ destroyed w' = true /\ in_destruction (revealer w') = true
       /\ completion_does_nothing 64 0 s'
       /\ (forall events s'',
             run 64 "top-center" false uri_scheme sample_new_from_name events s'
             = Ok tt s'' ->
             heap s'' !! 0 = Some (Allocated w') /\ completion_does_nothing 64 0 s'').
Proof.
  split; [reflexivity|]. split; [reflexivity|].
  split; [exact only_window_0_has_struct_0|]. split; [reflexivity|].
  exact (vanish_marks_destroyed_and_completions_do_nothing 64 "top-center" false uri_scheme
           sample_new_from_name state_focused (focus_on 0) 0 0 (sample_widget true)
           eq_refl eq_refl only_window_0_has_struct_0 eq_refl).
Defined.

(** The tracker theorem from the load-time state and from the state with
    window 0 focused. *)
Lemma tracker_state_machine_witness :
  session initial = NoPlayer
  /\ session state_focused = HasPlayer player_full
  /\ sample_new_from_name "mpv" = Some player_full
  /\ valid_slots state_focused
  /\ ((exists s', on_activation sample_new_from_name (inr []) initial = Ok tt s'
                  /\ session s' = NoPlayer)
      /\ (exists s', on_activation sample_new_from_name (inl "no bus") initial = Ok tt s'
                     /\ session s' = NoPlayer)
      /\ (exists s', on_activation sample_new_from_name (inr ("mpv" :: ["vlc"])) initial
                     = Ok tt s'
                     /\ session s' = HasPlayer player_full)
      /\ (exists s', name_appeared sample_new_from_name "mpv" initial = Ok tt s'
                     /\ session s' = HasPlayer player_full)
      /\ (forall name', name_appeared sample_new_from_name name' state_focused
                        = Ok tt state_focused)
      /\ (exists s', player_vanished (focus_on 0) state_focused = Ok tt s'
                     /\ session s' = NoPlayer)).
Proof.
  split; [reflexivity|]. split; [reflexivity|]. split; [reflexivity|].
  split; [exact valid_slots_state_focused|].
  exact (tracker_state_machine sample_new_from_name initial state_focused (focus_on 0)
           "mpv" ["vlc"] player_full player_full "no bus"
           eq_refl eq_refl eq_refl valid_slots_state_focused).
Defined.

(** The focus theorem for the move from window 0 to the new window 1. *)
Lemma focus_change_refreshes_new_and_hides_old_witness :
  (64 <> 0)%Z
  /\ module_data state_focused !! 1 = None
  /\ module_data state_focused !! 0 = Some 0
  /\ heap state_focused !! 0 = Some (Allocated (sample_widget true))
  /\ exists s' a w0,
       on_focus_change 64 "top-center" false uri_scheme (focus_on 1) 1 (Some 0) state_focused
       = Ok tt s'
       /\ focus_origin 64 "top-center" state_focused 1 a w0
       /\ module_data s' !! 1 = Some a
       /\ heap s' !! a
          = Some (Allocated (revealed (negb (hidden (focus_on 1)) || false)
                               (refresh_struct (current_player state_focused) w0)))
       /\ (forall o b wb, Some 0 = Some o -> o <> 1 ->
             module_data state_focused !! o = Some b ->
             heap state_focused !! b = Some (Allocated wb) ->
             module_data s' !! o = Some b
             /\ heap s' !! b = Some (Allocated (revealed false wb))).
Proof.
  split; [discriminate|]. split; [reflexivity|]. split; [reflexivity|].
  split; [reflexivity|].
  apply (focus_change_refreshes_new_and_hides_old 64 "top-center" false uri_scheme
           state_focused (focus_on 1) 1 (Some 0)).
  - discriminate.
  - intros a H. cbn [state_focused module_data] in H.
    rewrite lookup_singleton_ne in H by lia. discriminate.
  - intros o [= <-] _. exists 0, (sample_widget true).
    split; [reflexivity|]. split; [reflexivity|].
    cbn [state_focused module_data]. rewrite lookup_singleton_ne by lia. discriminate.
Defined.


(** C1 as worded does not hold. With window 0 focused and an art read in
    flight for its widget: when the player vanishes the revealer is torn down
    before the flag is stored; when the window is destroyed the flag is not
    stored at all, the struct is freed, and the completion that arrives
    afterwards reads the freed struct. *)
Lemma destroy_does_not_set_the_flag_first :
  flag_before_teardown 0
    (drop (length (log state_focused))
       (log (after (player_vanished (focus_on 0)) state_focused))) = false
  /\ on_window_destroy 0 state_focused = Ok tt (after (on_window_destroy 0) state_focused)
  /\ log (after (on_window_destroy 0) state_focused)
     = log state_focused ++ [gtk_widget_destroy 0; g_free 0]
  /\ in_flight (after (on_window_destroy 0) state_focused) !! 0
     = Some (soup_send "https://example.org/cover.png" 0)
  /\ exists s', complete 64 0 (inr (stream_image 7)) (after (on_window_destroy 0) state_focused)
                = Aborted (undefined_behaviour "use after free") s'.
Proof.
  split; [reflexivity|]. split; [reflexivity|]. split; [reflexivity|].
  split; [reflexivity|]. eexists. reflexivity.
Qed.

(** C6 as worded does not hold. The timeout a refresh installed is gone once
    it has fired: it is not a recurring one. *)
Lemma timeout_is_not_recurring :
  sources state_focused = [(1, 0)] /\ ~ recurring state_focused 0.
Proof.
  split; [reflexivity|].
  intros (src & s' & _ & Hrun & Hin).
  vm_compute in Hrun. injection Hrun as <-.
  cbn [sources] in Hin. by apply not_elem_of_nil in Hin.
Qed.

(** C3 is a defect of the code. When the player vanishes only the widget of
    the focused window is destroyed. With no focused window, window 0 keeps
    its widget as it was; with the focus on window 1, the widget of window 0
    stays in its slot, not destroyed. *)
Theorem vanish_leaves_unfocused_widgets :
  player_vanished no_focus state_focused = Ok tt (set_current_player None state_focused)
  /\ exists s', player_vanished (focus_on 1) state_two_windows = Ok tt s'
       /\ module_data s' !! 1 = None
       /\ module_data s' !! 0 = Some 0
       /\ heap s' !! 0 = Some (Allocated (sample_widget false))
       /\ destroyed (sample_widget false) = false
       /\ in_destruction (revealer (sample_widget false)) = false.
Proof.
  split; [reflexivity|]. eexists. split; [reflexivity|].
  repeat split.
Qed.

(** C9 is a defect of the code. With art-size 0 the struct is built without
    an image, and a refresh with a tracked player still runs
    setup_album_art, whose first call hands the never-assigned album_art
    field to gtk_image_set_from_icon_name: when the widget is built with a
    player tracked, and when a widget built without player is refreshed by
    the metadata handler after a player appeared. *)
Theorem art_size_zero_still_resets_the_image :
  album_art (new_playerctl 0 "top-center") = None
  /\ (exists s',
        on_focus_change 0 "top-center" false uri_scheme (focus_on 0) 0 None state_tracked
        = Aborted (undefined_behaviour "widget->album_art is indeterminate") s'
        /\ last (log s') = Some (gtk_image_set_from_icon_name 0))
  /\ (exists s1 s2 s3,
        on_focus_change 0 "top-center" false uri_scheme (focus_on 0) 0 None initial = Ok tt s1
        /\ name_appeared sample_new_from_name "mpv" s1 = Ok tt s2
        /\ metadata 0 "top-center" uri_scheme (focus_on 0) s2
           = Aborted (undefined_behaviour "widget->album_art is indeterminate") s3
        /\ last (log s3) = Some (gtk_image_set_from_icon_name 0)).
Proof.
  split; [reflexivity|]. split.
  - eexists. split; reflexivity.
  - eexists _, _, _. repeat split.
Qed.

(** C7 is a defect of the code. After the player vanished with window 0
    focused, window 0 has no widget: the module reaches that state from
    activation by a focus change and the player-vanished signal. The focus
    change from window 0 to window 1 then builds and reveals window 1's
    widget and fails the handler's own assertion on the old window's widget:
    the call does not return, and no revealer of window 0 is hidden. The
    handlers beside it test the widget and go on: on_idle_hide returns in
    the same state with window 0 focused. *)
Lemma focus_change_from_window_without_widget :
  player_vanished (focus_on 0) state_focused
  = Ok tt (after (player_vanished (focus_on 0)) state_focused)
  /\ (forall s', on_focus_change 64 "top-center" false uri_scheme (focus_on 1) 1 (Some 0)
                   (after (player_vanished (focus_on 0)) state_focused)
                 <> Ok tt s')
  /\ module_data
       (after (on_focus_change 64 "top-center" false uri_scheme (focus_on 1) 1 (Some 0))
          (after (player_vanished (focus_on 0)) state_focused)) !! 0 = None
  /\ on_activation sample_new_from_name (inr ["mpv"]) initial = Ok tt state_tracked
  /\ run 64 "top-center" false uri_scheme sample_new_from_name
       [ev_focus_change (focus_on 0) 0 None; ev_player_vanished (focus_on 0)] state_tracked
     = Ok tt (after (player_vanished (focus_on 0)) state_focused)
  /\ (exists s' w,
        on_focus_change 64 "top-center" false uri_scheme (focus_on 1) 1 (Some 0)
          (after (player_vanished (focus_on 0)) state_focused)
        = Aborted (assertion_failed "old_widget") s'
        /\ module_data s' !! 1 = Some 1
        /\ heap s' !! 1 = Some (Allocated w)
        /\ reveal_child (revealer w) = true)
  /\ on_idle_hide false (focus_on 0) (after (player_vanished (focus_on 0)) state_focused)
     = Ok tt (after (player_vanished (focus_on 0)) state_focused).
Proof.
  split; [reflexivity|]. split; [|split; [reflexivity|]].
  { intros s' H. vm_compute in H. discriminate. }
  split; [reflexivity|]. split; [vm_compute; reflexivity|].
  split; [|reflexivity].
  eexists _, _. split; [vm_compute; reflexivity|].
  split; [reflexivity|]. split; reflexivity.
Qed.

(** ** Further properties: the position option *)

(** X15. A position string that is none of the eight names the code tests
    for gives the struct that "top-center" gives (centred, at the top, in
    the overlay) and is the only kind that is flagged unknown, which is what
    makes setup_playerctl log its warning. *)
Theorem unknown_position_falls_back_to_top_center (art_size : Z) (pos : string) :
  new_playerctl art_size pos
  = new_playerctl art_size (if unknown_position pos then "top-center" else pos)
  /\ (unknown_position pos = true <-> pos ∉ recognised).
Proof.
  unfold recognised.
  destruct (String.eqb_spec pos "top-left") as [->|H1];
    [split; [reflexivity | split; [discriminate | intros H; exfalso; apply H; set_solver]]|].
  destruct (String.eqb_spec pos "top-center") as [->|H2];
    [split; [reflexivity | split; [discriminate | intros H; exfalso; apply H; set_solver]]|].
  destruct (String.eqb_spec pos "top-right") as [->|H3];
    [split; [reflexivity | split; [discriminate | intros H; exfalso; apply H; set_solver]]|].
  destruct (String.eqb_spec pos "bottom-left") as [->|H4];
    [split; [reflexivity | split; [discriminate | intros H; exfalso; apply H; set_solver]]|].
  destruct (String.eqb_spec pos "bottom-center") as [->|H5];
    [split; [reflexivity | split; [discriminate | intros H; exfalso; apply H; set_solver]]|].
  destruct (String.eqb_spec pos "bottom-right") as [->|H6];
    [split; [reflexivity | split; [discriminate | intros H; exfalso; apply H; set_solver]]|].
  destruct (String.eqb_spec pos "above-clock") as [->|H7];
    [split; [reflexivity | split; [discriminate | intros H; exfalso; apply H; set_solver]]|].
  destruct (String.eqb_spec pos "under-clock") as [->|H8];
    [split; [reflexivity | split; [discriminate | intros H; exfalso; apply H; set_solver]]|].
  assert (Hu : unknown_position pos = true).
  { unfold unknown_position, position_is.
    apply String.eqb_neq in H1, H2, H3, H4, H5, H6, H7, H8.
    by rewrite H1, H2, H3, H4, H5, H6, H7, H8. }
  rewrite Hu. split.
  - unfold new_playerctl, revealer_halign, revealer_valign, revealer_parent, first_halign.
    rewrite Hu. unfold position_is.
    apply String.eqb_neq in H1, H2, H3, H4, H5, H6, H7, H8.
    by rewrite H1, H2, H3, H4, H5, H6, H7, H8.
  - split; [|done]. intros _. rewrite !elem_of_cons, elem_of_nil.
    intros [?|[?|[?|[?|[?|[?|[?|[?|[]]]]]]]]]; congruence.
Qed.

(** X16. Where each of the eight names puts the revealer: top and bottom
    give the vertical alignment, left, center and right the horizontal one,
    all six in the overlay; the two clock positions go into the info box,
    above-clock as its first child, centred and with the vertical alignment
    left at its default. *)
Theorem recognised_positions_place_the_revealer (art_size : Z) :
  Forall (fun '(name, r) => revealer (new_playerctl art_size name) = r)
    [("top-left", mkRevealer false GTK_ALIGN_START GTK_ALIGN_START overlay false false);
     ("top-center", mkRevealer false GTK_ALIGN_CENTER GTK_ALIGN_START overlay false false);
     ("top-right", mkRevealer false GTK_ALIGN_END GTK_ALIGN_START overlay false false);
     ("bottom-left", mkRevealer false GTK_ALIGN_START GTK_ALIGN_END overlay false false);
     ("bottom-center", mkRevealer false GTK_ALIGN_CENTER GTK_ALIGN_END overlay false false);
     ("bottom-right", mkRevealer false GTK_ALIGN_END GTK_ALIGN_END overlay false false);
     ("above-clock",
      mkRevealer false GTK_ALIGN_CENTER GTK_ALIGN_FILL info_box_first false false);
     ("under-clock",
      mkRevealer false GTK_ALIGN_CENTER GTK_ALIGN_FILL info_box_last false false)].
Proof. repeat constructor. Qed.

(** ** The first version *)

Lemma v1_setup_playerctl_spec position art_size ctx s :
  (forall a, V1.module_data s !! ctx = Some a ->
     exists w, V1.heap s !! a = Some (V1.Allocated w)) ->
  exists s', V1.setup_playerctl position art_size ctx s = V1.Ok tt s'
    /\ V1.module_data s' !! ctx
       = (if V1.shows s then Some (length (V1.heap s) : addr) else None)
    /\ (forall a, V1.module_data s !! ctx = Some a -> V1.heap s' !! a = Some V1.Freed)
    /\ (forall p, V1.player s = Some p -> V1.shows s = true ->
          V1.heap s' !! length (V1.heap s)
          = Some (V1.Allocated (V1.new_playerctl position p)))
    /\ (forall win, win <> ctx -> V1.module_data s' !! win = V1.module_data s !! win)
    /\ V1.player s' = V1.player s
    /\ (forall b, b < length (V1.heap s) -> V1.module_data s !! ctx <> Some b ->
          V1.heap s' !! b = V1.heap s !! b).
Proof.
  intros Hslot.
  assert (Hfirst : exists s1,
    V1.bind (V1.gets (fun s => V1.module_data s !! ctx)) (fun slot =>
       match slot with
       | Some a =>
           V1.seq (V1.PLAYERCTL ctx)
          (V1.seq (V1.tell (V1.gtk_widget_destroy a))
          (V1.seq (V1.tell (V1.g_free a))
          (V1.seq (V1.set_cell a V1.Freed)
               (V1.set_slot ctx None))))
       | None => V1.ret tt
       end) s = V1.Ok tt s1
    /\ V1.player s1 = V1.player s
    /\ length (V1.heap s1) = length (V1.heap s)
    /\ V1.module_data s1 = delete ctx (V1.module_data s)
    /\ (forall a, V1.module_data s !! ctx = Some a -> V1.heap s1 !! a = Some V1.Freed)
    /\ (forall b, V1.module_data s !! ctx <> Some b -> V1.heap s1 !! b = V1.heap s !! b)).
  { unfold V1.bind at 1. unfold V1.gets at 1.
    destruct (V1.module_data s !! ctx) as [a|] eqn:Hs.
    - destruct (Hslot a eq_refl) as [w Hw].
      unfold V1.seq, V1.bind, V1.PLAYERCTL, V1.gets, V1.bind. rewrite Hs, Hw.
      eexists. split; [reflexivity|]. cbn.
      split; [reflexivity|]. split; [apply length_insert|]. split; [reflexivity|].
      split.
      + intros a' [= <-]. apply list_lookup_insert_eq. by apply lookup_lt_Some in Hw.
      + intros b Hb. apply list_lookup_insert_ne. congruence.
    - exists s. split; [reflexivity|]. split; [reflexivity|]. split; [reflexivity|].
      split; [symmetry; by apply delete_id|]. split; [discriminate | reflexivity]. }
  destruct Hfirst as (s1 & Hrun1 & Hp1 & Hlen1 & Hmd1 & Hfreed & Hother).
  unfold V1.setup_playerctl. unfold V1.seq at 1. unfold V1.bind at 1. rewrite Hrun1.
  unfold V1.bind at 1. unfold V1.gets at 1. unfold V1.shows. rewrite Hp1.
  destruct (V1.player s) as [p|] eqn:Hp.
  2:{ exists s1. split; [reflexivity|]. rewrite Hmd1.
      split; [by rewrite lookup_delete_eq|]. split; [exact Hfreed|].
      split; [discriminate|].
      split; [intros win Hne; by rewrite lookup_delete_ne|].
      split; [exact Hp1|]. intros b _ Hb. by apply Hother. }
  assert (Hbuild : forall s2, V1.player s2 = V1.player s1 ->
            V1.heap s2 = V1.heap s1 ++ [V1.Allocated (V1.new_playerctl position p)] ->
            V1.module_data s2 = <[ctx := length (V1.heap s1)]> (V1.module_data s1) ->
            V1.module_data s2 !! ctx = Some (length (V1.heap s))
            /\ (forall a, V1.module_data s !! ctx = Some a -> V1.heap s2 !! a = Some V1.Freed)
            /\ (forall p0, Some p = Some p0 -> true = true ->
                  V1.heap s2 !! length (V1.heap s)
                  = Some (V1.Allocated (V1.new_playerctl position p0)))
            /\ (forall win, win <> ctx ->
                  V1.module_data s2 !! win = V1.module_data s !! win)
            /\ V1.player s2 = Some p
            /\ (forall b, b < length (V1.heap s) -> V1.module_data s !! ctx <> Some b ->
                  V1.heap s2 !! b = V1.heap s !! b)).
  { intros s2 H2p H2h H2m. rewrite H2m, H2h, Hmd1, Hlen1.
    split; [by rewrite lookup_insert_eq|]. split.
    { intros a Ha. pose proof (Hfreed a Ha) as Hf.
      rewrite lookup_app_l; [exact Hf|]. by apply lookup_lt_Some in Hf. }
    split.
    { intros p0 [= <-] _. rewrite lookup_app_r by lia.
      by rewrite Hlen1, Nat.sub_diag. }
    split.
    { intros win Hne. rewrite lookup_insert_ne by congruence. by rewrite lookup_delete_ne. }
    split; [congruence|].
    intros b Hlt Hb. rewrite lookup_app_l by (rewrite Hlen1; exact Hlt). by apply Hother. }
  destruct (playback_status_prop p) eqn:Hst.
  3:{ exists s1. split; [reflexivity|]. rewrite Hmd1.
      split; [by rewrite lookup_delete_eq|]. split; [exact Hfreed|].
      split; [discriminate|].
      split; [intros win Hne; by rewrite lookup_delete_ne|].
      split; [congruence|]. intros b _ Hb. by apply Hother. }
  - unfold V1.seq, V1.bind, V1.gets, V1.tell, V1.modify, V1.set_slot, V1.setup_album_art,
      V1.g_warning_once, V1.bind, V1.gets, V1.tell, V1.modify, V1.ret.
    cbn [V1.player V1.heap V1.module_data V1.log].
    destruct (V1.unknown_position position);
      [destruct (V1.logged _ _)|]; destruct (bool_decide (art_size = 0%Z));
      (eexists; split; [reflexivity|]; by apply Hbuild).
  - unfold V1.seq, V1.bind, V1.gets, V1.tell, V1.modify, V1.set_slot, V1.setup_album_art,
      V1.g_warning_once, V1.bind, V1.gets, V1.tell, V1.modify, V1.ret.
    cbn [V1.player V1.heap V1.module_data V1.log].
    destruct (V1.unknown_position position);
      [destruct (V1.logged _ _)|]; destruct (bool_decide (art_size = 0%Z));
      (eexists; split; [reflexivity|]; by apply Hbuild).
Qed.

Lemma v1_logged_app msg l l' :
  V1.logged msg (l ++ l') = V1.logged msg l || V1.logged msg l'.
Proof. apply existsb_app. Qed.

Lemma v1_setup_playerctl_log position art_size ctx s s' :
  V1.setup_playerctl position art_size ctx s = V1.Ok tt s' ->
  V1.log s' = V1.log s ++ V1.setup_calls position ctx s.
Proof.
  unfold V1.setup_calls, V1.shows, V1.setup_playerctl, V1.seq.
  unfold V1.bind at 1. unfold V1.bind at 1. unfold V1.gets at 1.
  assert (Hbuild : forall s1 front,
            V1.player s1 = V1.player s -> length (V1.heap s1) = length (V1.heap s) ->
            V1.log s1 = V1.log s ++ front -> V1.logged "playerctl-module: Unknown position" front = false ->
            V1.bind (V1.gets V1.player) (fun pl =>
              match pl with
              | None => V1.ret tt
              | Some p =>
                  match playback_status_prop p with
                  | PLAYERCTL_PLAYBACK_STATUS_STOPPED => V1.ret tt
                  | _ =>
                      V1.bind (V1.gets (fun s => length (V1.heap s))) (fun a =>
                        V1.bind (V1.tell (V1.g_malloc a)) (fun _ =>
                        V1.bind (V1.modify (fun s =>
                                   V1.mkState (V1.player s)
                                     (V1.heap s ++ [V1.Allocated (V1.new_playerctl position p)])
                                     (V1.module_data s) (V1.log s))) (fun _ =>
                        V1.bind (V1.set_slot ctx (Some a)) (fun _ =>
                        V1.bind (if V1.unknown_position position
                                 then V1.g_warning_once "playerctl-module: Unknown position"
                                 else V1.ret tt) (fun _ =>
                                 V1.setup_album_art art_size ctx)))))
                  end
              end) s1 = V1.Ok tt s' ->
            V1.log s'
            = V1.log s
              ++ front
              ++ (if match V1.player s with
                     | Some p =>
                         match playback_status_prop p with
                         | PLAYERCTL_PLAYBACK_STATUS_STOPPED => false
                         | _ => true
                         end
                     | None => false
                     end
                  then V1.g_malloc (length (V1.heap s))
                       :: (if V1.unknown_position position
                              && negb (V1.logged "playerctl-module: Unknown position"
                                         (V1.log s))
                           then [V1.g_warning "playerctl-module: Unknown position"]
                           else [])
                  else [])).
  { intros s1 front Hp Hlen Hlog Hfront.
    unfold V1.bind at 1. unfold V1.gets at 1. rewrite Hp.
    assert (Hstop : V1.ret tt s1 = V1.Ok tt s' -> V1.log s' = V1.log s ++ front ++ []).
    { intros [= <-]. by rewrite app_nil_r. }
    destruct (V1.player s) as [p|]; [|exact Hstop].
    assert (Hgo : V1.bind (V1.gets (fun s => length (V1.heap s))) (fun a =>
                    V1.bind (V1.tell (V1.g_malloc a)) (fun _ =>
                    V1.bind (V1.modify (fun s =>
                               V1.mkState (V1.player s)
                                 (V1.heap s ++ [V1.Allocated (V1.new_playerctl position p)])
                                 (V1.module_data s) (V1.log s))) (fun _ =>
                    V1.bind (V1.set_slot ctx (Some a)) (fun _ =>
                    V1.bind (if V1.unknown_position position
                             then V1.g_warning_once "playerctl-module: Unknown position"
                             else V1.ret tt) (fun _ =>
                             V1.setup_album_art art_size ctx))))) s1 = V1.Ok tt s' ->
                  V1.log s'
                  = V1.log s ++ front
                    ++ V1.g_malloc (length (V1.heap s))
                       :: (if V1.unknown_position position
                              && negb (V1.logged "playerctl-module: Unknown position"
                                         (V1.log s))
                           then [V1.g_warning "playerctl-module: Unknown position"]
                           else [])).
    { unfold V1.bind, V1.gets, V1.tell, V1.modify, V1.set_slot, V1.setup_album_art,
        V1.g_warning_once, V1.bind, V1.gets, V1.tell, V1.modify, V1.ret.
      cbn [V1.player V1.heap V1.module_data V1.log].
      rewrite Hlog, Hlen.
      destruct (V1.unknown_position position); cbn [andb V1.log].
      - rewrite !v1_logged_app, Hfront.
        change (V1.logged _ [V1.g_malloc _]) with false. rewrite !orb_false_r.
        destruct (V1.logged _ (V1.log s)); cbn [negb];
          destruct (bool_decide (art_size = 0%Z)); intros [= <-];
          cbn [V1.log]; by rewrite <- ?app_assoc.
      - destruct (bool_decide (art_size = 0%Z)); intros [= <-];
          cbn [V1.log]; by rewrite <- ?app_assoc. }
    destruct (playback_status_prop p); [exact Hgo | exact Hgo | exact Hstop]. }
  destruct (V1.module_data s !! ctx) as [a|] eqn:Hslot.
  - unfold V1.PLAYERCTL, V1.bind at 1. unfold V1.bind at 1. unfold V1.bind at 1.
    unfold V1.gets at 1. rewrite Hslot. unfold V1.bind at 1. unfold V1.gets at 1.
    destruct (V1.heap s !! a) as [[w|]|]; try discriminate.
    unfold V1.ret at 1.
    unfold V1.bind at 1. unfold V1.tell at 1, V1.modify at 1.
    unfold V1.bind at 1. unfold V1.tell at 1, V1.modify at 1.
    unfold V1.bind at 1. unfold V1.set_cell at 1, V1.modify at 1.
    unfold V1.set_slot at 1, V1.modify at 1.
    intros Hrun.
    rewrite (Hbuild
               (V1.mkState (V1.player s) (<[a := V1.Freed]> (V1.heap s))
                  (delete ctx (V1.module_data s))
                  ((V1.log s ++ [V1.gtk_widget_destroy a]) ++ [V1.g_free a]))
               [V1.gtk_widget_destroy a; V1.g_free a] eq_refl
               (length_insert _ _ _)
               (eq_sym (app_assoc (V1.log s) [V1.gtk_widget_destroy a] [V1.g_free a]))
               eq_refl Hrun).
    reflexivity.
  - unfold V1.ret at 1. intros Hrun.
    rewrite (Hbuild s [] eq_refl eq_refl (eq_sym (app_nil_r _)) eq_refl Hrun).
    reflexivity.
Qed.

(** X17. First version: every setup tears down the window's widget, if it
    has one (the revealer is destroyed, then the struct is freed), and
    builds a new struct only while a player is tracked whose status is not
    Stopped; otherwise the window is left without widget. The old struct is
    freed, the new one is at a new address, the slots and structs of the
    other windows are left as they are, and the calls made are the teardown
    followed by the allocation, with the warning for an unknown position
    given once. *)
Theorem first_version_setup_rebuilds_from_scratch
    (position : string) (art_size : Z) (ctx : Window) (s : V1.State)
    (Hslot : forall a, V1.module_data s !! ctx = Some a ->
               exists w, V1.heap s !! a = Some (V1.Allocated w)) :
  exists s', V1.setup_playerctl position art_size ctx s = V1.Ok tt s'
    /\ V1.module_data s' !! ctx
       = (if V1.shows s then Some (length (V1.heap s) : addr) else None)
    /\ (forall a, V1.module_data s !! ctx = Some a -> V1.heap s' !! a = Some V1.Freed)
    /\ (forall p, V1.player s = Some p -> V1.shows s = true ->
          V1.heap s' !! length (V1.heap s)
          = Some (V1.Allocated (V1.new_playerctl position p)))
    /\ (forall win, win <> ctx -> V1.module_data s' !! win = V1.module_data s !! win)
    /\ V1.player s' = V1.player s
    /\ (forall b, b < length (V1.heap s) -> V1.module_data s !! ctx <> Some b ->
          V1.heap s' !! b = V1.heap s !! b)
    /\ V1.log s' = V1.log s ++ V1.setup_calls position ctx s.
Proof.
  destruct (v1_setup_playerctl_spec position art_size ctx s Hslot)
    as (s' & Hrun & Hctx & Hfreed & Hnew & Hmd & Hp & Hheap).
  exists s'. split; [exact Hrun|]. split; [exact Hctx|]. split; [exact Hfreed|].
  split; [exact Hnew|]. split; [exact Hmd|]. split; [exact Hp|].
  split; [exact Hheap|]. exact (v1_setup_playerctl_log position art_size ctx s s' Hrun).
Qed.

(** X18. First version: once a player is tracked no bus event changes
    anything. The player-vanished handler assigns to its own parameter, so
    the tracked player is never cleared, and every later name-appeared is
    ignored. *)
Theorem first_version_never_forgets_its_player
    (position : string)
    (playerctl_player_new_from_name : PlayerctlPlayerName -> option PlayerctlPlayer)
    (art_size : Z) (events : list V1.BusEvent) (s : V1.State) (p : PlayerctlPlayer)
    (Hp : V1.player s = Some p) :
  V1.deliver_all position playerctl_player_new_from_name art_size events s = V1.Ok tt s.
Proof.
  induction events as [|e events IH]; [reflexivity|].
  cbn [V1.deliver_all]. unfold V1.seq, V1.bind.
  destruct e as [g name|]; cbn [V1.deliver].
  - unfold V1.name_appeared, V1.bind, V1.gets. rewrite Hp. exact IH.
  - exact IH.
Qed.

(** X19. First version: idle hide and idle show read the revealer through
    the focused window's slot without testing it, so with a focused window
    that has no widget they dereference NULL. *)
Theorem first_version_idle_needs_a_widget
    (s : V1.State) (g : GtkLock) (win : Window)
    (Hf : focused_window g = Some win)
    (Hs : V1.module_data s !! win = None) :
  V1.on_idle_hide g s = V1.Aborted "NULL dereference" s
  /\ V1.on_idle_show g s = V1.Aborted "NULL dereference" s.
Proof.
  unfold V1.on_idle_hide, V1.on_idle_show. rewrite Hf.
  unfold V1.gtk_revealer_set_reveal_child, V1.PLAYERCTL, V1.bind, V1.gets.
  by rewrite Hs.
Qed.

(** X20. First version: a focus change while the lock is hidden and no
    widget is to be shown (no player, or a stopped one) removes the window's
    widget and then dereferences the NULL slot to hide the revealer. *)
Theorem first_version_hidden_focus_without_player
    (position : string) (art_size : Z) (s : V1.State) (g : GtkLock)
    (win : Window) (old : option Window)
    (Hslot : forall a, V1.module_data s !! win = Some a ->
               exists w, V1.heap s !! a = Some (V1.Allocated w))
    (Hshows : V1.shows s = false)
    (Hhidden : hidden g = true) :
  exists s', V1.on_focus_change position art_size g win old s
             = V1.Aborted "NULL dereference" s'.
Proof.
  destruct (v1_setup_playerctl_spec position art_size win s Hslot)
    as (s1 & Hrun & Hs1 & _).
  rewrite Hshows in Hs1.
  exists s1. unfold V1.on_focus_change, V1.seq. unfold V1.bind at 1. rewrite Hrun.
  rewrite Hhidden. unfold V1.bind at 1.
  unfold V1.gtk_revealer_set_reveal_child, V1.PLAYERCTL, V1.bind, V1.gets.
  by rewrite Hs1.
Qed.

Lemma v1_safe_ret : V1.safe (V1.ret tt).
Proof. intros s Hs. left. by exists s. Qed.

Lemma v1_safe_seq m k : V1.safe m -> V1.safe k -> V1.safe (V1.seq m k).
Proof.
  intros Hm Hk s Hs. unfold V1.seq, V1.bind.
  destruct (Hm s Hs) as [(s' & -> & Hs')|(s' & ->)]; [exact (Hk s' Hs')|].
  right. by eexists.
Qed.

Lemma v1_safe_gets_bind {A} (f : V1.State -> A) k :
  (forall a, V1.safe (k a)) -> V1.safe (V1.bind (V1.gets f) k).
Proof. intros H s Hs. exact (H (f s) s Hs). Qed.

Lemma v1_safe_frame f :
  (forall s, V1.heap (f s) = V1.heap s) ->
  (forall s, V1.module_data (f s) = V1.module_data s) ->
  V1.safe (V1.modify f).
Proof.
  intros Hh Hm s [Hl Hi]. left. eexists. split; [reflexivity|].
  split.
  - intros win a. rewrite Hh, Hm. apply Hl.
  - intros win1 win2 a. rewrite Hm. apply Hi.
Qed.

Lemma v1_safe_tell c : V1.safe (V1.tell c).
Proof. by apply v1_safe_frame. Qed.

Lemma v1_safe_set_player p : V1.safe (V1.set_player p).
Proof. by apply v1_safe_frame. Qed.

Lemma v1_safe_reveal x b : V1.safe (V1.gtk_revealer_set_reveal_child x b).
Proof.
  intros s [Hl Hi]. unfold V1.gtk_revealer_set_reveal_child, V1.PLAYERCTL, V1.bind, V1.gets.
  destruct (V1.module_data s !! x) as [a|] eqn:Hx; [|right; by eexists].
  destruct (Hl x a Hx) as [w Hw]. rewrite Hw. left.
  eexists. split; [reflexivity|]. unfold V1.live_slots. cbn [V1.heap V1.module_data].
  split; [|exact Hi].
  intros win a' Ha'. destruct (Hl win a' Ha') as [w' Hw'].
  destruct (decide (a = a')) as [<-|Hne].
  - eexists. apply list_lookup_insert_eq. by apply lookup_lt_Some in Hw.
  - exists w'. by rewrite list_lookup_insert_ne.
Qed.

Lemma v1_safe_setup_playerctl position art_size ctx :
  V1.safe (V1.setup_playerctl position art_size ctx).
Proof.
  intros s [Hl Hi].
  destruct (v1_setup_playerctl_spec position art_size ctx s (Hl ctx))
    as (s' & Hrun & Hctx & Hfreed & Hnew & Hmd & Hp & Hheap).
  left. exists s'. split; [exact Hrun|].
  assert (Hcase : forall win a, V1.module_data s' !! win = Some a ->
            (win = ctx /\ a = length (V1.heap s)
             /\ exists w, V1.heap s' !! a = Some (V1.Allocated w))
            \/ (win <> ctx /\ V1.module_data s !! win = Some a
                /\ exists w, V1.heap s' !! a = Some (V1.Allocated w))).
  { intros win a Ha. destruct (decide (win = ctx)) as [->|Hne].
    - left. pose proof (eq_trans (eq_sym Hctx) Ha) as Hc.
      destruct (V1.shows s) eqn:Hsh; [|discriminate].
      injection Hc as <-. split; [reflexivity|]. split; [reflexivity|].
      pose proof Hsh as Hsh'. unfold V1.shows in Hsh'.
      destruct (V1.player s) as [p|] eqn:Hpl; [|discriminate].
      eexists. exact (Hnew p eq_refl eq_refl).
    - right. rewrite Hmd in Ha by exact Hne. split; [exact Hne|]. split; [exact Ha|].
      destruct (Hl win a Ha) as [w Hw]. exists w.
      rewrite Hheap; [exact Hw | by apply lookup_lt_Some in Hw |].
      intros Hc. apply Hne. exact (Hi _ _ _ Ha Hc). }
  split.
  - intros win a Ha. destruct (Hcase win a Ha) as [(_ & _ & H)|(_ & _ & H)]; exact H.
  - intros win1 win2 a H1 H2.
    destruct (Hcase win1 a H1) as [(-> & Ha1 & _)|(Hn1 & Hm1 & _)],
             (Hcase win2 a H2) as [(-> & Ha2 & _)|(Hn2 & Hm2 & _)].
    + reflexivity.
    + exfalso. destruct (Hl win2 a Hm2) as [w Hw]. apply lookup_lt_Some in Hw. lia.
    + exfalso. destruct (Hl win1 a Hm1) as [w Hw]. apply lookup_lt_Some in Hw. lia.
    + exact (Hi _ _ _ Hm1 Hm2).
Qed.

Lemma v1_safe_on_window_empty ctx : V1.safe (V1.on_window_empty ctx).
Proof.
  intros s [Hl Hi]. unfold V1.on_window_empty, V1.bind, V1.gets.
  destruct (V1.module_data s !! ctx) as [a|] eqn:Hc; [|left; by exists s].
  left. eexists. split; [reflexivity|]. unfold V1.live_slots. cbn [V1.heap V1.module_data].
  split.
  - intros win b Hb. apply lookup_delete_Some in Hb as [Hne Hb].
    destruct (Hl win b Hb) as [w Hw]. exists w.
    rewrite list_lookup_insert_ne; [exact Hw|].
    intros <-. apply Hne. exact (Hi _ _ _ Hc Hb).
  - intros win1 win2 b H1 H2.
    apply lookup_delete_Some in H1 as [_ H1]. apply lookup_delete_Some in H2 as [_ H2].
    exact (Hi _ _ _ H1 H2).
Qed.

Lemma v1_safe_handle position new_from_name art_size e :
  V1.safe (V1.handle position new_from_name art_size e).
Proof.
  destruct e as [g name|g win old|ctx|g|g|user_data]; cbn [V1.handle].
  - unfold V1.name_appeared. apply v1_safe_gets_bind. intros [p|]; [apply v1_safe_ret|].
    apply v1_safe_seq; [apply v1_safe_set_player|].
    apply v1_safe_seq; [apply v1_safe_tell|].
    destruct (focused_window g); [apply v1_safe_setup_playerctl | apply v1_safe_ret].
  - unfold V1.on_focus_change.
    apply v1_safe_seq; [apply v1_safe_setup_playerctl|].
    apply v1_safe_seq; [destruct (hidden g); [apply v1_safe_reveal | apply v1_safe_ret]|].
    destruct old as [o|]; [|apply v1_safe_ret].
    destruct (bool_decide (win ≠ o)); [apply v1_safe_reveal | apply v1_safe_ret].
  - apply v1_safe_on_window_empty.
  - unfold V1.on_idle_hide. destruct (focused_window g);
      [apply v1_safe_reveal | apply v1_safe_ret].
  - unfold V1.on_idle_show. destruct (focused_window g);
      [apply v1_safe_reveal | apply v1_safe_ret].
  - unfold V1.play_pause.
    apply v1_safe_seq; [apply v1_safe_tell | apply v1_safe_setup_playerctl].
Qed.

Lemma v1_safe_on_activation new_from_name manager :
  V1.safe (V1.on_activation new_from_name manager).
Proof.
  destruct manager as [message|[|name names]]; cbn [V1.on_activation].
  - apply v1_safe_tell.
  - apply v1_safe_seq; [apply v1_safe_tell|].
    apply v1_safe_seq; [apply v1_safe_tell | apply v1_safe_ret].
  - apply v1_safe_seq; [apply v1_safe_tell|].
    apply v1_safe_seq; [apply v1_safe_tell|].
    apply v1_safe_seq; [apply v1_safe_set_player | apply v1_safe_tell].
Qed.

(** X22. First version: after activation and as long as the tracked player
    has not vanished, whatever the host, the bus and the user do (names
    appearing, focus changes, emptied windows, idle hide and show, clicks on
    play/pause), the handlers never read a freed struct. Either all of them
    return, and then every slot points to an allocated struct that no other
    slot shares, or the run stops at a NULL dereference. *)
Theorem first_version_stops_only_at_null
    (position : string)
    (playerctl_player_new_from_name : PlayerctlPlayerName -> option PlayerctlPlayer)
    (art_size : Z) (manager : string + list PlayerctlPlayerName)
    (events : list V1.Event) :
  (exists s', V1.seq (V1.on_activation playerctl_player_new_from_name manager)
                (V1.run position playerctl_player_new_from_name art_size events)
                V1.initial = V1.Ok tt s'
              /\ V1.live_slots s')
  \/ (exists s', V1.seq (V1.on_activation playerctl_player_new_from_name manager)
                   (V1.run position playerctl_player_new_from_name art_size events)
                   V1.initial = V1.Aborted "NULL dereference" s').
Proof.
  apply v1_safe_seq.
  - apply v1_safe_on_activation.
  - induction events as [|e events IH]; cbn [V1.run].
    + apply v1_safe_ret.
    + apply v1_safe_seq; [apply v1_safe_handle | exact IH].
  - split.
    + intros win a H. cbn [V1.initial V1.module_data] in H. by rewrite lookup_empty in H.
    + intros win1 win2 a H. cbn [V1.initial V1.module_data] in H.
      by rewrite lookup_empty in H.
Qed.

(** ** The slots of the module *)

(** X21. From the load-time state, through activation and any events, with
    art enabled: whenever the handlers have all returned, every slot points
    to an allocated struct that is not destroyed and has its image, and no
    struct is in two slots. *)
Theorem slots_point_to_live_structs
    (art_size : Z) (position : string) (show_hidden : bool)
    (g_uri_peek_scheme : string -> option string)
    (playerctl_player_new_from_name : PlayerctlPlayerName -> option PlayerctlPlayer)
    (manager : string + list PlayerctlPlayerName) (events : list Event) (s1 s2 : State)
    (Hart : art_size <> 0%Z)
    (Hact : on_activation playerctl_player_new_from_name manager initial = Ok tt s1)
    (Hrun : run art_size position show_hidden g_uri_peek_scheme
              playerctl_player_new_from_name events s1 = Ok tt s2) :
  (forall win b, module_data s2 !! win = Some b ->
     exists w, heap s2 !! b = Some (Allocated w)
               /\ destroyed w = false /\ is_Some (album_art w))
  /\ (forall win1 win2 b, module_data s2 !! win1 = Some b ->
       module_data s2 !! win2 = Some b -> win1 = win2).
Proof.
  exact (wf_reachable art_size position show_hidden g_uri_peek_scheme
           playerctl_player_new_from_name manager events s1 s2 Hart Hact Hrun).
Qed.

(** ** Concrete runs of the further properties *)

Lemma ensure_returns_the_stored_widget_witness :
  setup_playerctl 64 "top-center" uri_scheme 0 state_tracked = Ok 0 state_focused
  /\ module_data state_focused !! 0 = Some 0
  /\ setup_playerctl 64 "top-center" uri_scheme 0 state_focused = Ok 0 state_focused
  /\ (forall win, win <> 0 ->
        module_data state_focused !! win = module_data state_tracked !! win)
  /\ (forall b, b <> 0 -> heap state_focused !! b = heap state_tracked !! b).
Proof.
  split; [vm_compute; reflexivity|].
  apply (ensure_returns_the_stored_widget 64 "top-center" uri_scheme
           state_tracked state_focused 0 0).
  vm_compute. reflexivity.
Defined.

Lemma refresh_without_player_only_hides_witness :
  heap state_player_gone !! 0 = Some (Allocated (sample_widget true))
  /\ destroyed (sample_widget true) = false
  /\ current_player state_player_gone = None
  /\ setup_metadata uri_scheme 0 state_player_gone
     = Ok tt (at_widget state_player_gone 0 (revealed false (sample_widget true))).
Proof.
  split; [reflexivity|]. split; [reflexivity|]. split; [reflexivity|].
  exact (refresh_without_player_only_hides uri_scheme state_player_gone 0
           (sample_widget true) eq_refl eq_refl eq_refl).
Defined.

Lemma refresh_twice_repeats_the_pending_work_witness :
  heap state_focused !! 0 = Some (Allocated (sample_widget true))
  /\ usable (sample_widget true)
  /\ current_player state_focused = Some player_full
  /\ exists s1 s2, setup_metadata uri_scheme 0 state_focused = Ok tt s1
       /\ setup_metadata uri_scheme 0 s1 = Ok tt s2
       /\ heap s2 = heap s1
       /\ heap s2 !! 0 = Some (Allocated (refreshed player_full (sample_widget true)))
       /\ in_flight s2
          = in_flight state_focused ++ art_fetches uri_scheme 0 (art_url player_full)
            ++ art_fetches uri_scheme 0 (art_url player_full)
       /\ sources s2 = sources state_focused ++ [(1, 0); (1, 0)].
Proof.
  split; [reflexivity|]. split; [exact (usable_sample_widget true)|].
  split; [reflexivity|].
  exact (refresh_twice_repeats_the_pending_work uri_scheme state_focused 0
           (sample_widget true) player_full eq_refl (usable_sample_widget true) eq_refl).
Defined.

Lemma art_completion_outcomes_witness :
  heap state_focused !! 0 = Some (Allocated (sample_widget true))
  /\ usable (sample_widget true)
  /\ file_callback 64 (inl "timed out") 0 state_focused
     = Ok tt (set_log (log state_focused ++ [g_warning
                "Failed loading album art (g_file_read_finish): timed out"]) state_focused)
  /\ set_art_from_stream 64 (stream_image 7) 0 state_focused
     = Ok tt (at_widget
                (set_log (log state_focused ++ [gtk_image_set_from_pixbuf 0]) state_focused) 0
                (set_album_art (Some (image_pixbuf (mkPixbuf 7 (-1) 64)))
                   (sample_widget true))).
Proof.
  split; [reflexivity|]. split; [exact (usable_sample_widget true)|].
  destruct (art_completion_outcomes 64 state_focused 0 (sample_widget true) "timed out" 7
              eq_refl (usable_sample_widget true)) as (Hfile & _ & _ & Himage).
  split; [exact Hfile | exact Himage].
Defined.

Lemma last_delivered_completion_gives_the_image_witness :
  heap state_two_reads !! 0 = Some (Allocated (sample_widget true))
  /\ usable (sample_widget true)
  /\ in_flight state_two_reads
     = [soup_send "https://example.org/cover.png" 0; file_read "file:///tmp/cover.png" 0]
  /\ exists s', (complete 64 1 (inr (stream_image 8)) ;;;
                 complete 64 0 (inr (stream_image 7))) state_two_reads = Ok tt s'
       /\ in_flight s' = []
       /\ heap s' !! 0
          = Some (Allocated (set_album_art (Some (image_pixbuf (mkPixbuf 7 (-1) 64)))
                               (sample_widget true))).
Proof.
  split; [reflexivity|]. split; [exact (usable_sample_widget true)|].
  split; [reflexivity|].
  exact (last_delivered_completion_gives_the_image 64 state_two_reads 0 (sample_widget true)
           (soup_send "https://example.org/cover.png" 0) (file_read "file:///tmp/cover.png" 0)
           [] 7 8 eq_refl (usable_sample_widget true) eq_refl eq_refl eq_refl).
Defined.

Lemma idle_hide_and_show_set_the_reveal_witness :
  focused_window (focus_on 0) = Some 0
  /\ module_data state_focused !! 0 = Some 0
  /\ heap state_focused !! 0 = Some (Allocated (sample_widget true))
  /\ on_idle_hide false (focus_on 0) state_focused
     = Ok tt (at_widget state_focused 0 (revealed false (sample_widget true)))
  /\ on_idle_show (focus_on 0) state_focused
     = Ok tt (at_widget state_focused 0 (revealed true (sample_widget true)))
  /\ (on_idle_hide false (focus_on 0) ;;; on_idle_show (focus_on 0)) state_focused
     = Ok tt (at_widget state_focused 0 (revealed true (sample_widget true))).
Proof.
  split; [reflexivity|]. split; [reflexivity|]. split; [reflexivity|].
  exact (idle_hide_and_show_set_the_reveal false state_focused (focus_on 0) 0 0
           (sample_widget true) eq_refl eq_refl eq_refl).
Defined.

Lemma idle_without_widget_does_nothing_witness :
  (forall win, focused_window (focus_on 0) = Some win ->
     module_data state_tracked !! win = None)
  /\ on_idle_hide false (focus_on 0) state_tracked = Ok tt state_tracked
  /\ on_idle_show (focus_on 0) state_tracked = Ok tt state_tracked.
Proof.
  split; [intros win _; reflexivity|].
  apply (idle_without_widget_does_nothing false state_tracked (focus_on 0)).
  intros win _. reflexivity.
Defined.

Lemma notifications_without_focused_window_witness :
  focused_window no_focus = None
  /\ metadata 64 "top-center" uri_scheme no_focus state_focused = Ok tt state_focused
  /\ playback_status 64 "top-center" uri_scheme PLAYERCTL_PLAYBACK_STATUS_PAUSED no_focus
       state_focused = Ok tt state_focused
  /\ player_appeared 64 "top-center" uri_scheme no_focus state_focused
     = Ok tt (set_log (log state_focused ++ [g_signal_connect sig_metadata;
                                             g_signal_connect sig_playback_status])
                state_focused).
Proof.
  split; [reflexivity|].
  exact (notifications_without_focused_window 64 "top-center" uri_scheme state_focused
           no_focus PLAYERCTL_PLAYBACK_STATUS_PAUSED eq_refl).
Defined.

Lemma playback_status_icon_follows_the_signal_witness :
  focused_window (focus_on 0) = Some 0
  /\ module_data state_focused !! 0 = Some 0
  /\ heap state_focused !! 0 = Some (Allocated (sample_widget true))
  /\ usable (sample_widget true)
  /\ playback_status 64 "top-center" uri_scheme PLAYERCTL_PLAYBACK_STATUS_PAUSED (focus_on 0)
       state_focused
     = Ok tt (at_widget (refresh_rest uri_scheme (current_player state_focused) 0 state_focused) 0
                (with_status_icon PLAYERCTL_PLAYBACK_STATUS_PAUSED
                   (refresh_struct (current_player state_focused) (sample_widget true)))).
Proof.
  split; [reflexivity|]. split; [reflexivity|]. split; [reflexivity|].
  split; [exact (usable_sample_widget true)|].
  exact (playback_status_icon_follows_the_signal 64 "top-center" uri_scheme state_focused
           (focus_on 0) PLAYERCTL_PLAYBACK_STATUS_PAUSED 0 0 (sample_widget true)
           eq_refl eq_refl eq_refl (usable_sample_widget true)).
Defined.

Lemma window_destroy_frees_once_witness :
  module_data state_focused !! 0 = Some 0
  /\ heap state_focused !! 0 = Some (Allocated (sample_widget true))
  /\ exists s', on_window_destroy 0 state_focused = Ok tt s'
       /\ module_data s' = delete 0 (module_data state_focused)
       /\ heap s' = <[0 := Freed]> (heap state_focused)
       /\ log s' = log state_focused ++ [gtk_widget_destroy 0; g_free 0]
       /\ current_player s' = current_player state_focused
       /\ on_window_destroy 0 s' = Ok tt s'.
Proof.
  split; [reflexivity|]. split; [reflexivity|].
  exact (window_destroy_frees_once state_focused 0 0 (sample_widget true) eq_refl eq_refl).
Defined.

Lemma window_destroy_leaves_dangling_callbacks_witness :
  module_data state_focused !! 0 = Some 0
  /\ heap state_focused !! 0 = Some (Allocated (sample_widget true))
  /\ exists s', on_window_destroy 0 state_focused = Ok tt s'
       /\ in_flight s' = in_flight state_focused /\ sources s' = sources state_focused
       /\ (forall stream,
             set_art_from_stream 64 stream 0 s'
             = Aborted (undefined_behaviour "use after free") s')
       /\ (forall p, current_player state_focused = Some p ->
             setup_button_sensitive_handler 0 s'
             = Aborted (undefined_behaviour "use after free") s').
Proof.
  split; [reflexivity|]. split; [reflexivity|].
  exact (window_destroy_leaves_dangling_callbacks 64 state_focused 0 0 (sample_widget true)
           eq_refl eq_refl).
Defined.

Lemma timeout_without_player_only_removes_the_source_witness :
  current_player state_player_gone = None
  /\ sources state_player_gone !! 0 = Some (1, 0)
  /\ dispatch_timeout 0 state_player_gone
     = Ok tt (set_sources (delete 0 (sources state_player_gone)) state_player_gone).
Proof.
  split; [reflexivity|]. split; [reflexivity|].
  exact (timeout_without_player_only_removes_the_source state_player_gone 0 (1, 0)
           eq_refl eq_refl).
Defined.

Lemma player_appeared_does_not_refresh_a_widget_witness :
  focused_window (focus_on 0) = Some 0
  /\ module_data state_focused !! 0 = Some 0
  /\ player_appeared 64 "top-center" uri_scheme (focus_on 0) state_focused
     = Ok tt (set_log (log state_focused ++ [g_signal_connect sig_metadata;
                                             g_signal_connect sig_playback_status])
                state_focused).
Proof.
  split; [reflexivity|]. split; [reflexivity|].
  exact (player_appeared_does_not_refresh_a_widget 64 "top-center" uri_scheme state_focused
           (focus_on 0) 0 0 eq_refl eq_refl).
Defined.

Lemma focus_change_without_player_builds_and_reveals_witness :
  module_data initial !! 0 = None
  /\ current_player initial = None
  /\ exists s', on_focus_change 64 "top-center" false uri_scheme (focus_on 0) 0 None initial
                = Ok tt s'
       /\ module_data s' = <[0 := length (heap initial)]> (module_data initial)
       /\ heap s'
          = heap initial
            ++ [Allocated (revealed (negb (hidden (focus_on 0)) || false)
                             (new_playerctl 64 "top-center"))]
       /\ in_flight s' = in_flight initial /\ sources s' = sources initial
       /\ warnings (log s')
          = warnings (log initial)
            ++ (if unknown_position "top-center"
                then ["playerctl: Unknown position"] else []).
Proof.
  split; [reflexivity|]. split; [reflexivity|].
  apply (focus_change_without_player_builds_and_reveals 64 "top-center" false uri_scheme
           initial (focus_on 0) 0 None).
  - reflexivity.
  - reflexivity.
  - intros o H. discriminate.
Defined.

Lemma first_version_setup_rebuilds_from_scratch_witness :
  (forall a, V1.module_data first_state_focused !! 0 = Some a ->
     exists w, V1.heap first_state_focused !! a = Some (V1.Allocated w))
  /\ exists s', V1.setup_playerctl "top-center" 64 0 first_state_focused = V1.Ok tt s'
       /\ V1.module_data s' !! 0
          = (if V1.shows first_state_focused
             then Some (length (V1.heap first_state_focused) : addr) else None)
       /\ (forall a, V1.module_data first_state_focused !! 0 = Some a ->
             V1.heap s' !! a = Some V1.Freed)
       /\ (forall p, V1.player first_state_focused = Some p ->
             V1.shows first_state_focused = true ->
             V1.heap s' !! length (V1.heap first_state_focused)
             = Some (V1.Allocated (V1.new_playerctl "top-center" p)))
       /\ (forall win, win <> 0 ->
             V1.module_data s' !! win = V1.module_data first_state_focused !! win)
       /\ V1.player s' = V1.player first_state_focused
       /\ (forall b, b < length (V1.heap first_state_focused) ->
             V1.module_data first_state_focused !! 0 <> Some b ->
             V1.heap s' !! b = V1.heap first_state_focused !! b)
       /\ V1.log s'
          = V1.log first_state_focused ++ V1.setup_calls "top-center" 0 first_state_focused.
Proof.
  assert (Hslot : forall a, V1.module_data first_state_focused !! 0 = Some a ->
                    exists w, V1.heap first_state_focused !! a = Some (V1.Allocated w)).
  { intros a H. vm_compute in H. injection H as <-. eexists. reflexivity. }
  split; [exact Hslot|].
  exact (first_version_setup_rebuilds_from_scratch "top-center" 64 0 first_state_focused
           Hslot).
Defined.

Lemma first_version_never_forgets_its_player_witness :
  V1.player first_state_focused = Some player_full
  /\ V1.deliver_all "top-center" sample_new_from_name 64
       [V1.bus_player_vanished; V1.bus_name_appeared (focus_on 0) "vlc"] first_state_focused
     = V1.Ok tt first_state_focused.
Proof.
  split; [reflexivity|].
  exact (first_version_never_forgets_its_player "top-center" sample_new_from_name 64
           [V1.bus_player_vanished; V1.bus_name_appeared (focus_on 0) "vlc"]
           first_state_focused player_full eq_refl).
Defined.

Lemma first_version_idle_needs_a_widget_witness :
  focused_window (focus_on 0) = Some 0
  /\ V1.module_data V1.initial !! 0 = None
  /\ V1.on_idle_hide (focus_on 0) V1.initial = V1.Aborted "NULL dereference" V1.initial
  /\ V1.on_idle_show (focus_on 0) V1.initial = V1.Aborted "NULL dereference" V1.initial.
Proof.
  split; [reflexivity|]. split; [reflexivity|].
  exact (first_version_idle_needs_a_widget V1.initial (focus_on 0) 0 eq_refl eq_refl).
Defined.

Lemma first_version_hidden_focus_without_player_witness :
  (forall a, V1.module_data first_state_stopped !! 0 = Some a ->
     exists w, V1.heap first_state_stopped !! a = Some (V1.Allocated w))
  /\ V1.shows first_state_stopped = false
  /\ hidden (hidden_focus_on 0) = true
  /\ exists s', V1.on_focus_change "top-center" 64 (hidden_focus_on 0) 0 None
                  first_state_stopped
                = V1.Aborted "NULL dereference" s'.
Proof.
  assert (Hslot : forall a, V1.module_data first_state_stopped !! 0 = Some a ->
                    exists w, V1.heap first_state_stopped !! a = Some (V1.Allocated w)).
  { intros a H. vm_compute in H. injection H as <-. eexists. reflexivity. }
  split; [exact Hslot|]. split; [reflexivity|]. split; [reflexivity|].
  exact (first_version_hidden_focus_without_player "top-center" 64 first_state_stopped
           (hidden_focus_on 0) 0 None Hslot eq_refl eq_refl).
Defined.

Lemma slots_point_to_live_structs_witness :
  (64 <> 0)%Z
  /\ on_activation sample_new_from_name (inr ["mpv"]) initial = Ok tt state_tracked
  /\ run 64 "top-center" false uri_scheme sample_new_from_name
       [ev_focus_change (focus_on 0) 0 None; ev_focus_change (focus_on 1) 1 (Some 0)]
       state_tracked = Ok tt state_two_windows
  /\ (forall win b, module_data state_two_windows !! win = Some b ->
        exists w, heap state_two_windows !! b = Some (Allocated w)
                  /\ destroyed w = false /\ is_Some (album_art w))
  /\ (forall win1 win2 b, module_data state_two_windows !! win1 = Some b ->
        module_data state_two_windows !! win2 = Some b -> win1 = win2).
Proof.
  split; [discriminate|]. split; [reflexivity|]. split; [vm_compute; reflexivity|].
  apply (slots_point_to_live_structs 64 "top-center" false uri_scheme sample_new_from_name
           (inr ["mpv"])
           [ev_focus_change (focus_on 0) 0 None; ev_focus_change (focus_on 1) 1 (Some 0)]
           state_tracked state_two_windows).
  - discriminate.
  - reflexivity.
  - vm_compute. reflexivity.
Defined.
